(** * H5FDgds: the GPUDirect Storage file driver of HDF5

    A shallow embedding of [src/H5FDgds.c] and the verification of its
    specification.

    Build configuration embedded here: [H5_GDS_SUPPORT] defined (the
    accelerator path is compiled in), [H5_HAVE_PREADWRITE] defined
    (positioned reads and writes, so no seek is issued),
    [H5_HAVE_WIN32_API] undefined, LP64 ([int] and [unsigned] are 32 bits
    wide, [size_t], [ssize_t], [off_t] and [haddr_t] 64 bits wide).

    The operating system and the CUDA/cuFile runtime are a [World]: one
    backing file, a flat byte-addressed memory, the answers of the CUDA
    pointer query, and a script of the outcomes of the next fallible
    primitive calls.  Error-stack pushes and the diagnostics computed only
    for an error message are left out.  The worker threads of one request
    own disjoint ranges and are joined before the call returns; they are run
    one after the other, in index order.

    Control flow of the library's macros: [HGOTO_ERROR(maj, min, ret_val,
    ...)] and [HSYS_GOTO_ERROR] record an error, assign [ret_val] to
    [ret_value] and jump to the label [done]; [FUNC_LEAVE_NOAPI(ret_value)]
    returns [ret_value].  A failed [assert] or [HDassert] ends the call
    ([Aborted]). *)

From Stdlib Require Import ZArith List Lia Bool.
From Stdlib Require Import Init.Byte.
Import ListNotations.
Local Open Scope Z_scope.

(** ** C integer types *)

Definition u64 (x : Z) : Z := x mod 2 ^ 64.
Definition s64 (x : Z) : Z := (x + 2 ^ 63) mod 2 ^ 64 - 2 ^ 63.
Definition u32 (x : Z) : Z := x mod 2 ^ 32.
Definition s32 (x : Z) : Z := (x + 2 ^ 31) mod 2 ^ 32 - 2 ^ 31.

Definition haddr_t := Z.
Definition herr_t := Z.

(** ** Constants and macros of the library's headers *)

(** Modelled from the spec: [SUCCEED] and [FAIL] of H5private.h, which is
    not under src/.  The operations return "ok | error"; the source tests
    failure as [ret_value < 0] and documents "Non-negative on
    success/Negative on failure". *)
Definition SUCCEED : herr_t := 0.
Definition FAIL : herr_t := -1.

(** The null pointer constant, as it converts to the integer type
    [herr_t]. *)
Definition NULL : Z := 0.

(** Modelled from the spec: [HADDR_UNDEF] of H5public.h, which is not under
    src/: the distinguished "undefined" sentinel of the unsigned 64-bit
    offsets, [(haddr_t)(-1)]. *)
Definition HADDR_UNDEF : haddr_t := u64 (-1).

(** Modelled from the spec: [H5F_addr_defined] of H5Fprivate.h, which is
    not under src/: the address is not the undefined sentinel. *)
Definition H5F_addr_defined (x : haddr_t) : bool := negb (x =? HADDR_UNDEF).

Definition sizeof_HDoff_t : Z := 8.

Definition MAXADDR : Z := u64 (Z.shiftl 1 (8 * sizeof_HDoff_t - 1)) - 1.

Definition ADDR_OVERFLOW (A : haddr_t) : bool :=
  (HADDR_UNDEF =? A) || negb (Z.land A (u64 (Z.lnot MAXADDR)) =? 0).

Definition SIZE_OVERFLOW (Z_ : Z) : bool :=
  negb (Z.land Z_ (u64 (Z.lnot MAXADDR)) =? 0).

Definition REGION_OVERFLOW (A : haddr_t) (Z_ : Z) : bool :=
  ADDR_OVERFLOW A || SIZE_OVERFLOW Z_ ||
  (HADDR_UNDEF =? u64 (A + Z_)) ||
  (s64 (u64 (A + Z_)) <? s64 A).

(** [H5F_addr_eq] as the library's H5Fprivate.h has it, [(X) !=
    HADDR_UNDEF && (X) == (Y)].  The header is not under src/: the driver
    below takes the comparison as a parameter, and this definition only
    instantiates it in closed examples. *)
Definition H5F_addr_eq_lib (x y : haddr_t) : bool :=
  negb (x =? HADDR_UNDEF) && (x =? y).

(** The last-operation tag: unknown, read or write. *)
Inductive H5FD_file_op_t : Type := OP_UNKNOWN | OP_READ | OP_WRITE.

(** Status and error codes of cuFile, of the CUDA runtime and of the
    operating system. *)
Definition CU_FILE_SUCCESS : Z := 0.
Definition cudaSuccess : Z := 0.
Definition EINTR : Z := 4.
Definition EINVAL : Z := 22.

(** ** The driver's data *)

(** [H5FD_gds_t], without [pub] and [filename] (diagnostics only).  Of
    the scratch arrays [threads] and [td], which every request fills
    afresh, the handle keeps the pointers: they are null when the
    allocation in [H5FD_gds_open] failed. *)
Record H5FD_gds_t : Type := mk_file {
  fd : Z;
  direct_fd : Z;
  cf_handle : Z;
  num_io_threads : Z;
  io_block_size : Z;
  threads : Z;
  td : Z;
  eoa : haddr_t;
  eof : haddr_t;
  pos : haddr_t;
  op : H5FD_file_op_t;
  device : Z;
  inode : Z;
  fam_to_single : bool
}.

Record thread_data_t : Type := mk_td {
  td_devPtr : Z;
  td_cfr_handle : Z;
  td_offset : Z;
  td_devPtr_offset : Z;
  td_block_size : Z;
  td_size : Z
}.

Definition set_eoa_field (f : H5FD_gds_t) (v : haddr_t) : H5FD_gds_t :=
  mk_file (fd f) (direct_fd f) (cf_handle f) (num_io_threads f)
    (io_block_size f) (threads f) (td f) v (eof f) (pos f) (op f)
    (device f) (inode f) (fam_to_single f).

Definition set_eof_field (f : H5FD_gds_t) (v : haddr_t) : H5FD_gds_t :=
  mk_file (fd f) (direct_fd f) (cf_handle f) (num_io_threads f)
    (io_block_size f) (threads f) (td f) (eoa f) v (pos f) (op f)
    (device f) (inode f) (fam_to_single f).

Definition set_pos_op (f : H5FD_gds_t) (p : haddr_t) (o : H5FD_file_op_t)
  : H5FD_gds_t :=
  mk_file (fd f) (direct_fd f) (cf_handle f) (num_io_threads f)
    (io_block_size f) (threads f) (td f) (eoa f) (eof f) p o
    (device f) (inode f) (fam_to_single f).

(** ** The world outside the driver *)

(** What the next fallible primitive call does: behave normally, fail with
    an error code, or (for a transfer) move at most [n] bytes. *)
Inductive sysres : Type :=
| Normal
| Error (e : positive)
| Partial (n : positive).

Record cudaPointerAttributes : Type := mk_attr {
  devicePointer : Z;
  hostPointer : Z
}.

(** The primitive calls that change or may fail, as they are issued. *)
Inductive Call : Type :=
| call_cuFileBufRegister (buf size_ status : Z)
| call_cuFileBufDeregister (buf status : Z)
| call_cuFileRead (handle buf size_ file_offset devPtr_offset ret : Z)
| call_cuFileWrite (handle buf size_ file_offset devPtr_offset ret : Z)
| call_pread (fd_ buf count offset ret : Z)
| call_pwrite (fd_ buf count offset ret : Z)
| call_ftruncate (fd_ length ret : Z)
| call_cuFileHandleDeregister (handle : Z)
| call_cuFileDriverClose (status : Z)
| call_close (fd_ ret : Z)
| call_free_td
| call_free_threads
| call_H5FL_FREE.

Record World : Type := mk_world {
  fdata : Z -> byte;
  fsize : Z;
  mem : Z -> byte;
  cuda_runtime : Z -> cudaPointerAttributes -> Z * cudaPointerAttributes;
  stack_garbage : cudaPointerAttributes;
  script : list sysres;
  errno : Z;
  cu_file_driver_closed : bool;
  calls : list Call
}.

Definition set_file (w : World) (d : Z -> byte) (n : Z) : World :=
  mk_world d n (mem w) (cuda_runtime w) (stack_garbage w) (script w)
    (errno w) (cu_file_driver_closed w) (calls w).

Definition set_mem (w : World) (m : Z -> byte) : World :=
  mk_world (fdata w) (fsize w) m (cuda_runtime w) (stack_garbage w)
    (script w) (errno w) (cu_file_driver_closed w) (calls w).

Definition set_script (w : World) (s : list sysres) : World :=
  mk_world (fdata w) (fsize w) (mem w) (cuda_runtime w) (stack_garbage w)
    s (errno w) (cu_file_driver_closed w) (calls w).

Definition set_errno (w : World) (e : Z) : World :=
  mk_world (fdata w) (fsize w) (mem w) (cuda_runtime w) (stack_garbage w)
    (script w) e (cu_file_driver_closed w) (calls w).

Definition set_driver_closed (w : World) (b : bool) : World :=
  mk_world (fdata w) (fsize w) (mem w) (cuda_runtime w) (stack_garbage w)
    (script w) (errno w) b (calls w).

Definition log (w : World) (c : Call) : World :=
  mk_world (fdata w) (fsize w) (mem w) (cuda_runtime w) (stack_garbage w)
    (script w) (errno w) (cu_file_driver_closed w) (calls w ++ [c]).

Definition next_outcome (w : World) : sysres * World :=
  match script w with
  | [] => (Normal, w)
  | r :: rest => (r, set_script w rest)
  end.

(** The byte of the file at an address; a byte past the end reads as
    zero. *)
Definition file_byte (w : World) (a : Z) : byte :=
  if (0 <=? a) && (a <? fsize w) then fdata w a else x00.

(** How many of [count] bytes the file holds from [off] on. *)
Definition avail (w : World) (count off : Z) : Z :=
  Z.max 0 (Z.min count (fsize w - off)).

Definition limit (r : sysres) (n : Z) : Z :=
  match r with
  | Partial k => Z.min (Z.pos k) n
  | _ => n
  end.

Definition in_range (lo n p : Z) : bool := (lo <=? p) && (p <? lo + n).

Definition copy_file_to_mem (w : World) (dst off n : Z) : World :=
  set_mem w (fun p =>
    if in_range dst n p then file_byte w (off + (p - dst)) else mem w p).

Definition copy_mem_to_file (w : World) (src off n : Z) : World :=
  set_file w
    (fun a => if in_range off n a then mem w (src + (a - off))
              else file_byte w a)
    (if n >? 0 then Z.max (fsize w) (off + n) else fsize w).

Definition memset (w : World) (dst : Z) (c : byte) (n : Z) : World :=
  set_mem w (fun p => if in_range dst n p then c else mem w p).

(** A positioned read of the file into memory at [dst]; the result is the
    byte count, or -1 with [errno] set. *)
Definition file_read (w : World) (dst count off : Z) : Z * World :=
  let '(r, w1) := next_outcome w in
  match r with
  | Error e => (-1, set_errno w1 (Z.pos e))
  | _ =>
      if off <? 0 then (-1, set_errno w1 EINVAL)
      else
        let n := limit r (avail w1 count off) in
        (n, copy_file_to_mem w1 dst off n)
  end.

(** A positioned write of memory at [src] to the file, which grows as
    needed. *)
Definition file_write (w : World) (src count off : Z) : Z * World :=
  let '(r, w1) := next_outcome w in
  match r with
  | Error e => (-1, set_errno w1 (Z.pos e))
  | _ =>
      if off <? 0 then (-1, set_errno w1 EINVAL)
      else
        let n := limit r (Z.max 0 count) in
        (n, copy_mem_to_file w1 src off n)
  end.

Definition HDpread (w : World) (fd_ buf count offset : Z) : Z * World :=
  let '(ret, w1) := file_read w buf count offset in
  (ret, log w1 (call_pread fd_ buf count offset ret)).

Definition HDpwrite (w : World) (fd_ buf count offset : Z) : Z * World :=
  let '(ret, w1) := file_write w buf count offset in
  (ret, log w1 (call_pwrite fd_ buf count offset ret)).

Definition cuFileRead (w : World) (fh devPtr size_ file_offset devPtr_offset : Z)
  : Z * World :=
  let '(ret, w1) := file_read w (devPtr + devPtr_offset) size_ file_offset in
  (ret, log w1 (call_cuFileRead fh devPtr size_ file_offset devPtr_offset ret)).

Definition cuFileWrite (w : World) (fh devPtr size_ file_offset devPtr_offset : Z)
  : Z * World :=
  let '(ret, w1) := file_write w (devPtr + devPtr_offset) size_ file_offset in
  (ret, log w1 (call_cuFileWrite fh devPtr size_ file_offset devPtr_offset ret)).

(** The status of a call that moves no data. *)
Definition status_of (r : sysres) : Z :=
  match r with
  | Error e => Z.pos e
  | _ => CU_FILE_SUCCESS
  end.

Definition cuFileBufRegister (w : World) (buf size_ flags : Z) : Z * World :=
  let '(r, w1) := next_outcome w in
  (status_of r, log w1 (call_cuFileBufRegister buf size_ (status_of r))).

Definition cuFileBufDeregister (w : World) (buf : Z) : Z * World :=
  let '(r, w1) := next_outcome w in
  (status_of r, log w1 (call_cuFileBufDeregister buf (status_of r))).

Definition cuFileHandleDeregister (w : World) (fh : Z) : World :=
  log w (call_cuFileHandleDeregister fh).

(** [HDfree] of the workers' entries and of the thread identifiers. *)
Definition HDfree_td (w : World) : World := log w call_free_td.

Definition HDfree_threads (w : World) : World := log w call_free_threads.

Definition cuFileDriverClose (w : World) : Z * World :=
  let '(r, w1) := next_outcome w in
  (status_of r, log w1 (call_cuFileDriverClose (status_of r))).

Definition HDclose (w : World) (fd_ : Z) : Z * World :=
  let '(r, w1) := next_outcome w in
  match r with
  | Error e => (-1, log (set_errno w1 (Z.pos e)) (call_close fd_ (-1)))
  | _ => (0, log w1 (call_close fd_ 0))
  end.

Definition HDftruncate (w : World) (fd_ length : Z) : Z * World :=
  let '(r, w1) := next_outcome w in
  match r with
  | Error e => (-1, log (set_errno w1 (Z.pos e)) (call_ftruncate fd_ length (-1)))
  | _ =>
      if length <? 0
      then (-1, log (set_errno w1 EINVAL) (call_ftruncate fd_ length (-1)))
      else (0, log (set_file w1 (file_byte w1) length)
                   (call_ftruncate fd_ length 0))
  end.

Definition cudaPointerGetAttributes (w : World) (attributes : cudaPointerAttributes)
  (ptr : Z) : Z * cudaPointerAttributes :=
  cuda_runtime w ptr attributes.

(** ** Results of a call *)

(** A call returns, is cut short by a failed [assert], or exhausts the
    fuel given to its loops. *)
Inductive outcome (A : Type) : Type :=
| Returned (a : A)
| Aborted
| OutOfFuel.

Arguments Returned {A} a.
Arguments Aborted {A}.
Arguments OutOfFuel {A}.

(** How a loop of the fallback path ends: it runs to its end (or breaks)
    with the address reached, or jumps to [done] with a return value. *)
Inductive loop_exit : Type :=
| Fell_through (addr : haddr_t)
| Goto_done (ret_value : herr_t).

(** ** The driver *)

Definition is_device_pointer (w : World) (ptr : Z) : Z :=
  let is_device_ptr := 0 in
  let attributes := stack_garbage w in
  let '(_, attributes) := cudaPointerGetAttributes w attributes ptr in
  if negb (devicePointer attributes =? NULL) then 1 else is_device_ptr.

Fixpoint read_thread_fn (fuel : nat) (td : thread_data_t) (w : World)
  : outcome (thread_data_t * World) :=
  match fuel with
  | O => OutOfFuel
  | S fuel' =>
      if td_size td >? 0 then
        if td_size td >? td_block_size td then
          let '(ret, w1) :=
            cuFileRead w (td_cfr_handle td) (td_devPtr td) (td_block_size td)
              (td_offset td) (td_devPtr_offset td) in
          let td1 :=
            mk_td (td_devPtr td) (td_cfr_handle td)
              (s64 (td_offset td + td_block_size td))
              (s64 (td_devPtr_offset td + td_block_size td))
              (td_block_size td)
              (u64 (td_size td - td_block_size td)) in
          if ret >? 0 then read_thread_fn fuel' td1 w1 else Aborted
        else
          let '(ret, w1) :=
            cuFileRead w (td_cfr_handle td) (td_devPtr td) (td_size td)
              (td_offset td) (td_devPtr_offset td) in
          let td1 :=
            mk_td (td_devPtr td) (td_cfr_handle td) (td_offset td)
              (td_devPtr_offset td) (td_block_size td) 0 in
          if ret >? 0 then read_thread_fn fuel' td1 w1 else Aborted
      else Returned (td, w)
  end.

Fixpoint write_thread_fn (fuel : nat) (td : thread_data_t) (w : World)
  : outcome (thread_data_t * World) :=
  match fuel with
  | O => OutOfFuel
  | S fuel' =>
      if td_size td >? 0 then
        if td_size td >? td_block_size td then
          let '(ret, w1) :=
            cuFileWrite w (td_cfr_handle td) (td_devPtr td) (td_block_size td)
              (td_offset td) (td_devPtr_offset td) in
          let td1 :=
            mk_td (td_devPtr td) (td_cfr_handle td)
              (s64 (td_offset td + td_block_size td))
              (s64 (td_devPtr_offset td + td_block_size td))
              (td_block_size td)
              (u64 (td_size td - td_block_size td)) in
          if ret >? 0 then write_thread_fn fuel' td1 w1 else Aborted
        else
          let '(ret, w1) :=
            cuFileWrite w (td_cfr_handle td) (td_devPtr td) (td_size td)
              (td_offset td) (td_devPtr_offset td) in
          let td1 :=
            mk_td (td_devPtr td) (td_cfr_handle td) (td_offset td)
              (td_devPtr_offset td) (td_block_size td) 0 in
          if ret >? 0 then write_thread_fn fuel' td1 w1 else Aborted
      else Returned (td, w)
  end.

(** [pthread_create] for every entry, then [pthread_join] for every
    entry: the workers, one after the other. *)
Fixpoint run_threads
  (start_routine : thread_data_t -> World -> outcome (thread_data_t * World))
  (tds : list thread_data_t) (w : World) : outcome World :=
  match tds with
  | [] => Returned w
  | td :: rest =>
      match start_routine td w with
      | Returned (_, w1) => run_threads start_routine rest w1
      | Aborted => Aborted
      | OutOfFuel => OutOfFuel
      end
  end.

(** The worker count after "make each thread access at least a 4K page". *)
Definition page_floor (size_ io_threads : Z) : Z :=
  if u64 (1 + u64 (size_ - 1) / 4096) <? u64 (u32 io_threads)
  then s32 (u64 (1 + u64 (size_ - 1) / 4096))
  else io_threads.

(** The loop that fills [file->td]: [n] entries from index [ii] on. *)
Fixpoint fill_td (n : nat) (ii : Z)
  (buf cfh offset io_chunk io_chunk_rem block_size io_threads : Z)
  : list thread_data_t :=
  match n with
  | O => []
  | S n' =>
      mk_td buf cfh
        (s64 (offset + s64 (ii * io_chunk)))
        (s64 (ii * io_chunk))
        (u64 block_size)
        (if ii =? io_threads - 1
         then u64 (s64 (io_chunk + io_chunk_rem))
         else u64 io_chunk)
      :: fill_td n' (ii + 1) buf cfh offset io_chunk io_chunk_rem block_size
           io_threads
  end.

(** The chunk partitioner, the same statements in [H5FD_gds_read] and in
    [H5FD_gds_write]: the page floor, the chunk and its remainder, and the
    entries of [file->td]. *)
Definition partition (buf cfh offset size_ io_threads0 block_size : Z)
  : list thread_data_t :=
  let io_threads := page_floor size_ io_threads0 in
  let io_chunk := u32 size_ / u32 io_threads in
  let io_chunk_rem := u32 size_ mod u32 io_threads in
  fill_td (Z.to_nat io_threads) 0 buf cfh offset io_chunk io_chunk_rem
    block_size io_threads.

(** The accelerator-direct transfer between registration and
    deregistration, for both directions. *)
Definition device_transfer
  (start_routine : thread_data_t -> World -> outcome (thread_data_t * World))
  (bulk : World -> Z -> Z -> Z -> Z -> Z -> Z * World)
  (file : H5FD_gds_t) (w : World) (offset size_ buf : Z) : outcome World :=
  let io_threads := num_io_threads file in
  let block_size := s32 (io_block_size file) in
  if io_threads >? 0 then
    if size_ =? 0 then Aborted
    else
      run_threads start_routine
        (partition buf (cf_handle file) offset size_ io_threads block_size) w
  else
    let '(ret, w1) := bulk w (cf_handle file) buf size_ offset 0 in
    if ret >? 0 then Returned w1 else Aborted.

(** The [done:] block of [H5FD_gds_read] and [H5FD_gds_write]. *)
Definition done_io (ret_value : herr_t) (file : H5FD_gds_t) : H5FD_gds_t :=
  if ret_value <? 0 then set_pos_op file HADDR_UNDEF OP_UNKNOWN else file.

Definition H5FD_gds_get_eoa (file : H5FD_gds_t) : haddr_t := eoa file.

Definition H5FD_gds_set_eoa (file : H5FD_gds_t) (addr : haddr_t)
  : herr_t * H5FD_gds_t :=
  (SUCCEED, set_eoa_field file addr).

Definition H5FD_gds_get_eof (file : H5FD_gds_t) : haddr_t := eof file.

Definition H5FD_gds_close (file : H5FD_gds_t) (w : World) : herr_t * World :=
  let w1 := cuFileHandleDeregister w (cf_handle file) in
  let '(status, w2) :=
    if negb (cu_file_driver_closed w1) then cuFileDriverClose w1
    else (CU_FILE_SUCCESS, w1) in
  if negb (status =? CU_FILE_SUCCESS) then (NULL, w2)
  else
    let w3 :=
      if negb (cu_file_driver_closed w1) then set_driver_closed w2 true
      else w2 in
    let '(r, w4) := HDclose w3 (direct_fd file) in
    if r <? 0 then (FAIL, w4)
    else
      let w5 := if negb (td file =? NULL) then HDfree_td w4 else w4 in
      let w5 :=
        if negb (threads file =? NULL) then HDfree_threads w5 else w5 in
      let '(r, w6) := HDclose w5 (fd file) in
      if r <? 0 then (FAIL, w6)
      else (SUCCEED, log w6 call_H5FL_FREE).

(** The [do ... while(-1 == bytes_read && EINTR == errno)] loop around
    [HDpread]; the result is the byte count and the advanced offset. *)
Fixpoint pread_retry (fuel : nat) (w : World) (fd_ buf bytes_in offset : Z)
  : outcome (Z * Z * World) :=
  match fuel with
  | O => OutOfFuel
  | S fuel' =>
      let '(bytes_read, w1) := HDpread w fd_ buf bytes_in offset in
      let offset1 :=
        if bytes_read >? 0 then s64 (offset + bytes_read) else offset in
      if (bytes_read =? -1) && (errno w1 =? EINTR)
      then pread_retry fuel' w1 fd_ buf bytes_in offset1
      else Returned (bytes_read, offset1, w1)
  end.

Fixpoint pwrite_retry (fuel : nat) (w : World) (fd_ buf bytes_in offset : Z)
  : outcome (Z * Z * World) :=
  match fuel with
  | O => OutOfFuel
  | S fuel' =>
      let '(bytes_wrote, w1) := HDpwrite w fd_ buf bytes_in offset in
      let offset1 :=
        if bytes_wrote >? 0 then s64 (offset + bytes_wrote) else offset in
      if (bytes_wrote =? -1) && (errno w1 =? EINTR)
      then pwrite_retry fuel' w1 fd_ buf bytes_in offset1
      else Returned (bytes_wrote, offset1, w1)
  end.

Section Driver.

(** [H5_POSIX_MAX_IO_BYTES] of H5private.h, which is not under src/: the
    largest byte count handed to one read or write call. *)
Variable H5_POSIX_MAX_IO_BYTES : Z.

(** [H5F_addr_eq] of H5Fprivate.h, which is not under src/: the address
    comparison of [H5FD_gds_truncate]. *)
Variable H5F_addr_eq : haddr_t -> haddr_t -> bool.

(** The [while(size > 0)] loop of the fallback read. *)
Fixpoint read_loop (fuel : nat) (file : H5FD_gds_t) (w : World)
  (addr size_ buf offset : Z) : outcome (loop_exit * World) :=
  match fuel with
  | O => OutOfFuel
  | S fuel' =>
      if size_ >? 0 then
        let bytes_in :=
          if size_ >? H5_POSIX_MAX_IO_BYTES then H5_POSIX_MAX_IO_BYTES
          else size_ in
        match pread_retry fuel' w (fd file) buf bytes_in offset with
        | Returned (bytes_read, offset1, w1) =>
            if bytes_read =? -1 then Returned (Goto_done FAIL, w1)
            else if bytes_read =? 0
            then Returned (Fell_through addr, memset w1 buf x00 size_)
            else if negb (bytes_read >=? 0) then Aborted
            else if negb (u64 bytes_read <=? size_) then Aborted
            else
              read_loop fuel' file w1 (u64 (addr + u64 bytes_read))
                (u64 (size_ - u64 bytes_read)) (buf + bytes_read) offset1
        | Aborted => Aborted
        | OutOfFuel => OutOfFuel
        end
      else Returned (Fell_through addr, w)
  end.

(** The [while(size > 0)] loop of the fallback write. *)
Fixpoint write_loop (fuel : nat) (file : H5FD_gds_t) (w : World)
  (addr size_ buf offset : Z) : outcome (loop_exit * World) :=
  match fuel with
  | O => OutOfFuel
  | S fuel' =>
      if size_ >? 0 then
        let bytes_in :=
          if size_ >? H5_POSIX_MAX_IO_BYTES then H5_POSIX_MAX_IO_BYTES
          else size_ in
        match pwrite_retry fuel' w (fd file) buf bytes_in offset with
        | Returned (bytes_wrote, offset1, w1) =>
            if bytes_wrote =? -1 then Returned (Goto_done FAIL, w1)
            else if negb (bytes_wrote >? 0) then Aborted
            else if negb (u64 bytes_wrote <=? size_) then Aborted
            else
              write_loop fuel' file w1 (u64 (addr + u64 bytes_wrote))
                (u64 (size_ - u64 bytes_wrote)) (buf + bytes_wrote) offset1
        | Aborted => Aborted
        | OutOfFuel => OutOfFuel
        end
      else Returned (Fell_through addr, w)
  end.

(** [H5FD_gds_read] up to the label [done]: the return value and the
    handle as they reach it. *)
Definition read_body (fuel : nat) (file : H5FD_gds_t) (w : World)
  (addr size_ buf : Z) : outcome (herr_t * H5FD_gds_t * World) :=
  let offset := s64 addr in
  if buf =? NULL then Aborted
  else if negb (H5F_addr_defined addr) then Returned (FAIL, file, w)
  else if REGION_OVERFLOW addr size_ then Returned (FAIL, file, w)
  else if negb (is_device_pointer w buf =? 0) then
    let '(status, w1) := cuFileBufRegister w buf size_ 0 in
    if negb (status =? CU_FILE_SUCCESS) then Returned (NULL, file, w1)
    else
      match device_transfer (read_thread_fn fuel) cuFileRead file w1 offset
              size_ buf with
      | Returned w2 =>
          let '(status, w3) := cuFileBufDeregister w2 buf in
          if negb (status =? CU_FILE_SUCCESS) then Returned (NULL, file, w3)
          else Returned (SUCCEED, file, w3)
      | Aborted => Aborted
      | OutOfFuel => OutOfFuel
      end
  else
    match read_loop fuel file w addr size_ buf offset with
    | Returned (Goto_done r, w1) => Returned (r, file, w1)
    | Returned (Fell_through addr1, w1) =>
        Returned (SUCCEED, set_pos_op file addr1 OP_READ, w1)
    | Aborted => Aborted
    | OutOfFuel => OutOfFuel
    end.

Definition H5FD_gds_read (fuel : nat) (file : H5FD_gds_t) (w : World)
  (addr size_ buf : Z) : outcome (herr_t * H5FD_gds_t * World) :=
  match read_body fuel file w addr size_ buf with
  | Returned (ret_value, file1, w1) =>
      Returned (ret_value, done_io ret_value file1, w1)
  | Aborted => Aborted
  | OutOfFuel => OutOfFuel
  end.

(** [H5FD_gds_write] up to the label [done]. *)
Definition write_body (fuel : nat) (file : H5FD_gds_t) (w : World)
  (addr size_ buf : Z) : outcome (herr_t * H5FD_gds_t * World) :=
  let offset := s64 addr in
  if buf =? NULL then Aborted
  else if negb (H5F_addr_defined addr) then Returned (FAIL, file, w)
  else if REGION_OVERFLOW addr size_ then Returned (FAIL, file, w)
  else if negb (is_device_pointer w buf =? 0) then
    let '(status, w1) := cuFileBufRegister w buf size_ 0 in
    if negb (status =? CU_FILE_SUCCESS) then Returned (NULL, file, w1)
    else
      match device_transfer (write_thread_fn fuel) cuFileWrite file w1 offset
              size_ buf with
      | Returned w2 =>
          let '(status, w3) := cuFileBufDeregister w2 buf in
          if negb (status =? CU_FILE_SUCCESS) then Returned (NULL, file, w3)
          else Returned (SUCCEED, file, w3)
      | Aborted => Aborted
      | OutOfFuel => OutOfFuel
      end
  else
    match write_loop fuel file w addr size_ buf offset with
    | Returned (Goto_done r, w1) => Returned (r, file, w1)
    | Returned (Fell_through addr1, w1) =>
        let file1 := set_pos_op file addr1 OP_WRITE in
        let file2 :=
          if pos file1 >? eof file1 then set_eof_field file1 (pos file1)
          else file1 in
        Returned (SUCCEED, file2, w1)
    | Aborted => Aborted
    | OutOfFuel => OutOfFuel
    end.

Definition H5FD_gds_write (fuel : nat) (file : H5FD_gds_t) (w : World)
  (addr size_ buf : Z) : outcome (herr_t * H5FD_gds_t * World) :=
  match write_body fuel file w addr size_ buf with
  | Returned (ret_value, file1, w1) =>
      Returned (ret_value, done_io ret_value file1, w1)
  | Aborted => Aborted
  | OutOfFuel => OutOfFuel
  end.

Definition H5FD_gds_truncate (file : H5FD_gds_t) (w : World)
  : herr_t * H5FD_gds_t * World :=
  if negb (H5F_addr_eq (eoa file) (eof file)) then
    let '(r, w1) := HDftruncate w (fd file) (s64 (eoa file)) in
    if -1 =? r then (FAIL, file, w1)
    else
      (SUCCEED,
       set_pos_op (set_eof_field file (eoa file)) HADDR_UNDEF OP_UNKNOWN, w1)
  else (SUCCEED, file, w).

End Driver.

(** A request in either direction, to state what holds of both. *)
Inductive io_direction : Type := io_read | io_write.

Definition H5FD_gds_io (d : io_direction) (max_io : Z) (fuel : nat)
  (file : H5FD_gds_t) (w : World) (addr size_ buf : Z)
  : outcome (herr_t * H5FD_gds_t * World) :=
  match d with
  | io_read => H5FD_gds_read max_io fuel file w addr size_ buf
  | io_write => H5FD_gds_write max_io fuel file w addr size_ buf
  end.

Definition op_of (d : io_direction) : H5FD_file_op_t :=
  match d with
  | io_read => OP_READ
  | io_write => OP_WRITE
  end.

(** ** Concrete platforms, worlds and handles *)

(** [H5_POSIX_MAX_IO_BYTES] where [ssize_t] bounds a transfer. *)
Definition SSIZET_MAX : Z := 2 ^ 63 - 1.

Definition no_attributes : cudaPointerAttributes := mk_attr NULL NULL.

(** A CUDA runtime with unified addressing in which the addresses from
    [2^40] on are device memory; every query succeeds. *)
Definition uva_runtime (ptr : Z) (a : cudaPointerAttributes)
  : Z * cudaPointerAttributes :=
  if ptr >=? 2 ^ 40 then (cudaSuccess, mk_attr ptr NULL)
  else (cudaSuccess, mk_attr NULL ptr).

(** A CUDA runtime whose query fails with [cudaErrorInvalidValue] and
    leaves the attributes structure as it found it. *)
Definition failing_runtime (ptr : Z) (a : cudaPointerAttributes)
  : Z * cudaPointerAttributes :=
  (1, a).

(** An empty file, zeroed memory, nothing scheduled to fail. *)
Definition quiet_world : World :=
  mk_world (fun _ => x00) 0 (fun _ => x00) uva_runtime no_attributes
    [] 0 false [].

(** The handle as [H5FD_gds_open] leaves it on an empty file, with the
    two scratch arrays allocated. *)
Definition fresh_file (io_threads block : Z) : H5FD_gds_t :=
  mk_file 3 4 7 io_threads block 12288 16384 0 0 HADDR_UNDEF OP_UNKNOWN
    0 0 false.

Definition device_buf : Z := 2 ^ 40.
Definition host_buf : Z := 4096.

(** The bytes of memory at [buf], [n] of them. *)
Definition bytes_at (w : World) (buf : Z) (n : nat) : list byte :=
  map (fun i => mem w (buf + Z.of_nat i)) (seq 0 n).

Definition ten_bytes : list byte :=
  [x61; x62; x63; x64; x65; x66; x67; x68; x69; x6a].

(** Memory holding [l] at [buf] and zero elsewhere. *)
Definition mem_with (buf : Z) (l : list byte) : Z -> byte :=
  fun p => if in_range buf (Z.of_nat (length l)) p
           then nth (Z.to_nat (p - buf)) l x00 else x00.

(** A world whose pointer query fails and whose attributes structure
    starts out with whatever the stack held. *)
Definition query_error_world : World :=
  mk_world (fun _ => x00) 0 (fun _ => x00) failing_runtime
    (mk_attr 3735928559 0) [] 0 false [].

(** A world in which the driver closes and the next close of a
    descriptor fails. *)
Definition direct_close_fails_world : World :=
  set_script quiet_world [Normal; Error 5].

(** A world whose next fallible primitive call fails. *)
Definition failing_world : World := set_script quiet_world [Error 5].

(** A world in which the third fallible primitive call fails. *)
Definition third_call_fails_world : World :=
  set_script quiet_world [Normal; Normal; Error 5].

(** The frees between the two closes of the descriptors: each scratch
    array is freed unless its pointer is null. *)
Definition close_frees (f : H5FD_gds_t) : list Call :=
  (if td f =? NULL then [] else [call_free_td]) ++
  (if threads f =? NULL then [] else [call_free_threads]).

(** The calls that open a close: the deregistration of the handle and,
    unless the driver is closed already, a driver close that succeeds. *)
Definition close_prologue (f : H5FD_gds_t) (w : World) : list Call :=
  call_cuFileHandleDeregister (cf_handle f) ::
  (if cu_file_driver_closed w then []
   else [call_cuFileDriverClose CU_FILE_SUCCESS]).

(** A world whose file holds [ten_bytes]. *)
Definition ten_byte_file_world : World :=
  mk_world (fun a => nth (Z.to_nat a) ten_bytes x00) 10 (fun _ => x00)
    uva_runtime no_attributes [] 0 false [].

(** ** Vocabulary of the statements *)

(** A scheduled outcome that does not fail a fallback transfer: a normal
    call, a short transfer, or an interruption, which is retried. *)
Definition benign (r : sysres) : bool :=
  match r with
  | Error e => Z.pos e =? EINTR
  | _ => true
  end.

Definition same_runtime (w w' : World) : Prop :=
  cuda_runtime w' = cuda_runtime w /\ stack_garbage w' = stack_garbage w.

Definition same_file (w w' : World) : Prop :=
  fsize w' = fsize w /\ fdata w' = fdata w.

(** A sub-read of the fallback path that returned zero bytes. *)
Definition zero_byte_read (c : Call) : bool :=
  match c with
  | call_pread _ _ _ _ ret => ret =? 0
  | _ => false
  end.




(** The bytes that the positioned reads and writes of a call log have
    moved: the sum of their positive results. *)
Definition bytes_transferred (l : list Call) : Z :=
  fold_right
    (fun c acc =>
       match c with
       | call_pread _ _ _ _ ret => Z.max 0 ret + acc
       | call_pwrite _ _ _ _ ret => Z.max 0 ret + acc
       | _ => acc
       end) 0 l.

(** ** The partition in the words of the specification *)

(** Worker [i] of [n]: file offset [startOffset + i*base], device offset
    [i*base], length [base], the last worker's length [base + remainder],
    where [base = totalSize / n] and [remainder = totalSize % n]. *)
Definition spec_chunk (buf cfh startOffset totalSize n blockSize i : Z)
  : thread_data_t :=
  mk_td buf cfh
    (startOffset + i * (totalSize / n))
    (i * (totalSize / n))
    blockSize
    (if i =? n - 1 then totalSize / n + totalSize mod n else totalSize / n).

(** The indices [first], [first + 1], ..., [count] of them. *)
Definition indices (first : Z) (count : nat) : list Z :=
  map Z.of_nat (seq (Z.to_nat first) count).

Definition spec_partition
  (buf cfh startOffset totalSize threadCount blockSize : Z)
  : list thread_data_t :=
  let n := Z.min threadCount (1 + (totalSize - 1) / 4096) in
  map (spec_chunk buf cfh startOffset totalSize n blockSize)
    (indices 0 (Z.to_nat n)).

(** A world whose device memory holds [ten_bytes] at [device_buf]. *)
Definition loaded_world : World :=
  set_mem quiet_world (mem_with device_buf ten_bytes).

(** A second device buffer. *)
Definition device_buf2 : Z := 2 ^ 41.

(** What a write followed by a read of the same range gives: the two
    return values, the bytes read back and the calls of the write. *)
Definition write_then_read (max_io : Z) (fuel : nat) (f : H5FD_gds_t)
  (w : World) (A S src dst : Z)
  : option (herr_t * herr_t * list byte * list Call) :=
  match H5FD_gds_write max_io fuel f w A S src with
  | Returned (r1, f1, w1) =>
      match H5FD_gds_read max_io fuel f1 w1 A S dst with
      | Returned (r2, _, w2) =>
          Some (r1, r2, bytes_at w2 dst (Z.to_nat S),
                skipn (length (calls w)) (calls w1))
      | _ => None
      end
  | _ => None
  end.



(** The physical end of a handle is a file size: a defined address that
    the file-offset type can hold. *)
Definition eof_is_size (f : H5FD_gds_t) : Prop := 0 <= eof f <= MAXADDR.

(** A world whose host memory holds [ten_bytes] at [host_buf]. *)
Definition host_loaded_world : World :=
  set_mem quiet_world (mem_with host_buf ten_bytes).

(** A second host buffer. *)
Definition host_buf2 : Z := 8192.

(** The example scenario of the specification, on sixteen bytes: on a
    fresh empty file set the allocated end, truncate, write ten bytes at
    address 0 and read them back.  The result is the return value of the
    truncation, the physical end after it, and the round trip. *)
Definition scenario (w : World) (src dst : Z)
  : herr_t * haddr_t * option (herr_t * herr_t * list byte * list Call) :=
  let '(_, f1) := H5FD_gds_set_eoa (fresh_file 0 0) 16 in
  let '(r, f2, w1) := H5FD_gds_truncate H5F_addr_eq_lib f1 w in
  (r, H5FD_gds_get_eof f2,
   write_then_read SSIZET_MAX 20 f2 w1 0 10 src dst).

(** The return value of a request and the primitive calls it issued. *)
Definition returned_and_issued (o : outcome (herr_t * H5FD_gds_t * World))
  : option (herr_t * list Call) :=
  match o with
  | Returned (r, _, w) => Some (r, calls w)
  | _ => None
  end.

(** ** Vocabulary of the statements about the calls of a request *)

(** The entries cover the file addresses from [from] up to [to] in
    order, without a gap or an overlap, each with bytes to move. *)
Fixpoint tiles (from : Z) (tds : list thread_data_t) (to : Z) : Prop :=
  match tds with
  | [] => from = to
  | td :: rest =>
      td_offset td = from /\ 0 < td_size td /\
      tiles (from + td_size td) rest to
  end.


(** A cuFile read (for a read request) or write (for a write request)
    through the handle [h] on the registered buffer [buf] that asks for
    at most [bound] bytes. *)
Definition transfer_call (d : io_direction) (h buf bound : Z) (c : Call)
  : bool :=
  match d, c with
  | io_read, call_cuFileRead h' b n _ _ _ =>
      (h' =? h) && (b =? buf) && (n <=? bound)
  | io_write, call_cuFileWrite h' b n _ _ _ =>
      (h' =? h) && (b =? buf) && (n <=? bound)
  | _, _ => false
  end.

(** The most that one transfer of an accelerator-direct request asks
    for: the block size as the workers see it, or the whole request when
    there are no workers. *)
Definition transfer_bound (f : H5FD_gds_t) (size_ : Z) : Z :=
  if num_io_threads f >? 0 then u64 (s32 (io_block_size f)) else size_.

(** The world after closing the handles of a list one after the other,
    whatever each close returns. *)
Fixpoint close_all (fs : list H5FD_gds_t) (w : World) : World :=
  match fs with
  | [] => w
  | f :: rest => close_all rest (snd (H5FD_gds_close f w))
  end.

(** A close of the cuFile driver that succeeded. *)
Definition driver_close_done (c : Call) : bool :=
  match c with
  | call_cuFileDriverClose status => status =? CU_FILE_SUCCESS
  | _ => false
  end.


(** ** Comparison and capabilities *)

(** [H5FD_gds_cmp], where [dev_t] is a scalar ([H5_DEV_T_IS_SCALAR]):
    [HGOTO_DONE(v)] assigns [v] to [ret_value], which starts as 0, and
    jumps to [done]. *)
Definition H5FD_gds_cmp (f1 f2 : H5FD_gds_t) : Z :=
  let ret_value := 0 in
  if device f1 <? device f2 then -1
  else if device f1 >? device f2 then 1
  else if inode f1 <? inode f2 then -1
  else if inode f1 >? inode f2 then 1
  else ret_value.

Section Query.

(** The feature flags of H5FDpublic.h, which is not under src/. *)
Variables
  (H5FD_FEAT_AGGREGATE_METADATA H5FD_FEAT_ACCUMULATE_METADATA
   H5FD_FEAT_AGGREGATE_SMALLDATA H5FD_FEAT_POSIX_COMPAT_HANDLE
   H5FD_FEAT_SUPPORTS_SWMR_IO H5FD_FEAT_DEFAULT_VFD_COMPATIBLE
   H5FD_FEAT_IGNORE_DRVRINFO : Z).


End Query.


(** ** Opening a file *)

(** The open flags of <fcntl.h> and two error codes, as Linux on x86-64
    numbers them. *)
Definition O_RDONLY : Z := 0.
Definition O_RDWR : Z := 2.
Definition O_CREAT : Z := 64.
Definition O_EXCL : Z := 128.
Definition O_TRUNC : Z := 512.
Definition O_DIRECT : Z := 16384.
Definition ENOENT : Z := 2.
Definition EEXIST : Z := 17.

(** The file access property list as [H5FD_gds_open] sees it, through
    [H5Pget], [H5I_object], [H5P_exist_plist] and [H5P_get], none of
    which is under src/: whether the identifier is
    [H5P_FILE_ACCESS_DEFAULT]; what [H5Pget] stores for the two
    properties of the driver, if it stores anything; whether
    [H5I_object] finds a list; and the family-to-single property, which
    may be absent ([None]), unreadable ([Some None]) or set. *)
Record fapl_t : Type := mk_fapl {
  is_default : bool;
  io_threads_property : option Z;
  io_block_size_property : option Z;
  plist_object : bool;
  family_to_single_property : option (option bool)
}.

(** What [HDfstat] reports. *)
Record h5_stat_t : Type := mk_stat {
  st_size : Z;
  st_dev : Z;
  st_ino : Z
}.

(** The calls of [H5FD_gds_open] that acquire something, as they are
    issued. *)
Inductive OpenCall : Type :=
| call_cuFileDriverOpen (status : Z)
| call_open (o_flags ret : Z)
| call_fstat (fd_ ret : Z)
| call_H5FL_CALLOC (allocated : bool)
| call_cuFileHandleRegister (fd_ status : Z)
| call_malloc_td (ret : Z)
| call_malloc_threads (ret : Z).

(** The world as an open sees it: the [World] of the requests, whose
    file is the file at the path; the flag [cu_file_driver_opened], which
    is static in [H5FD_gds_open]; whether the path leads to a file, and
    the device and the i-node of that file; the descriptor and the cuFile
    handle that are handed out next; the addresses that the next
    allocations return; and the calls issued. *)
Record Host : Type := mk_host {
  world : World;
  cu_file_driver_opened : bool;
  path_exists : bool;
  path_dev : Z;
  path_ino : Z;
  next_fd : Z;
  next_handle : Z;
  heap : list Z;
  open_calls : list OpenCall
}.

Definition set_world (h : Host) (w : World) : Host :=
  mk_host w (cu_file_driver_opened h) (path_exists h) (path_dev h)
    (path_ino h) (next_fd h) (next_handle h) (heap h) (open_calls h).

Definition set_driver_opened (h : Host) (b : bool) : Host :=
  mk_host (world h) b (path_exists h) (path_dev h) (path_ino h) (next_fd h)
    (next_handle h) (heap h) (open_calls h).

Definition log_open (h : Host) (c : OpenCall) : Host :=
  mk_host (world h) (cu_file_driver_opened h) (path_exists h) (path_dev h)
    (path_ino h) (next_fd h) (next_handle h) (heap h) (open_calls h ++ [c]).

(** [HDmalloc]: the next address of the heap, or the null pointer when
    the heap has none left. *)
Definition HDmalloc (h : Host) : Z * Host :=
  match heap h with
  | [] => (NULL, h)
  | a :: rest =>
      (a, mk_host (world h) (cu_file_driver_opened h) (path_exists h)
            (path_dev h) (path_ino h) (next_fd h) (next_handle h) rest
            (open_calls h))
  end.

Definition cuFileDriverOpen (h : Host) : Z * Host :=
  let '(r, w1) := next_outcome (world h) in
  (status_of r, log_open (set_world h w1) (call_cuFileDriverOpen (status_of r))).

(** [open(2)] on the path: it fails on a scheduled error, on a missing
    file without [O_CREAT] and on an existing file with [O_CREAT |
    O_EXCL]; it creates a missing file empty, empties an existing one on
    [O_TRUNC], and hands out the next descriptor. *)
Definition HDopen (h : Host) (o_flags : Z) : Z * Host :=
  let '(r, w1) := next_outcome (world h) in
  let creat := negb (Z.land o_flags O_CREAT =? 0) in
  let excl := negb (Z.land o_flags O_EXCL =? 0) in
  let trunc := negb (Z.land o_flags O_TRUNC =? 0) in
  match r with
  | Error e =>
      (-1, log_open (set_world h (set_errno w1 (Z.pos e)))
             (call_open o_flags (-1)))
  | _ =>
      if negb (path_exists h) && negb creat
      then (-1, log_open (set_world h (set_errno w1 ENOENT))
                  (call_open o_flags (-1)))
      else if path_exists h && creat && excl
      then (-1, log_open (set_world h (set_errno w1 EEXIST))
                  (call_open o_flags (-1)))
      else
        let w2 :=
          if negb (path_exists h) || trunc
          then set_file w1 (fun _ => x00) 0 else w1 in
        (next_fd h,
         mk_host w2 (cu_file_driver_opened h) true (path_dev h) (path_ino h)
           (next_fd h + 1) (next_handle h) (heap h)
           (open_calls h ++ [call_open o_flags (next_fd h)]))
  end.

Definition HDfstat (h : Host) (fd_ : Z) : Z * h5_stat_t * Host :=
  let '(r, w1) := next_outcome (world h) in
  match r with
  | Error e =>
      (-1, mk_stat 0 0 0,
       log_open (set_world h (set_errno w1 (Z.pos e))) (call_fstat fd_ (-1)))
  | _ =>
      (0, mk_stat (fsize w1) (path_dev h) (path_ino h),
       log_open (set_world h w1) (call_fstat fd_ 0))
  end.

(** A handle of zero bytes. *)
Definition zeroed_file : H5FD_gds_t :=
  mk_file 0 0 0 0 0 NULL NULL 0 0 0 OP_UNKNOWN 0 0 false.

(** [H5FL_CALLOC(H5FD_gds_t)]: no handle, or a handle of zero bytes. *)
Definition H5FL_CALLOC (h : Host) : option H5FD_gds_t * Host :=
  let '(r, w1) := next_outcome (world h) in
  match r with
  | Error _ => (None, log_open (set_world h w1) (call_H5FL_CALLOC false))
  | _ => (Some zeroed_file, log_open (set_world h w1) (call_H5FL_CALLOC true))
  end.

(** [cuFileHandleRegister] for a descriptor: the status and the handle
    stored, if any. *)
Definition cuFileHandleRegister (h : Host) (fd_ : Z) : Z * option Z * Host :=
  let '(r, w1) := next_outcome (world h) in
  match r with
  | Error e =>
      (Z.pos e, None,
       log_open (set_world h w1) (call_cuFileHandleRegister fd_ (Z.pos e)))
  | _ =>
      (CU_FILE_SUCCESS, Some (next_handle h),
       mk_host w1 (cu_file_driver_opened h) (path_exists h) (path_dev h)
         (path_ino h) (next_fd h) (next_handle h + 1) (heap h)
         (open_calls h ++ [call_cuFileHandleRegister fd_ CU_FILE_SUCCESS]))
  end.

Definition set_fd (f : H5FD_gds_t) (v : Z) : H5FD_gds_t :=
  mk_file v (direct_fd f) (cf_handle f) (num_io_threads f) (io_block_size f)
    (threads f) (td f) (eoa f) (eof f) (pos f) (op f) (device f) (inode f)
    (fam_to_single f).

Definition set_direct_fd (f : H5FD_gds_t) (v : Z) : H5FD_gds_t :=
  mk_file (fd f) v (cf_handle f) (num_io_threads f) (io_block_size f)
    (threads f) (td f) (eoa f) (eof f) (pos f) (op f) (device f) (inode f)
    (fam_to_single f).

Definition set_cf_handle (f : H5FD_gds_t) (v : Z) : H5FD_gds_t :=
  mk_file (fd f) (direct_fd f) v (num_io_threads f) (io_block_size f)
    (threads f) (td f) (eoa f) (eof f) (pos f) (op f) (device f) (inode f)
    (fam_to_single f).

Definition set_num_io_threads (f : H5FD_gds_t) (v : Z) : H5FD_gds_t :=
  mk_file (fd f) (direct_fd f) (cf_handle f) v (io_block_size f)
    (threads f) (td f) (eoa f) (eof f) (pos f) (op f) (device f) (inode f)
    (fam_to_single f).

Definition set_io_block_size (f : H5FD_gds_t) (v : Z) : H5FD_gds_t :=
  mk_file (fd f) (direct_fd f) (cf_handle f) (num_io_threads f) v
    (threads f) (td f) (eoa f) (eof f) (pos f) (op f) (device f) (inode f)
    (fam_to_single f).

Definition set_threads (f : H5FD_gds_t) (v : Z) : H5FD_gds_t :=
  mk_file (fd f) (direct_fd f) (cf_handle f) (num_io_threads f)
    (io_block_size f) v (td f) (eoa f) (eof f) (pos f) (op f) (device f)
    (inode f) (fam_to_single f).

Definition set_td (f : H5FD_gds_t) (v : Z) : H5FD_gds_t :=
  mk_file (fd f) (direct_fd f) (cf_handle f) (num_io_threads f)
    (io_block_size f) (threads f) v (eoa f) (eof f) (pos f) (op f) (device f)
    (inode f) (fam_to_single f).

Definition set_device_inode (f : H5FD_gds_t) (d i : Z) : H5FD_gds_t :=
  mk_file (fd f) (direct_fd f) (cf_handle f) (num_io_threads f)
    (io_block_size f) (threads f) (td f) (eoa f) (eof f) (pos f) (op f) d i
    (fam_to_single f).

Definition set_fam_to_single (f : H5FD_gds_t) (b : bool) : H5FD_gds_t :=
  mk_file (fd f) (direct_fd f) (cf_handle f) (num_io_threads f)
    (io_block_size f) (threads f) (td f) (eoa f) (eof f) (pos f) (op f)
    (device f) (inode f) b.

(** The [done:] block of [H5FD_gds_open], for a handle that has been
    allocated or not and the two descriptors as they are then. *)
Definition done_open (ret_value : option H5FD_gds_t) (file : bool)
  (fd_ direct_fd_ : Z) (h : Host) : option H5FD_gds_t * Host :=
  match ret_value with
  | None =>
      let w1 :=
        if direct_fd_ >=? 0 then snd (HDclose (world h) direct_fd_)
        else world h in
      let w2 := if fd_ >=? 0 then snd (HDclose w1 fd_) else w1 in
      let w3 := if file then log w2 call_H5FL_FREE else w2 in
      (None, set_world h w3)
  | Some _ => (ret_value, h)
  end.

Section Open.

(** The access flags of H5Fpublic.h, which is not under src/. *)
Variables (H5F_ACC_RDWR H5F_ACC_TRUNC H5F_ACC_CREAT H5F_ACC_EXCL : Z).

(** [H5FD_gds_open] from the check of the arguments on, once the
    cuFile driver is open.  The name is a null pointer ([None]) or the
    characters before the terminating zero; the result is the handle, or
    [None] for [NULL]. *)
Definition open_file (name : option (list byte)) (flags : Z)
  (fapl : fapl_t) (maxaddr : haddr_t) (h : Host)
  : option H5FD_gds_t * Host :=
  let fd_ := -1 in
  let direct_fd_ := -1 in
  if match name with None => true | Some [] => true | Some _ => false end
  then done_open None false fd_ direct_fd_ h
  else if (0 =? maxaddr) || (HADDR_UNDEF =? maxaddr)
  then done_open None false fd_ direct_fd_ h
  else if ADDR_OVERFLOW maxaddr then done_open None false fd_ direct_fd_ h
  else
    let o_flags :=
      if negb (Z.land H5F_ACC_RDWR flags =? 0) then O_RDWR else O_RDONLY in
    let o_flags :=
      if negb (Z.land H5F_ACC_TRUNC flags =? 0) then Z.lor o_flags O_TRUNC
      else o_flags in
    let o_flags :=
      if negb (Z.land H5F_ACC_CREAT flags =? 0) then Z.lor o_flags O_CREAT
      else o_flags in
    let o_flags :=
      if negb (Z.land H5F_ACC_EXCL flags =? 0) then Z.lor o_flags O_EXCL
      else o_flags in
    let '(fd_, h) := HDopen h o_flags in
    if fd_ <? 0 then done_open None false fd_ direct_fd_ h
    else
      let '(r, sb, h) := HDfstat h fd_ in
      if r <? 0 then done_open None false fd_ direct_fd_ h
      else
        let '(file, h) := H5FL_CALLOC h in
        match file with
        | None => done_open None false fd_ direct_fd_ h
        | Some file =>
            let file := set_fd file fd_ in
            let o_flags :=
              if negb (Z.land H5F_ACC_RDWR flags =? 0) then O_RDWR
              else O_RDONLY in
            let o_flags := Z.lor o_flags O_DIRECT in
            let '(direct_fd_, h) := HDopen h o_flags in
            if direct_fd_ <? 0 then done_open None true fd_ direct_fd_ h
            else
              let file := set_direct_fd file direct_fd_ in
              let '(status, handle, h) :=
                cuFileHandleRegister h (direct_fd file) in
              if negb (status =? CU_FILE_SUCCESS)
              then done_open None true fd_ direct_fd_ h
              else
                let file :=
                  match handle with
                  | Some v => set_cf_handle file v
                  | None => file
                  end in
                let file :=
                  match io_threads_property fapl with
                  | Some v => set_num_io_threads file v
                  | None => file
                  end in
                let file :=
                  match io_block_size_property fapl with
                  | Some v => set_io_block_size file v
                  | None => file
                  end in
                let '(p, h) := HDmalloc h in
                let file := set_td file p in
                let h := log_open h (call_malloc_td p) in
                let '(p, h) := HDmalloc h in
                let file := set_threads file p in
                let h := log_open h (call_malloc_threads p) in
                let file := set_eof_field file (u64 (st_size sb)) in
                let file := set_pos_op file HADDR_UNDEF OP_UNKNOWN in
                let file := set_device_inode file (st_dev sb) (st_ino sb) in
                if negb (is_default fapl) then
                  if negb (plist_object fapl)
                  then done_open None true fd_ direct_fd_ h
                  else
                    match family_to_single_property fapl with
                    | Some (Some b) =>
                        done_open (Some (set_fam_to_single file b)) true
                          fd_ direct_fd_ h
                    | Some None => done_open None true fd_ direct_fd_ h
                    | None => done_open (Some file) true fd_ direct_fd_ h
                    end
                else done_open (Some file) true fd_ direct_fd_ h
        end.

(** [H5FD_gds_open]: the cuFile driver is opened first, unless the
    static flag says that it is open, and then the arguments are
    checked and the file is opened. *)
Definition H5FD_gds_open (name : option (list byte)) (flags : Z)
  (fapl : fapl_t) (maxaddr : haddr_t) (h : Host)
  : option H5FD_gds_t * Host :=
  let '(opened, h) :=
    if negb (cu_file_driver_opened h) then
      let '(status, h1) := cuFileDriverOpen h in
      if status =? CU_FILE_SUCCESS then (true, set_driver_opened h1 true)
      else (false, h1)
    else (true, h) in
  if negb opened then done_open None false (-1) (-1) h
  else open_file name flags fapl maxaddr h.

End Open.

(** *** Vocabulary of the statements about opening *)

(** The descriptors that the opens of a log handed out. *)
Definition opened_fds (l : list OpenCall) : list Z :=
  flat_map (fun c => match c with
                     | call_open _ ret => if ret >=? 0 then [ret] else []
                     | _ => []
                     end) l.

(** The descriptors that the closes of a log were asked to close. *)
Definition closed_fds (l : list Call) : list Z :=
  flat_map (fun c => match c with
                     | call_close fd_ _ => [fd_]
                     | _ => []
                     end) l.

Definition is_driver_open (c : OpenCall) : bool :=
  match c with
  | call_cuFileDriverOpen _ => true
  | _ => false
  end.

Definition is_allocation (c : OpenCall) : bool :=
  match c with
  | call_H5FL_CALLOC allocated => allocated
  | _ => false
  end.

Definition is_H5FL_FREE (c : Call) : bool :=
  match c with
  | call_H5FL_FREE => true
  | _ => false
  end.

Definition close_or_free (c : Call) : bool :=
  match c with
  | call_close _ _ => true
  | call_H5FL_FREE => true
  | _ => false
  end.

(** A host on which nothing is open and nothing is scheduled to fail,
    with an empty file at the path. *)
Definition quiet_host : Host :=
  mk_host quiet_world false true 0 0 3 7 [16384; 12288] [].

(** A property list that sets the two properties of the driver. *)
Definition gds_fapl (threads block : Z) : fapl_t :=
  mk_fapl false (Some threads) (Some block) true None.

(** A file name. *)
Definition some_name : option (list byte) := Some [x66; x2e; x68; x35].

(** What every step of an open keeps: the calls logged in the world,
    the two driver flags, and the identity of the file at the path. *)
Definition open_frame (h h' : Host) : Prop :=
  calls (world h') = calls (world h) /\
  cu_file_driver_closed (world h') = cu_file_driver_closed (world h) /\
  cu_file_driver_opened h' = cu_file_driver_opened h /\
  path_dev h' = path_dev h /\ path_ino h' = path_ino h.

(** What the steps other than [open(2)] keep as well: the file at the
    path and the next descriptor. *)
Definition file_frame (h h' : Host) : Prop :=
  same_file (world h) (world h') /\ path_exists h' = path_exists h /\
  next_fd h' = next_fd h.

(** The access flags as H5Fpublic.h numbers them, for the closed
    examples. *)
Definition ACC_RDWR : Z := 1.
Definition ACC_TRUNC : Z := 2.
Definition ACC_EXCL : Z := 4.
Definition ACC_CREAT : Z := 16.

(** What an open that returns a handle has done. *)
Definition opened_as (T : Z) (name : option (list byte)) (flags : Z)
  (fapl : fapl_t) (maxaddr : haddr_t) (h : Host) (f : H5FD_gds_t) (h' : Host)
  (new_opens : list OpenCall) : Prop :=
  cu_file_driver_opened h' = true /\
  opened_fds new_opens = [fd f; direct_fd f] /\
  fd f = next_fd h /\ direct_fd f = next_fd h + 1 /\
  next_fd h' = next_fd h + 2 /\ 0 <= fd f /\
  eoa f = 0 /\ eof f = u64 (fsize (world h')) /\
  pos f = HADDR_UNDEF /\ op f = OP_UNKNOWN /\
  device f = path_dev h /\ inode f = path_ino h /\
  path_exists h' = true /\
  (Z.land T flags <> 0 -> fsize (world h') = 0) /\
  (Z.land T flags = 0 -> path_exists h = true ->
   same_file (world h) (world h')) /\
  num_io_threads f = match io_threads_property fapl with
                     | Some v => v
                     | None => 0
                     end /\
  io_block_size f = match io_block_size_property fapl with
                    | Some v => v
                    | None => 0
                    end /\
  td f = hd NULL (heap h) /\ threads f = hd NULL (tl (heap h)) /\
  (exists c rest, name = Some (c :: rest)) /\
  maxaddr <> 0 /\ ADDR_OVERFLOW maxaddr = false.

(** What an open that returns [NULL] has done. *)
Definition released (new_opens : list OpenCall) (new_calls : list Call)
  : Prop :=
  closed_fds new_calls = rev (opened_fds new_opens) /\
  existsb is_H5FL_FREE new_calls = existsb is_allocation new_opens /\
  forallb close_or_free new_calls = true.

(** What an open has done, with the calls it added to the two logs. *)
Definition open_result (T : Z) (name : option (list byte)) (flags : Z)
  (fapl : fapl_t) (maxaddr : haddr_t) (h : Host) (r : option H5FD_gds_t)
  (h' : Host) (new_opens : list OpenCall) (new_calls : list Call) : Prop :=
  open_calls h' = open_calls h ++ new_opens /\
  calls (world h') = calls (world h) ++ new_calls /\
  path_dev h' = path_dev h /\ path_ino h' = path_ino h /\
  cu_file_driver_closed (world h') = cu_file_driver_closed (world h) /\
  (cu_file_driver_opened h = true ->
   cu_file_driver_opened h' = true /\
   existsb is_driver_open new_opens = false) /\
  match r with
  | None => released new_opens new_calls
  | Some f =>
      new_calls = [] /\ opened_as T name flags fapl maxaddr h f h' new_opens
  end.

(** * Verification *)

(** ** Integer conversions *)

Lemma u64_small x : 0 <= x < 2 ^ 64 -> u64 x = x.
Proof. intros H. unfold u64. apply Z.mod_small. exact H. Qed.

Lemma s64_small x : - 2 ^ 63 <= x < 2 ^ 63 -> s64 x = x.
Proof. intros H. unfold s64. rewrite Z.mod_small; lia. Qed.

Lemma u32_small x : 0 <= x < 2 ^ 32 -> u32 x = x.
Proof. intros H. unfold u32. apply Z.mod_small. exact H. Qed.

Lemma s32_small x : - 2 ^ 31 <= x < 2 ^ 31 -> s32 x = x.
Proof. intros H. unfold s32. rewrite Z.mod_small; lia. Qed.

Lemma HADDR_UNDEF_value : HADDR_UNDEF = 2 ^ 64 - 1.
Proof. reflexivity. Qed.

Lemma MAXADDR_value : MAXADDR = 2 ^ 63 - 1.
Proof. reflexivity. Qed.

Lemma H5F_addr_eq_lib_sound x y : H5F_addr_eq_lib x y = true -> x = y.
Proof.
  unfold H5F_addr_eq_lib. intros H.
  apply andb_true_iff in H. destruct H as [_ H].
  apply Z.eqb_eq. exact H.
Qed.

Lemma H5F_addr_eq_lib_refl x : x <> HADDR_UNDEF -> H5F_addr_eq_lib x x = true.
Proof.
  intros H. unfold H5F_addr_eq_lib.
  apply andb_true_iff. split.
  - apply negb_true_iff. apply Z.eqb_neq. exact H.
  - apply Z.eqb_refl.
Qed.

(** ** The [done] block *)

Lemma done_io_failure rv f :
  rv < 0 -> pos (done_io rv f) = HADDR_UNDEF /\ op (done_io rv f) = OP_UNKNOWN.
Proof.
  intros H. unfold done_io.
  destruct (Z.ltb_spec rv 0) as [_ | Hge]; [ split; reflexivity | lia ].
Qed.

Lemma done_io_success rv f : 0 <= rv -> done_io rv f = f.
Proof.
  intros H. unfold done_io.
  destruct (Z.ltb_spec rv 0) as [Hlt | _]; [ lia | reflexivity ].
Qed.

(** C4. After a read or a write that returns failure, the cached position
    of the handle is the undefined sentinel and its last-operation tag is
    unknown. *)
Theorem failed_io_invalidates_position
  (d : io_direction) (max_io : Z) (fuel : nat) (f : H5FD_gds_t) (w : World)
  (addr size_ buf : Z) (r : herr_t) (f' : H5FD_gds_t) (w' : World) :
  H5FD_gds_io d max_io fuel f w addr size_ buf = Returned (r, f', w') ->
  r < 0 ->
  pos f' = HADDR_UNDEF /\ op f' = OP_UNKNOWN.
Proof.
  intros Hrun Hr.
  destruct d; simpl in Hrun.
  - unfold H5FD_gds_read in Hrun.
    destruct (read_body max_io fuel f w addr size_ buf)
      as [[[rv f1] w1] | | ]; try discriminate.
    injection Hrun as <- <- <-. apply done_io_failure. exact Hr.
  - unfold H5FD_gds_write in Hrun.
    destruct (write_body max_io fuel f w addr size_ buf)
      as [[[rv f1] w1] | | ]; try discriminate.
    injection Hrun as <- <- <-. apply done_io_failure. exact Hr.
Qed.

Lemma failed_io_invalidates_position_witness :
  exists f' w',
    H5FD_gds_io io_read SSIZET_MAX 1
      (set_pos_op (fresh_file 0 0) 0 OP_READ) quiet_world
      HADDR_UNDEF 1 host_buf = Returned (FAIL, f', w') /\
    FAIL < 0 /\
    pos f' = HADDR_UNDEF /\ op f' = OP_UNKNOWN.
Proof.
  eexists. eexists.
  split; [ reflexivity | ].
  split; [ unfold FAIL; lia | ].
  eapply (failed_io_invalidates_position io_read SSIZET_MAX 1
            (set_pos_op (fresh_file 0 0) 0 OP_READ) quiet_world
            HADDR_UNDEF 1 host_buf FAIL).
  - reflexivity.
  - unfold FAIL. lia.
Defined.

(** ** Truncation *)

(** C10. When eoa equals eof, truncate does nothing and returns success:
    no primitive is called and every field of the handle, [eof], [pos] and
    [op] among them, stays as it was.  The address comparison of the
    library decides the equality of a defined address with itself; [eof]
    is a file size, so the common value is not the undefined sentinel. *)
Theorem truncate_noop_when_eoa_is_eof
  (H5F_addr_eq : haddr_t -> haddr_t -> bool)
  (H5F_addr_eq_refl : forall x, x <> HADDR_UNDEF -> H5F_addr_eq x x = true)
  (f : H5FD_gds_t) (w : World) :
  eoa f = eof f ->
  eoa f <> HADDR_UNDEF ->
  H5FD_gds_truncate H5F_addr_eq f w = (SUCCEED, f, w).
Proof.
  intros Heq Hdef. unfold H5FD_gds_truncate.
  rewrite <- Heq. rewrite (H5F_addr_eq_refl _ Hdef). reflexivity.
Qed.

Lemma truncate_noop_when_eoa_is_eof_witness :
  let f := set_pos_op (set_eof_field (set_eoa_field (fresh_file 0 0) 4096) 4096)
             4096 OP_WRITE in
  eoa f = eof f /\ eoa f <> HADDR_UNDEF /\
  H5FD_gds_truncate H5F_addr_eq_lib f quiet_world = (SUCCEED, f, quiet_world).
Proof.
  intros f.
  split; [ reflexivity | ].
  split; [ vm_compute; discriminate | ].
  apply (truncate_noop_when_eoa_is_eof H5F_addr_eq_lib H5F_addr_eq_lib_refl
           f quiet_world).
  - reflexivity.
  - vm_compute. discriminate.
Defined.

Lemma s64_nonneg v : 0 <= v < 2 ^ 64 -> 0 <= s64 v -> s64 v = v.
Proof.
  intros Hv Hs. unfold s64 in *.
  destruct (Z_lt_ge_dec v (2 ^ 63)) as [Hlt | Hge].
  - rewrite Z.mod_small; lia.
  - exfalso.
    replace (v + 2 ^ 63) with (v - 2 ^ 63 + 1 * 2 ^ 64) in Hs by lia.
    rewrite Z.mod_add in Hs by lia.
    rewrite Z.mod_small in Hs; lia.
Qed.

Lemma file_byte_resized w a len :
  file_byte (set_file w (file_byte w) len) a =
  if a <? len then file_byte w a else x00.
Proof.
  unfold file_byte at 1. simpl.
  destruct (Z.leb_spec 0 a) as [Ha | Ha];
    destruct (Z.ltb_spec a len) as [Hal | Hal]; simpl; try reflexivity.
  unfold file_byte.
  destruct (Z.leb_spec 0 a) as [Ha' | _]; [ lia | reflexivity ].
Qed.

(** [ftruncate] fails, or gives the file the length asked for. *)
Lemma HDftruncate_spec w fd_ len r w' :
  HDftruncate w fd_ len = (r, w') ->
  r = -1 \/
  (r = 0 /\ 0 <= len /\ fsize w' = len /\
   (forall a, file_byte w' a = if a <? len then file_byte w a else x00) /\
   calls w' = calls w ++ [call_ftruncate fd_ len 0]).
Proof.
  unfold HDftruncate, next_outcome. intros H.
  destruct (script w) as [ | [ | e | n ] rest ]; simpl in H;
    try (injection H as <- <-; left; reflexivity);
    destruct (Z.ltb_spec len 0) as [Hneg | Hpos];
    injection H as <- <-;
    try (left; reflexivity);
    right; simpl;
    (split; [ reflexivity | ]); (split; [ exact Hpos | ]);
    (split; [ reflexivity | ]); (split; [ | reflexivity ]);
    intros a;
    first [ apply file_byte_resized
          | exact (file_byte_resized (set_script w rest) a len) ].
Qed.

(** C6. Setting the allocated end to [v] and then truncating with success
    makes the physical end [v] (and eof = eoa = v), whether the file grows
    or shrinks; when [v] differs from eof the truncation resizes the file
    to exactly [v] bytes with one [ftruncate] call (the bytes kept are
    unchanged, the bytes gained are zero) and invalidates [pos] and
    [op]. *)
Theorem set_eoa_then_truncate
  (H5F_addr_eq : haddr_t -> haddr_t -> bool)
  (H5F_addr_eq_sound : forall x y, H5F_addr_eq x y = true -> x = y)
  (f : H5FD_gds_t) (w : World) (v : haddr_t)
  (r : herr_t) (f' : H5FD_gds_t) (w' : World) :
  0 <= v < 2 ^ 64 ->
  H5FD_gds_truncate H5F_addr_eq (snd (H5FD_gds_set_eoa f v)) w = (r, f', w') ->
  0 <= r ->
  H5FD_gds_get_eof f' = v /\ H5FD_gds_get_eoa f' = v /\
  (v <> eof f ->
   fsize w' = v /\
   (forall a, file_byte w' a = if a <? v then file_byte w a else x00) /\
   calls w' = calls w ++ [call_ftruncate (fd f) v 0] /\
   pos f' = HADDR_UNDEF /\ op f' = OP_UNKNOWN).
Proof.
  intros Hv Hrun Hr.
  unfold H5FD_gds_truncate, H5FD_gds_set_eoa in Hrun. simpl in Hrun.
  destruct (H5F_addr_eq v (eof f)) eqn:Heq; simpl in Hrun.
  - apply H5F_addr_eq_sound in Heq.
    injection Hrun as <- <- <-. simpl.
    split; [ symmetry; exact Heq | ].
    split; [ reflexivity | ].
    intros Hne. contradiction.
  - destruct (HDftruncate w (fd f) (s64 v)) as [r1 w1] eqn:Htr.
    apply HDftruncate_spec in Htr.
    destruct Htr as [-> | (-> & Hlen & Hsize & Hbytes & Hcalls)].
    + simpl in Hrun. injection Hrun as <- <- <-. unfold FAIL in Hr. lia.
    + simpl in Hrun. injection Hrun as <- <- <-.
      rewrite (s64_nonneg v Hv Hlen) in *. simpl.
      repeat split; try reflexivity; assumption.
Qed.

Lemma set_eoa_then_truncate_witness :
  let f := set_eof_field (fresh_file 0 0) 100 in
  exists f' w',
    0 <= 4096 < 2 ^ 64 /\
    H5FD_gds_truncate H5F_addr_eq_lib (snd (H5FD_gds_set_eoa f 4096))
      quiet_world = (SUCCEED, f', w') /\
    0 <= SUCCEED /\
    H5FD_gds_get_eof f' = 4096 /\ fsize w' = 4096.
Proof.
  intros f. eexists. eexists.
  split; [ lia | ].
  split; [ reflexivity | ].
  split; [ unfold SUCCEED; lia | ].
  destruct (set_eoa_then_truncate H5F_addr_eq_lib H5F_addr_eq_lib_sound
              f quiet_world 4096 SUCCEED _ _ ltac:(lia) eq_refl
              ltac:(unfold SUCCEED; lia))
    as (Heof & _ & Hrest).
  split; [ exact Heof | ].
  apply Hrest. vm_compute. discriminate.
Defined.

(** ** Close *)

Ltac split_script H :=
  repeat (simpl in H;
          match type of H with
          | context [match ?l with [] => _ | _ :: _ => _ end] =>
              destruct l as [ | [ | ? | ? ] ? ]
          end).

(** C8, as the code has it.  Close deregisters the handle without
    looking at the outcome and then stops at the first step that fails:
    after a failed driver close, a failed close of the direct descriptor
    or a failed close of the ordinary descriptor no later step is issued
    (the ordinary descriptor is not closed, the handle is not released).
    A failed close of either descriptor is the failure of the close;
    when every step succeeds, all of them are issued, in order, and the
    close succeeds.  Between the two closes of the descriptors the
    scratch arrays are freed, each unless its pointer is null. *)
Theorem close_stops_at_first_failure
  (f : H5FD_gds_t) (w : World) (r : herr_t) (w' : World) :
  H5FD_gds_close f w = (r, w') ->
  (cu_file_driver_closed w = false /\
   exists status, status <> CU_FILE_SUCCESS /\
     calls w' = calls w ++ [call_cuFileHandleDeregister (cf_handle f);
                            call_cuFileDriverClose status]) \/
  (r = FAIL /\
   calls w' = calls w ++ close_prologue f w ++
                [call_close (direct_fd f) (-1)]) \/
  (r = FAIL /\
   calls w' = calls w ++ close_prologue f w ++
                [call_close (direct_fd f) 0] ++ close_frees f ++
                [call_close (fd f) (-1)]) \/
  (r = SUCCEED /\
   calls w' = calls w ++ close_prologue f w ++
                [call_close (direct_fd f) 0] ++ close_frees f ++
                [call_close (fd f) 0; call_H5FL_FREE]).
Proof.
  unfold H5FD_gds_close, cuFileHandleDeregister, cuFileDriverClose, HDclose,
    next_outcome, close_prologue, close_frees, HDfree_td, HDfree_threads.
  intros H.
  destruct (td f =? NULL); destruct (threads f =? NULL);
  destruct (cu_file_driver_closed w) eqn:Hclosed;
    unfold log in H; simpl in H; rewrite ?Hclosed in H;
    split_script H; simpl in H;
    injection H as <- <-; simpl; rewrite <- ?app_assoc; simpl;
    first
      [ left; split; [ reflexivity | ];
        eexists; split; [ | reflexivity ]; discriminate
      | right; left; split; reflexivity
      | right; right; left; split; reflexivity
      | right; right; right; split; reflexivity ].
Qed.

Lemma close_stops_at_first_failure_witness :
  exists w',
    H5FD_gds_close (fresh_file 0 0) direct_close_fails_world = (FAIL, w') /\
    calls w' = [call_cuFileHandleDeregister 7; call_cuFileDriverClose 0;
                call_close 4 (-1)].
Proof.
  eexists. split; [ reflexivity | ].
  destruct (close_stops_at_first_failure (fresh_file 0 0)
              direct_close_fails_world FAIL _ eq_refl)
    as [ (_ & st & _ & Hcalls) | [ (_ & Hcalls) | [ (_ & Hcalls) | (_ & Hcalls) ] ] ];
    reflexivity.
Defined.

(** A handle whose scratch arrays were never allocated: a close that
    succeeds frees neither. *)
Example close_skips_a_null_scratch_array :
  H5FD_gds_close (mk_file 3 4 7 2 4096 NULL NULL 0 0 HADDR_UNDEF OP_UNKNOWN
                    0 0 false) quiet_world
  = (SUCCEED,
     mk_world (fdata quiet_world) 0 (mem quiet_world) uva_runtime
       no_attributes [] 0 true
       [call_cuFileHandleDeregister 7; call_cuFileDriverClose 0;
        call_close 4 0; call_close 3 0; call_H5FL_FREE]).
Proof. reflexivity. Qed.

(** C8 as stated fails: when the close of the direct descriptor fails,
    the close of the ordinary descriptor and the release of the handle
    are never attempted. *)
Lemma close_abandons_teardown_after_direct_close_failure :
  fst (H5FD_gds_close (fresh_file 0 0) direct_close_fails_world) = FAIL /\
  calls (snd (H5FD_gds_close (fresh_file 0 0) direct_close_fails_world)) =
    [call_cuFileHandleDeregister (cf_handle (fresh_file 0 0));
     call_cuFileDriverClose CU_FILE_SUCCESS;
     call_close (direct_fd (fresh_file 0 0)) (-1)] /\
  ~ In call_H5FL_FREE
      (calls (snd (H5FD_gds_close (fresh_file 0 0) direct_close_fails_world))) /\
  (forall ret,
     ~ In (call_close (fd (fresh_file 0 0)) ret)
         (calls (snd (H5FD_gds_close (fresh_file 0 0)
                        direct_close_fails_world)))).
Proof.
  split; [ reflexivity | ].
  split; [ reflexivity | ].
  split.
  - simpl. intros [H | [H | [H | []]]]; discriminate H.
  - intros ret. simpl. intros [H | [H | [H | []]]]; discriminate H.
Qed.

(** ** The buffer classifier *)

(** The classifier answers from the attributes structure alone, as the
    query leaves it; the status of the query is not looked at. *)
Lemma is_device_pointer_spec w ptr :
  is_device_pointer w ptr =
  if devicePointer (snd (cudaPointerGetAttributes w (stack_garbage w) ptr))
       =? NULL
  then 0 else 1.
Proof.
  unfold is_device_pointer.
  destruct (cudaPointerGetAttributes w (stack_garbage w) ptr) as [err a].
  simpl. destruct (devicePointer a =? NULL); reflexivity.
Qed.

(** C9 at its failing input: the query reports an error for a host
    pointer and leaves the uninitialised attributes structure alone; the
    classifier reads the stale device pointer and answers "device
    resident". *)
Theorem is_device_pointer_after_query_error :
  fst (cudaPointerGetAttributes query_error_world
         (stack_garbage query_error_world) host_buf) <> cudaSuccess /\
  is_device_pointer query_error_world host_buf = 1.
Proof.
  split.
  - simpl. discriminate.
  - reflexivity.
Qed.

(** ** Registration of the buffer *)

(** C2 at its failing inputs: with a device-resident buffer, a failed
    registration (first two) or a failed deregistration (last two) makes
    the read and the write return [NULL], which is [SUCCEED]. *)
Theorem buffer_registration_failure_returns_success :
  (exists f' w',
     H5FD_gds_io io_read SSIZET_MAX 8 (fresh_file 0 0)
       (set_script ten_byte_file_world [Error 5]) 0 10 device_buf
     = Returned (SUCCEED, f', w') /\
     calls w' = [call_cuFileBufRegister device_buf 10 5]) /\
  (exists f' w',
     H5FD_gds_io io_write SSIZET_MAX 8 (fresh_file 0 0)
       failing_world 0 10 device_buf
     = Returned (SUCCEED, f', w') /\
     calls w' = [call_cuFileBufRegister device_buf 10 5]) /\
  (exists f' w',
     H5FD_gds_io io_read SSIZET_MAX 8 (fresh_file 0 0)
       (set_script ten_byte_file_world [Normal; Normal; Error 5])
       0 10 device_buf
     = Returned (SUCCEED, f', w') /\
     calls w' = [call_cuFileBufRegister device_buf 10 0;
                 call_cuFileRead 7 device_buf 10 0 0 10;
                 call_cuFileBufDeregister device_buf 5]) /\
  (exists f' w',
     H5FD_gds_io io_write SSIZET_MAX 8 (fresh_file 0 0)
       third_call_fails_world 0 10 device_buf
     = Returned (SUCCEED, f', w') /\
     calls w' = [call_cuFileBufRegister device_buf 10 0;
                 call_cuFileWrite 7 device_buf 10 0 0 10;
                 call_cuFileBufDeregister device_buf 5]).
Proof.
  repeat split; eexists; eexists; split; reflexivity.
Qed.

(** ** The chunk partitioner *)

(** C1 at its failing input: for a request of 2^32 bytes and two threads
    the worker count is min(2, 1 + (2^32 - 1)/4096) = 2, yet both workers
    are given length 0: the chunk is computed from the size cut to 32
    bits, and nothing of [0, 2^32) is covered. *)
Theorem partition_cuts_size_to_32_bits :
  page_floor (2 ^ 32) 2 = Z.min 2 (1 + (2 ^ 32 - 1) / 4096) /\
  map td_size (partition device_buf 7 0 (2 ^ 32) 2 4096) = [0; 0] /\
  map td_offset (partition device_buf 7 0 (2 ^ 32) 2 4096) = [0; 0].
Proof.
  repeat split; reflexivity.
Qed.

(** What follows from it: a read and a write of 2^32 bytes on two threads
    return success without a single transfer call. *)
Example four_GiB_request_moves_nothing :
  returned_and_issued
    (H5FD_gds_io io_read SSIZET_MAX 2 (fresh_file 2 4096) quiet_world
       0 (2 ^ 32) device_buf)
  = Some (SUCCEED, [call_cuFileBufRegister device_buf (2 ^ 32) 0;
                    call_cuFileBufDeregister device_buf 0]) /\
  returned_and_issued
    (H5FD_gds_io io_write SSIZET_MAX 2 (fresh_file 2 4096) quiet_world
       0 (2 ^ 32) device_buf)
  = Some (SUCCEED, [call_cuFileBufRegister device_buf (2 ^ 32) 0;
                    call_cuFileBufDeregister device_buf 0]).
Proof. split; vm_compute; reflexivity. Qed.

(** ** Overflow checks *)

Lemma high_mask_value : u64 (Z.lnot MAXADDR) = 2 ^ 63.
Proof. reflexivity. Qed.

Lemma testbit_63 x : 0 <= x < 2 ^ 64 -> Z.testbit x 63 = (2 ^ 63 <=? x).
Proof.
  intros Hx.
  destruct (Z.leb_spec (2 ^ 63) x) as [Hge | Hlt].
  - apply Z.testbit_true; [ lia | ].
    replace x with (x - 2 ^ 63 + 1 * 2 ^ 63) by lia.
    rewrite Z.div_add by lia.
    rewrite Z.div_small by lia. reflexivity.
  - apply Z.testbit_false; [ lia | ].
    rewrite Z.div_small by lia. reflexivity.
Qed.

Lemma high_bit_test x :
  0 <= x < 2 ^ 64 ->
  (Z.land x (u64 (Z.lnot MAXADDR)) =? 0) = (x <? 2 ^ 63).
Proof.
  intros Hx. rewrite high_mask_value.
  destruct (Z.ltb_spec x (2 ^ 63)) as [Hlt | Hge].
  - apply Z.eqb_eq. apply Z.bits_inj'. intros n Hn.
    rewrite Z.land_spec, Z.bits_0, Z.pow2_bits_eqb by lia.
    destruct (Z.eqb_spec 63 n) as [<- | Hne].
    + rewrite testbit_63 by exact Hx.
      destruct (Z.leb_spec (2 ^ 63) x); [ lia | reflexivity ].
    + apply andb_false_r.
  - apply Z.eqb_neq. intros H0.
    assert (Hbit : Z.testbit (Z.land x (2 ^ 63)) 63 = true).
    { rewrite Z.land_spec, Z.pow2_bits_eqb by lia.
      rewrite testbit_63 by exact Hx.
      destruct (Z.leb_spec (2 ^ 63) x); [ reflexivity | lia ]. }
    rewrite H0, Z.bits_0 in Hbit. discriminate.
Qed.

(** A region passes the overflow check exactly when it lies below
    [MAXADDR]. *)
Lemma REGION_OVERFLOW_false A Z_ :
  0 <= A < 2 ^ 64 -> 0 <= Z_ < 2 ^ 64 ->
  REGION_OVERFLOW A Z_ = false <-> A + Z_ <= MAXADDR.
Proof.
  intros HA HZ. rewrite MAXADDR_value.
  unfold REGION_OVERFLOW, ADDR_OVERFLOW, SIZE_OVERFLOW.
  rewrite !high_bit_test by assumption.
  rewrite HADDR_UNDEF_value.
  destruct (Z.eqb_spec (2 ^ 64 - 1) A) as [HAu | HAu];
    destruct (Z.ltb_spec A (2 ^ 63)) as [HAl | HAg];
    destruct (Z.ltb_spec Z_ (2 ^ 63)) as [HZl | HZg];
    cbn [orb negb]; rewrite ?orb_true_r;
    try (split; [ discriminate | lia ]).
  rewrite (u64_small (A + Z_)) by lia.
  destruct (Z.eqb_spec (2 ^ 64 - 1) (A + Z_)) as [Hu | _]; [ lia | ].
  cbn [orb].
  rewrite (s64_small A) by lia.
  destruct (Z_lt_ge_dec (A + Z_) (2 ^ 63)) as [Hs | Hs].
  - rewrite s64_small by lia.
    destruct (Z.ltb_spec (A + Z_) A); [ lia | ]. split; [ lia | reflexivity ].
  - assert (Hneg : s64 (A + Z_) = A + Z_ - 2 ^ 64).
    { unfold s64.
      replace (A + Z_ + 2 ^ 63) with (A + Z_ - 2 ^ 63 + 1 * 2 ^ 64) by lia.
      rewrite Z.mod_add by lia. rewrite Z.mod_small; lia. }
    rewrite Hneg.
    destruct (Z.ltb_spec (A + Z_ - 2 ^ 64) A); [ | lia ].
    split; [ discriminate | lia ].
Qed.

(** ** What the transfer primitives return *)

Lemma limit_bounds r n : 0 <= n -> 0 <= limit r n <= n.
Proof. intros Hn. destruct r; simpl; lia. Qed.

Lemma file_read_ret w dst count off n w' :
  file_read w dst count off = (n, w') ->
  n = -1 \/ 0 <= n <= Z.max 0 count.
Proof.
  unfold file_read, next_outcome, avail. intros H.
  destruct (script w) as [ | [ | e | k ] rest ]; simpl in H;
    try (injection H as <- <-; left; reflexivity);
    destruct (off <? 0); injection H as <- <-;
    try (left; reflexivity); right; simpl; lia.
Qed.

Lemma file_write_ret w src count off n w' :
  file_write w src count off = (n, w') ->
  n = -1 \/ 0 <= n <= Z.max 0 count.
Proof.
  unfold file_write, next_outcome. intros H.
  destruct (script w) as [ | [ | e | k ] rest ]; simpl in H;
    try (injection H as <- <-; left; reflexivity);
    destruct (off <? 0); injection H as <- <-;
    try (left; reflexivity); right; simpl; lia.
Qed.

Lemma pread_retry_ret fd_ buf count fuel :
  forall w off n off1 w',
    pread_retry fuel w fd_ buf count off = Returned (n, off1, w') ->
    n = -1 \/ 0 <= n <= Z.max 0 count.
Proof.
  induction fuel as [ | fuel IH ]; intros w off n off1 w' H; simpl in H.
  - discriminate.
  - unfold HDpread in H.
    destruct (file_read w buf count off) as [n0 w0] eqn:Hfr.
    apply file_read_ret in Hfr.
    match type of H with
    | (if ?c then _ else _) = _ => destruct c
    end.
    + eapply IH. exact H.
    + injection H as <- _ _. exact Hfr.
Qed.

Lemma pwrite_retry_ret fd_ buf count fuel :
  forall w off n off1 w',
    pwrite_retry fuel w fd_ buf count off = Returned (n, off1, w') ->
    n = -1 \/ 0 <= n <= Z.max 0 count.
Proof.
  induction fuel as [ | fuel IH ]; intros w off n off1 w' H; simpl in H.
  - discriminate.
  - unfold HDpwrite in H.
    destruct (file_write w buf count off) as [n0 w0] eqn:Hfw.
    apply file_write_ret in Hfw.
    match type of H with
    | (if ?c then _ else _) = _ => destruct c
    end.
    + eapply IH. exact H.
    + injection H as <- _ _. exact Hfw.
Qed.

(** ** Where the fallback loops stop *)

Lemma bytes_in_le max_io size_ :
  (if size_ >? max_io then max_io else size_) <= size_.
Proof. destruct (Z.gtb_spec size_ max_io); lia. Qed.

(** The write loop ends only when the whole request is written. *)
Lemma write_loop_fell_through max_io file fuel :
  forall w addr size_ buf offset a w',
    0 <= addr -> 0 <= size_ -> addr + size_ < 2 ^ 64 ->
    write_loop max_io fuel file w addr size_ buf offset
      = Returned (Fell_through a, w') ->
    a = addr + size_.
Proof.
  induction fuel as [ | fuel IH ]; intros w addr size_ buf offset a w'
    Haddr Hsize Hsum H; simpl in H.
  - discriminate.
  - destruct (Z.gtb_spec size_ 0) as [Hpos | Hzero].
    + pose proof (bytes_in_le max_io size_) as Hin.
      destruct (pwrite_retry fuel w (fd file) buf
                  (if size_ >? max_io then max_io else size_) offset)
        as [ [[n off1] w1] | | ] eqn:Hretry; try discriminate.
      apply pwrite_retry_ret in Hretry.
      destruct (Z.eqb_spec n (-1)) as [Hn | Hn]; [ discriminate | ].
      destruct (Z.gtb_spec n 0) as [Hn0 | Hn0]; [ | discriminate ].
      cbn [negb] in H.
      assert (Hle : 0 < n <= size_) by lia.
      rewrite (u64_small n) in H by lia.
      destruct (Z.leb_spec n size_) as [_ | Hgt]; [ | lia ].
      cbn [negb] in H.
      rewrite (u64_small (addr + n)), (u64_small (size_ - n)) in H by lia.
      apply IH in H; lia.
    + injection H as <- _. lia.
Qed.

(** The read loop stops inside the request. *)
Lemma read_loop_fell_through max_io file fuel :
  forall w addr size_ buf offset a w',
    0 <= addr -> 0 <= size_ -> addr + size_ < 2 ^ 64 ->
    read_loop max_io fuel file w addr size_ buf offset
      = Returned (Fell_through a, w') ->
    addr <= a <= addr + size_.
Proof.
  induction fuel as [ | fuel IH ]; intros w addr size_ buf offset a w'
    Haddr Hsize Hsum H; simpl in H.
  - discriminate.
  - destruct (Z.gtb_spec size_ 0) as [Hpos | Hzero].
    + pose proof (bytes_in_le max_io size_) as Hin.
      destruct (pread_retry fuel w (fd file) buf
                  (if size_ >? max_io then max_io else size_) offset)
        as [ [[n off1] w1] | | ] eqn:Hretry; try discriminate.
      apply pread_retry_ret in Hretry.
      destruct (Z.eqb_spec n (-1)) as [Hn | Hn]; [ discriminate | ].
      destruct (Z.eqb_spec n 0) as [Hn0 | Hn0].
      { injection H as <- _. lia. }
      destruct (Z.geb_spec n 0) as [Hge | Hlt]; [ | discriminate ].
      cbn [negb] in H.
      assert (Hle : 0 < n <= size_) by lia.
      rewrite (u64_small n) in H by lia.
      destruct (Z.leb_spec n size_) as [_ | Hgt]; [ | lia ].
      cbn [negb] in H.
      rewrite (u64_small (addr + n)), (u64_small (size_ - n)) in H by lia.
      apply IH in H; lia.
    + injection H as <- _. lia.
Qed.

Lemma read_loop_goto_done max_io file fuel :
  forall w addr size_ buf offset r w',
    read_loop max_io fuel file w addr size_ buf offset
      = Returned (Goto_done r, w') ->
    r = FAIL.
Proof.
  induction fuel as [ | fuel IH ]; intros w addr size_ buf offset r w' H;
    simpl in H.
  - discriminate.
  - destruct (size_ >? 0); [ | discriminate ].
    destruct (pread_retry fuel w (fd file) buf
                (if size_ >? max_io then max_io else size_) offset)
      as [ [[n off1] w1] | | ]; try discriminate.
    destruct (n =? -1). { injection H as <- _. reflexivity. }
    destruct (n =? 0); [ discriminate | ].
    destruct (negb (n >=? 0)); [ discriminate | ].
    destruct (negb (u64 n <=? size_)); [ discriminate | ].
    eapply IH. exact H.
Qed.

Lemma write_loop_goto_done max_io file fuel :
  forall w addr size_ buf offset r w',
    write_loop max_io fuel file w addr size_ buf offset
      = Returned (Goto_done r, w') ->
    r = FAIL.
Proof.
  induction fuel as [ | fuel IH ]; intros w addr size_ buf offset r w' H;
    simpl in H.
  - discriminate.
  - destruct (size_ >? 0); [ | discriminate ].
    destruct (pwrite_retry fuel w (fd file) buf
                (if size_ >? max_io then max_io else size_) offset)
      as [ [[n off1] w1] | | ]; try discriminate.
    destruct (n =? -1). { injection H as <- _. reflexivity. }
    destruct (negb (n >? 0)); [ discriminate | ].
    destruct (negb (u64 n <=? size_)); [ discriminate | ].
    eapply IH. exact H.
Qed.

(** ** The Address-Space Tracker after a request *)

(** *** The calls of the fallback loops and the bytes they move *)

Lemma file_read_calls w dst count off n w' :
  file_read w dst count off = (n, w') -> calls w' = calls w.
Proof.
  unfold file_read, next_outcome. intros H.
  destruct (script w) as [ | o rest ]; [ | destruct o ];
    try (destruct (off <? 0));
    injection H as _ <-; reflexivity.
Qed.

Lemma file_write_calls w src count off n w' :
  file_write w src count off = (n, w') -> calls w' = calls w.
Proof.
  unfold file_write, next_outcome. intros H.
  destruct (script w) as [ | o rest ]; [ | destruct o ];
    try (destruct (off <? 0));
    injection H as _ <-; reflexivity.
Qed.

Lemma HDpread_calls w fd_ buf count off ret w' :
  HDpread w fd_ buf count off = (ret, w') ->
  calls w' = calls w ++ [call_pread fd_ buf count off ret].
Proof.
  unfold HDpread. intros H.
  destruct (file_read w buf count off) as [n w1] eqn:Hr.
  apply file_read_calls in Hr.
  injection H as <- <-. simpl. rewrite Hr. reflexivity.
Qed.

Lemma HDpwrite_calls w fd_ buf count off ret w' :
  HDpwrite w fd_ buf count off = (ret, w') ->
  calls w' = calls w ++ [call_pwrite fd_ buf count off ret].
Proof.
  unfold HDpwrite. intros H.
  destruct (file_write w buf count off) as [n w1] eqn:Hr.
  apply file_write_calls in Hr.
  injection H as <- <-. simpl. rewrite Hr. reflexivity.
Qed.

Lemma bytes_transferred_app l1 l2 :
  bytes_transferred (l1 ++ l2) = bytes_transferred l1 + bytes_transferred l2.
Proof.
  induction l1 as [ | c l1 IH ]; [ reflexivity | ].
  simpl. destruct c; rewrite ?IH; lia.
Qed.

(** One sub-read with its retries: the interrupted attempts move
    nothing, and the last attempt moves what it returns. *)
Lemma pread_retry_transferred fd_ buf count :
  forall fuel w off n off1 w',
    pread_retry fuel w fd_ buf count off = Returned (n, off1, w') ->
    exists issued,
      calls w' = calls w ++ issued /\
      bytes_transferred issued = Z.max 0 n /\
      (n = 0 -> existsb zero_byte_read issued = true).
Proof.
  induction fuel as [ | fuel IH ]; intros w off n off1 w' H;
    [ discriminate | ].
  simpl in H.
  destruct (HDpread w fd_ buf count off) as [ret w1] eqn:Hp.
  apply HDpread_calls in Hp.
  destruct ((ret =? -1) && (errno w1 =? EINTR)) eqn:Hretry.
  - apply andb_true_iff in Hretry. destruct Hretry as [Hret _].
    apply Z.eqb_eq in Hret. subst ret.
    apply IH in H. destruct H as (issued & Hc & Hsum & Hzero).
    exists (call_pread fd_ buf count off (-1) :: issued).
    split; [ rewrite Hc, Hp, <- app_assoc; reflexivity | ].
    split; [ simpl; rewrite Hsum; lia | ].
    intros Hn. simpl. exact (Hzero Hn).
  - injection H as <- _ <-.
    exists [call_pread fd_ buf count off ret].
    split; [ exact Hp | ].
    split; [ simpl; lia | ].
    intros ->. reflexivity.
Qed.

Lemma pwrite_retry_transferred fd_ buf count :
  forall fuel w off n off1 w',
    pwrite_retry fuel w fd_ buf count off = Returned (n, off1, w') ->
    exists issued,
      calls w' = calls w ++ issued /\
      bytes_transferred issued = Z.max 0 n.
Proof.
  induction fuel as [ | fuel IH ]; intros w off n off1 w' H;
    [ discriminate | ].
  simpl in H.
  destruct (HDpwrite w fd_ buf count off) as [ret w1] eqn:Hp.
  apply HDpwrite_calls in Hp.
  destruct ((ret =? -1) && (errno w1 =? EINTR)) eqn:Hretry.
  - apply andb_true_iff in Hretry. destruct Hretry as [Hret _].
    apply Z.eqb_eq in Hret. subst ret.
    apply IH in H. destruct H as (issued & Hc & Hsum).
    exists (call_pwrite fd_ buf count off (-1) :: issued).
    split; [ rewrite Hc, Hp, <- app_assoc; reflexivity | ].
    simpl. rewrite Hsum. lia.
  - injection H as <- _ <-.
    exists [call_pwrite fd_ buf count off ret].
    split; [ exact Hp | simpl; lia ].
Qed.

(** The address at which the read loop ends is the address of the
    request plus the bytes its sub-reads moved; it falls short of the
    end of the request only after a sub-read of zero bytes. *)
Lemma read_loop_transferred max_io file fuel :
  forall w addr size_ buf offset a w',
    0 <= addr -> 0 <= size_ -> addr + size_ < 2 ^ 64 ->
    read_loop max_io fuel file w addr size_ buf offset
      = Returned (Fell_through a, w') ->
    exists issued,
      calls w' = calls w ++ issued /\
      a = addr + bytes_transferred issued /\
      (a < addr + size_ -> existsb zero_byte_read issued = true).
Proof.
  induction fuel as [ | fuel IH ]; intros w addr size_ buf offset a w'
    Ha Hs Hfit H; [ discriminate | ].
  simpl in H.
  destruct (Z.gtb_spec size_ 0) as [Hpos | Hzero].
  2: { injection H as <- <-. exists [].
       split; [ rewrite app_nil_r; reflexivity | ].
       split; [ simpl; lia | lia ]. }
  destruct (pread_retry fuel w (fd file) buf
              (if size_ >? max_io then max_io else size_) offset)
    as [ [ [n off1] w1 ] | | ] eqn:Hp; try discriminate.
  pose proof (pread_retry_ret _ _ _ _ _ _ _ _ _ Hp) as Hret.
  pose proof (bytes_in_le max_io size_) as Hin.
  apply pread_retry_transferred in Hp.
  destruct Hp as (i1 & Hc1 & Hsum1 & Hz1).
  destruct (Z.eqb_spec n (-1)); [ discriminate | ].
  destruct (Z.eqb_spec n 0) as [Hn0 | Hn0].
  { injection H as <- <-. exists i1.
    split; [ exact Hc1 | ].
    split; [ rewrite Hsum1; subst n; simpl; lia | ].
    intros _. exact (Hz1 Hn0). }
  destruct (Z.geb_spec n 0) as [Hge | Hlt]; cbn [negb] in H;
    [ | discriminate ].
  destruct (Z.leb_spec (u64 n) size_) as [Hle | Hgt]; cbn [negb] in H;
    [ | discriminate ].
  rewrite (u64_small n) in H, Hle by lia.
  rewrite (u64_small (addr + n)) in H by lia.
  rewrite (u64_small (size_ - n)) in H by lia.
  apply IH in H; [ | lia | lia | lia ].
  destruct H as (i2 & Hc2 & Hsum2 & Hz2).
  exists (i1 ++ i2).
  split; [ rewrite Hc2, Hc1, <- app_assoc; reflexivity | ].
  rewrite bytes_transferred_app.
  split; [ lia | ].
  intros Hshort. rewrite existsb_app. apply orb_true_iff. right.
  apply Hz2. lia.
Qed.

Lemma write_loop_transferred max_io file fuel :
  forall w addr size_ buf offset a w',
    0 <= addr -> 0 <= size_ -> addr + size_ < 2 ^ 64 ->
    write_loop max_io fuel file w addr size_ buf offset
      = Returned (Fell_through a, w') ->
    exists issued,
      calls w' = calls w ++ issued /\
      a = addr + bytes_transferred issued.
Proof.
  induction fuel as [ | fuel IH ]; intros w addr size_ buf offset a w'
    Ha Hs Hfit H; [ discriminate | ].
  simpl in H.
  destruct (Z.gtb_spec size_ 0) as [Hpos | Hzero].
  2: { injection H as <- <-. exists [].
       split; [ rewrite app_nil_r; reflexivity | simpl; lia ]. }
  destruct (pwrite_retry fuel w (fd file) buf
              (if size_ >? max_io then max_io else size_) offset)
    as [ [ [n off1] w1 ] | | ] eqn:Hp; try discriminate.
  pose proof (pwrite_retry_ret _ _ _ _ _ _ _ _ _ Hp) as Hret.
  pose proof (bytes_in_le max_io size_) as Hin.
  apply pwrite_retry_transferred in Hp.
  destruct Hp as (i1 & Hc1 & Hsum1).
  destruct (Z.eqb_spec n (-1)); [ discriminate | ].
  destruct (Z.gtb_spec n 0) as [Hgt | Hle]; cbn [negb] in H;
    [ | discriminate ].
  destruct (Z.leb_spec (u64 n) size_) as [Hle | Hgt']; cbn [negb] in H;
    [ | discriminate ].
  rewrite (u64_small n) in H, Hle by lia.
  rewrite (u64_small (addr + n)) in H by lia.
  rewrite (u64_small (size_ - n)) in H by lia.
  apply IH in H; [ | lia | lia | lia ].
  destruct H as (i2 & Hc2 & Hsum2).
  exists (i1 ++ i2).
  split; [ rewrite Hc2, Hc1, <- app_assoc; reflexivity | ].
  rewrite bytes_transferred_app. lia.
Qed.

Lemma read_body_tracker max_io fuel f w addr size_ buf rv f1 w1 :
  0 <= addr < 2 ^ 64 -> 0 <= size_ < 2 ^ 64 ->
  read_body max_io fuel f w addr size_ buf = Returned (rv, f1, w1) ->
  0 <= rv ->
  (is_device_pointer w buf = 0 ->
   op f1 = OP_READ /\ addr <= pos f1 <= addr + size_ /\ eof f1 = eof f /\
   exists issued,
     calls w1 = calls w ++ issued /\
     pos f1 = addr + bytes_transferred issued /\
     (pos f1 < addr + size_ -> existsb zero_byte_read issued = true)) /\
  (is_device_pointer w buf <> 0 -> f1 = f).
Proof.
  intros Haddr Hsize H Hrv. unfold read_body in H.
  destruct (buf =? NULL); [ discriminate | ].
  destruct (negb (H5F_addr_defined addr)).
  { injection H as <- _ _. unfold FAIL in Hrv. lia. }
  destruct (REGION_OVERFLOW addr size_) eqn:Hov.
  { injection H as <- _ _. unfold FAIL in Hrv. lia. }
  apply REGION_OVERFLOW_false in Hov; [ | assumption | assumption ].
  rewrite MAXADDR_value in Hov.
  destruct (Z.eqb_spec (is_device_pointer w buf) 0) as [Hhost | Hdev];
    cbn [negb] in H.
  - split; [ intros _ | intros Hne; contradiction ].
    destruct (read_loop max_io fuel f w addr size_ buf (s64 addr))
      as [ [[a | r] w2] | | ] eqn:Hloop; try discriminate.
    + injection H as <- <- <-.
      assert (Hmoved := Hloop).
      apply read_loop_transferred in Hmoved; [ | lia | lia | lia ].
      apply read_loop_fell_through in Hloop; [ | lia | lia | lia ].
      simpl.
      split; [ reflexivity | ]. split; [ lia | ].
      split; [ reflexivity | exact Hmoved ].
    + injection H as <- _ _.
      apply read_loop_goto_done in Hloop. subst r.
      unfold FAIL in Hrv. lia.
  - split; [ intros He; contradiction | intros _ ].
    destruct (cuFileBufRegister w buf size_ 0) as [st w2].
    destruct (negb (st =? CU_FILE_SUCCESS)).
    { injection H as _ <- _. reflexivity. }
    destruct (device_transfer (read_thread_fn fuel) cuFileRead f w2
                (s64 addr) size_ buf) as [ w3 | | ]; try discriminate.
    destruct (cuFileBufDeregister w3 buf) as [st' w4].
    destruct (negb (st' =? CU_FILE_SUCCESS));
      injection H as _ <- _; reflexivity.
Qed.

Lemma write_body_tracker max_io fuel f w addr size_ buf rv f1 w1 :
  0 <= addr < 2 ^ 64 -> 0 <= size_ < 2 ^ 64 ->
  write_body max_io fuel f w addr size_ buf = Returned (rv, f1, w1) ->
  0 <= rv ->
  (is_device_pointer w buf = 0 ->
   op f1 = OP_WRITE /\ pos f1 = addr + size_ /\
   eof f1 = Z.max (eof f) (addr + size_) /\
   exists issued,
     calls w1 = calls w ++ issued /\
     pos f1 = addr + bytes_transferred issued) /\
  (is_device_pointer w buf <> 0 -> f1 = f).
Proof.
  intros Haddr Hsize H Hrv. unfold write_body in H.
  destruct (buf =? NULL); [ discriminate | ].
  destruct (negb (H5F_addr_defined addr)).
  { injection H as <- _ _. unfold FAIL in Hrv. lia. }
  destruct (REGION_OVERFLOW addr size_) eqn:Hov.
  { injection H as <- _ _. unfold FAIL in Hrv. lia. }
  apply REGION_OVERFLOW_false in Hov; [ | assumption | assumption ].
  rewrite MAXADDR_value in Hov.
  destruct (Z.eqb_spec (is_device_pointer w buf) 0) as [Hhost | Hdev];
    cbn [negb] in H.
  - split; [ intros _ | intros Hne; contradiction ].
    destruct (write_loop max_io fuel f w addr size_ buf (s64 addr))
      as [ [[a | r] w2] | | ] eqn:Hloop; try discriminate.
    + assert (Hmoved := Hloop).
      apply write_loop_transferred in Hmoved; [ | lia | lia | lia ].
      apply write_loop_fell_through in Hloop; [ | lia | lia | lia ].
      subst a. simpl in H.
      destruct (Z.gtb_spec (addr + size_) (eof f)) as [Hgt | Hle];
        injection H as <- <- <-; simpl;
        (split; [ reflexivity | ]); (split; [ reflexivity | ]);
        (split; [ lia | exact Hmoved ]).
    + injection H as <- _ _.
      apply write_loop_goto_done in Hloop. subst r.
      unfold FAIL in Hrv. lia.
  - split; [ intros He; contradiction | intros _ ].
    destruct (cuFileBufRegister w buf size_ 0) as [st w2].
    destruct (negb (st =? CU_FILE_SUCCESS)).
    { injection H as _ <- _. reflexivity. }
    destruct (device_transfer (write_thread_fn fuel) cuFileWrite f w2
                (s64 addr) size_ buf) as [ w3 | | ]; try discriminate.
    destruct (cuFileBufDeregister w3 buf) as [st' w4].
    destruct (negb (st' =? CU_FILE_SUCCESS));
      injection H as _ <- _; reflexivity.
Qed.

(** C3, as the code has it.  A read or write of a host-resident buffer
    (the fallback path) that returns success sets the tag [op] to the
    operation and the cursor [pos] to the address it reached: the
    address of the request plus the bytes that its positioned sub-reads
    or sub-writes moved.  For a write that is the end of the request; a
    read ends short of it only after a sub-read of zero bytes.  Such a
    write also raises [eof] to the new cursor when the cursor exceeds
    it.  A request on the accelerator-direct path that returns success
    leaves [pos] and [op] as they were. *)
Theorem tracker_after_successful_io
  (d : io_direction) (max_io : Z) (fuel : nat) (f : H5FD_gds_t) (w : World)
  (addr size_ buf : Z) (r : herr_t) (f' : H5FD_gds_t) (w' : World) :
  0 <= addr < 2 ^ 64 -> 0 <= size_ < 2 ^ 64 ->
  H5FD_gds_io d max_io fuel f w addr size_ buf = Returned (r, f', w') ->
  0 <= r ->
  (is_device_pointer w buf = 0 ->
   op f' = op_of d /\ addr <= pos f' <= addr + size_ /\
   (exists issued,
      calls w' = calls w ++ issued /\
      pos f' = addr + bytes_transferred issued /\
      (pos f' < addr + size_ -> existsb zero_byte_read issued = true)) /\
   (d = io_write ->
    pos f' = addr + size_ /\ eof f' = Z.max (eof f) (pos f')) /\
   (d = io_read -> eof f' = eof f)) /\
  (is_device_pointer w buf <> 0 -> pos f' = pos f /\ op f' = op f).
Proof.
  intros Haddr Hsize Hrun Hr.
  destruct d; simpl in Hrun.
  - unfold H5FD_gds_read in Hrun.
    destruct (read_body max_io fuel f w addr size_ buf)
      as [ [[rv f1] w1] | | ] eqn:Hbody; try discriminate.
    injection Hrun as <- <- <-.
    rewrite done_io_success by exact Hr.
    destruct (read_body_tracker _ _ _ _ _ _ _ _ _ _ Haddr Hsize Hbody Hr)
      as [Hhost Hdev].
    split.
    + intros H0. destruct (Hhost H0) as (Hop & Hpos & Heof & Hmoved).
      split; [ exact Hop | ]. split; [ exact Hpos | ].
      split; [ exact Hmoved | ].
      split; [ intros Hd; discriminate Hd | intros _; exact Heof ].
    + intros Hne. rewrite (Hdev Hne). split; reflexivity.
  - unfold H5FD_gds_write in Hrun.
    destruct (write_body max_io fuel f w addr size_ buf)
      as [ [[rv f1] w1] | | ] eqn:Hbody; try discriminate.
    injection Hrun as <- <- <-.
    rewrite done_io_success by exact Hr.
    destruct (write_body_tracker _ _ _ _ _ _ _ _ _ _ Haddr Hsize Hbody Hr)
      as [Hhost Hdev].
    split.
    + intros H0.
      destruct (Hhost H0) as (Hop & Hpos & Heof & issued & Hcalls & Hsum).
      split; [ exact Hop | ]. split; [ lia | ].
      split.
      { exists issued. split; [ exact Hcalls | ].
        split; [ exact Hsum | lia ]. }
      split; [ intros _; split; lia | intros Hd; discriminate Hd ].
    + intros Hne. rewrite (Hdev Hne). split; reflexivity.
Qed.

Lemma tracker_after_successful_io_witness :
  exists f' w',
    0 <= 100 < 2 ^ 64 /\ 0 <= 10 < 2 ^ 64 /\
    H5FD_gds_io io_write SSIZET_MAX 20 (fresh_file 0 0) quiet_world
      100 10 host_buf = Returned (SUCCEED, f', w') /\
    0 <= SUCCEED /\
    op f' = OP_WRITE /\ pos f' = 110 /\ eof f' = 110.
Proof.
  eexists. eexists.
  split; [ lia | ]. split; [ lia | ].
  split; [ reflexivity | ].
  split; [ unfold SUCCEED; lia | ].
  destruct (tracker_after_successful_io io_write SSIZET_MAX 20
              (fresh_file 0 0) quiet_world 100 10 host_buf SUCCEED _ _
              ltac:(lia) ltac:(lia) eq_refl ltac:(unfold SUCCEED; lia))
    as [Hhost _].
  destruct (Hhost eq_refl) as (Hop & _ & _ & Hwrite & _).
  destruct (Hwrite eq_refl) as (Hpos & Heof).
  split; [ exact Hop | ]. split; [ exact Hpos | exact Heof ].
Defined.

(** C3 as stated fails on the accelerator-direct path: a write of ten
    bytes from a device buffer at address 100 succeeds and grows the file
    to 110 bytes, yet the cursor stays undefined, the tag stays unknown
    and [eof] stays 0. *)
Lemma device_write_leaves_tracker_untouched :
  exists f' w',
    H5FD_gds_io io_write SSIZET_MAX 20 (fresh_file 0 0) quiet_world
      100 10 device_buf = Returned (SUCCEED, f', w') /\
    pos f' = HADDR_UNDEF /\ op f' = OP_UNKNOWN /\ eof f' = 0 /\
    fsize w' = 110.
Proof.
  eexists. eexists. repeat split; reflexivity.
Qed.

(** ** The fallback read, byte by byte *)

Lemma file_byte_same_file w w' a :
  same_file w w' -> file_byte w' a = file_byte w a.
Proof. intros [Hs Hd]. unfold file_byte. rewrite Hs, Hd. reflexivity. Qed.

Lemma avail_same_file w w' count off :
  same_file w w' -> avail w' count off = avail w count off.
Proof. intros [Hs _]. unfold avail. rewrite Hs. reflexivity. Qed.

Lemma same_runtime_trans w1 w2 w3 :
  same_runtime w1 w2 -> same_runtime w2 w3 -> same_runtime w1 w3.
Proof. intros [A B] [C D]. split; congruence. Qed.

Lemma same_file_trans w1 w2 w3 :
  same_file w1 w2 -> same_file w2 w3 -> same_file w1 w3.
Proof. intros [A B] [C D]. split; congruence. Qed.

Lemma is_device_pointer_same_runtime w w' ptr :
  same_runtime w w' -> is_device_pointer w' ptr = is_device_pointer w ptr.
Proof.
  intros [Hr Hs]. unfold is_device_pointer, cudaPointerGetAttributes.
  rewrite Hr, Hs. reflexivity.
Qed.

Lemma in_range_empty lo p : in_range lo 0 p = false.
Proof.
  unfold in_range.
  destruct (Z.leb_spec lo p); destruct (Z.ltb_spec p (lo + 0));
    try reflexivity; lia.
Qed.

Lemma in_range_true lo n p : in_range lo n p = true <-> lo <= p < lo + n.
Proof.
  unfold in_range.
  destruct (Z.leb_spec lo p); destruct (Z.ltb_spec p (lo + n)); simpl;
    split; intros; try discriminate; try lia; reflexivity.
Qed.

Lemma in_range_false lo n p :
  in_range lo n p = false <-> ~ (lo <= p < lo + n).
Proof.
  rewrite <- in_range_true. destruct (in_range lo n p); split; intros H;
    try discriminate; try reflexivity; try (intros H0; discriminate H0).
  exfalso. apply H. reflexivity.
Qed.

(** One positioned read: an error that leaves memory alone, or the bytes
    the file holds at the offset, as many as the call was allowed. *)
Lemma file_read_spec w dst count off n w' :
  0 <= off ->
  file_read w dst count off = (n, w') ->
  same_runtime w w' /\ same_file w w' /\
  script w' = tl (script w) /\ calls w' = calls w /\
  ((exists e, hd Normal (script w) = Error e /\ n = -1 /\
              errno w' = Z.pos e /\ mem w' = mem w) \/
   (benign (hd Normal (script w)) = true /\
    0 <= n <= avail w count off /\
    (n = 0 -> avail w count off = 0) /\
    forall p, mem w' p =
              if in_range dst n p then file_byte w (off + (p - dst))
              else mem w p)).
Proof.
  intros Hoff. unfold file_read, next_outcome.
  destruct (script w) as [ | [ | e | k ] rest ] eqn:Hs; simpl;
    destruct (Z.ltb_spec off 0) as [Hneg | _]; try lia;
    intros H; injection H as <- <-; simpl; rewrite ?Hs; simpl;
    (split; [ split; reflexivity | ]);
    (split; [ split; reflexivity | ]);
    (split; [ reflexivity | ]);
    (split; [ reflexivity | ]).
  - right. split; [ reflexivity | ].
    unfold avail. split; [ lia | ]. split; [ lia | ]. reflexivity.
  - right. split; [ reflexivity | ].
    unfold avail. simpl. split; [ lia | ]. split; [ lia | ]. reflexivity.
  - left. exists e. repeat split; reflexivity.
  - right. split; [ reflexivity | ].
    unfold avail. simpl. split; [ lia | ]. split; [ lia | ]. reflexivity.
Qed.

Lemma length_tl_le {A} (l : list A) : (length (tl l) <= length l)%nat.
Proof. destruct l; simpl; lia. Qed.

Lemma forallb_tl {A} (f : A -> bool) l :
  forallb f l = true -> forallb f (tl l) = true.
Proof.
  destruct l as [ | a l ]; simpl; [ trivial | ].
  intros H. apply andb_true_iff in H. apply H.
Qed.

Lemma pread_retry_spec fd_ buf count off :
  0 <= off ->
  forall fuel w, (length (script w) < fuel)%nat ->
  exists n off1 w' issued,
    pread_retry fuel w fd_ buf count off = Returned (n, off1, w') /\
    same_runtime w w' /\ same_file w w' /\
    (length (script w') <= length (script w))%nat /\
    (forallb benign (script w) = true -> forallb benign (script w') = true) /\
    calls w' = calls w ++ issued /\
    ((n = -1 /\ forallb benign (script w) = false /\
      existsb zero_byte_read issued = false) \/
     (0 <= n <= avail w count off /\ (n = 0 -> avail w count off = 0) /\
      off1 = (if n >? 0 then s64 (off + n) else off) /\
      (0 < n -> existsb zero_byte_read issued = false) /\
      forall p, mem w' p =
                if in_range buf n p then file_byte w (off + (p - buf))
                else mem w p)).
Proof.
  intros Hoff. induction fuel as [ | fuel IH ]; intros w Hlen; [ lia | ].
  simpl. unfold HDpread.
  destruct (file_read w buf count off) as [n0 w0] eqn:Hfr.
  apply (file_read_spec _ _ _ _ _ _ Hoff) in Hfr.
  destruct Hfr as (Hrt & Hfile & Hscr & Hcalls &
                   [ (e & Hhd & -> & Herrno & Hmem)
                   | (Hben & Hn & Hn0 & Hmemspec) ]).
  - unfold log at 1. simpl. rewrite Herrno.
    destruct (script w) as [ | r0 rest ] eqn:Hs; [ discriminate Hhd | ].
    simpl in Hhd. subst r0. simpl in Hscr.
    destruct (Z.eqb_spec (Z.pos e) EINTR) as [Hintr | Hhard].
    + set (c := call_pread fd_ buf count off (-1)).
      destruct (IH (log w0 c)) as (n & off1 & w' & issued & Hrun & Hrt' &
                                   Hfile' & Hlen' & Hben' & Hcalls' & Hres).
      { simpl. rewrite Hscr. simpl in Hlen. lia. }
      exists n, off1, w', (c :: issued).
      split; [ exact Hrun | ].
      split; [ eapply same_runtime_trans; [ exact Hrt | exact Hrt' ] | ].
      split; [ eapply same_file_trans; [ exact Hfile | exact Hfile' ] | ].
      assert (Hfile0 : same_file w (log w0 c)) by exact Hfile.
      change (script (log w0 c)) with (script w0) in Hlen', Hben', Hres.
      change (calls (log w0 c)) with (calls w0 ++ [c]) in Hcalls'.
      rewrite Hscr in *.
      split; [ simpl; lia | ].
      split.
      { simpl. intros Hb. apply andb_true_iff in Hb. apply Hben', Hb. }
      split.
      { rewrite Hcalls', Hcalls, <- app_assoc. reflexivity. }
      destruct Hres as [ (-> & Hnb & Hz) | (Hn & Hn0 & Hoff1 & Hz & Hm) ].
      * left. split; [ reflexivity | ].
        split; [ simpl; rewrite Hnb; apply andb_false_r | exact Hz ].
      * right.
        rewrite (avail_same_file w (log w0 c)) in Hn, Hn0 by exact Hfile0.
        split; [ exact Hn | ]. split; [ exact Hn0 | ].
        split; [ exact Hoff1 | ]. split; [ exact Hz | ].
        intros p. rewrite Hm.
        rewrite (file_byte_same_file w (log w0 c)) by exact Hfile0.
        change (mem (log w0 c) p) with (mem w0 p). rewrite Hmem.
        reflexivity.
    + exists (-1), off, (log w0 (call_pread fd_ buf count off (-1))),
        [call_pread fd_ buf count off (-1)].
      split; [ reflexivity | ].
      split; [ exact Hrt | ]. split; [ exact Hfile | ].
      assert (Hnb : forallb benign (Error e :: rest) = false).
      { change (forallb benign (Error e :: rest))
          with ((Z.pos e =? EINTR) && forallb benign rest).
        rewrite (proj2 (Z.eqb_neq _ _) Hhard). reflexivity. }
      change (script (log w0 (call_pread fd_ buf count off (-1))))
        with (script w0).
      change (calls (log w0 (call_pread fd_ buf count off (-1))))
        with (calls w0 ++ [call_pread fd_ buf count off (-1)]).
      rewrite Hscr, Hcalls.
      split; [ simpl; lia | ].
      split; [ rewrite Hnb; discriminate | ].
      split; [ reflexivity | ].
      left. split; [ reflexivity | ].
      split; [ exact Hnb | reflexivity ].
  - destruct (Z.eqb_spec n0 (-1)) as [Hm1 | _]; [ lia | ].
    simpl.
    exists n0, (if n0 >? 0 then s64 (off + n0) else off),
      (log w0 (call_pread fd_ buf count off n0)),
      [call_pread fd_ buf count off n0].
    split; [ reflexivity | ].
    split; [ exact Hrt | ]. split; [ exact Hfile | ].
    simpl. rewrite Hscr.
    split; [ apply length_tl_le | ].
    split; [ apply forallb_tl | ].
    split; [ rewrite Hcalls; reflexivity | ].
    right. split; [ exact Hn | ]. split; [ exact Hn0 | ].
    split; [ reflexivity | ]. split; [ | exact Hmemspec ].
    intros Hpos. destruct (Z.eqb_spec n0 0); [ lia | reflexivity ].
Qed.

Lemma read_loop_spec max_io file :
  0 < max_io ->
  forall fuel w addr size_ buf,
    0 <= addr -> 0 <= size_ -> addr + size_ < 2 ^ 63 ->
    Z.of_nat (length (script w)) + size_ < Z.of_nat fuel ->
    exists e w' issued,
      read_loop max_io fuel file w addr size_ buf addr = Returned (e, w') /\
      same_runtime w w' /\ same_file w w' /\
      calls w' = calls w ++ issued /\
      ((e = Goto_done FAIL /\ forallb benign (script w) = false /\
        existsb zero_byte_read issued = false) \/
       (e = Fell_through (Z.min (addr + size_) (Z.max addr (fsize w))) /\
        forall p, mem w' p =
                  if in_range buf size_ p then file_byte w (addr + (p - buf))
                  else mem w p)).
Proof.
  intros Hmax. induction fuel as [ | fuel IH ];
    intros w addr size_ buf Haddr Hsize Hsum Hfuel; [ lia | ].
  simpl.
  destruct (Z.gtb_spec size_ 0) as [Hpos | Hzero].
  - set (bytes_in := if size_ >? max_io then max_io else size_).
    assert (Hin : 0 < bytes_in <= size_).
    { unfold bytes_in. destruct (Z.gtb_spec size_ max_io); lia. }
    destruct (pread_retry_spec (fd file) buf bytes_in addr Haddr fuel w)
      as (n & off1 & w1 & issued1 & Hrun & Hrt & Hfile & Hlen & Hben &
          Hcalls & Hres); [ lia | ].
    rewrite Hrun.
    destruct Hres as [ (-> & Hnb & Hz) | (Hn & Hn0 & Hoff1 & Hz & Hm) ].
    + exists (Goto_done FAIL), w1, issued1.
      split; [ reflexivity | ].
      split; [ exact Hrt | ]. split; [ exact Hfile | ].
      split; [ exact Hcalls | ].
      left. split; [ reflexivity | ]. split; [ exact Hnb | exact Hz ].
    + destruct (Z.eqb_spec n (-1)) as [Hm1 | _]; [ lia | ].
      assert (Havail : avail w bytes_in addr <= bytes_in /\
                       avail w bytes_in addr <= Z.max 0 (fsize w - addr)).
      { unfold avail. lia. }
      destruct (Z.eqb_spec n 0) as [Hzero | Hnz].
      * exists (Fell_through addr), (memset w1 buf x00 size_), issued1.
        split; [ reflexivity | ].
        split; [ exact Hrt | ]. split; [ exact Hfile | ].
        split; [ exact Hcalls | ].
        right.
        assert (Heof : fsize w <= addr).
        { specialize (Hn0 Hzero). unfold avail in Hn0. lia. }
        split; [ f_equal; lia | ].
        intros p. unfold memset. simpl. rewrite Hm. subst n.
        rewrite in_range_empty.
        destruct (in_range buf size_ p) eqn:Hr; [ | reflexivity ].
        apply in_range_true in Hr.
        unfold file_byte.
        destruct (Z.ltb_spec (addr + (p - buf)) (fsize w)); [ lia | ].
        rewrite andb_false_r. reflexivity.
      * destruct (Z.geb_spec n 0) as [_ | Hneg]; [ | lia ].
        cbn [negb].
        rewrite (u64_small n) by lia.
        destruct (Z.leb_spec n size_) as [_ | Hgt]; [ | lia ].
        cbn [negb].
        rewrite (u64_small (addr + n)), (u64_small (size_ - n)) by lia.
        assert (Hoff1' : off1 = addr + n).
        { rewrite Hoff1. destruct (Z.gtb_spec n 0); [ | lia ].
          apply s64_small. lia. }
        rewrite Hoff1'.
        destruct (IH w1 (addr + n) (size_ - n) (buf + n))
          as (e & w' & issued2 & Hrun' & Hrt' & Hfile' & Hcalls' & Hres');
          try lia.
        exists e, w', (issued1 ++ issued2).
        split; [ exact Hrun' | ].
        split; [ eapply same_runtime_trans; eassumption | ].
        split; [ eapply same_file_trans; eassumption | ].
        split; [ rewrite Hcalls', Hcalls, app_assoc; reflexivity | ].
        destruct Hres' as [ (-> & Hnb & Hz') | (-> & Hm') ].
        { left. split; [ reflexivity | ].
          split.
          - destruct (forallb benign (script w)); [ | reflexivity ].
            rewrite Hben in Hnb by reflexivity. discriminate.
          - rewrite existsb_app, Hz', Hz by lia. reflexivity. }
        right.
        destruct Hfile as [Hfs Hfd].
        split.
        { f_equal. rewrite Hfs. lia. }
        intros p. rewrite Hm', Hm.
        rewrite (file_byte_same_file w w1) by (split; assumption).
        destruct (in_range (buf + n) (size_ - n) p) eqn:Hr2;
          destruct (in_range buf n p) eqn:Hr1;
          destruct (in_range buf size_ p) eqn:Hr;
          rewrite ?in_range_true, ?in_range_false in *;
          try lia; try reflexivity.
        f_equal. lia.
  - exists (Fell_through addr), w, [].
    split; [ reflexivity | ].
    split; [ split; reflexivity | ]. split; [ split; reflexivity | ].
    split; [ rewrite app_nil_r; reflexivity | ].
    right. split; [ f_equal; lia | ].
    intros p. replace size_ with 0 by lia. rewrite in_range_empty.
    reflexivity.
Qed.

(** C5.  A read of a host-resident buffer (the fallback path) with valid
    arguments returns.  When one of its sub-reads returned zero bytes it
    returns success, and so it does when nothing but interruptions and
    short reads is scheduled.  On success the destination holds the bytes
    of the file up to its end and zero bytes from there on, the rest of
    memory is unchanged, [op] is the read tag and [pos] the address
    reached: a range that lies past the last byte of the file reads as
    zeros. *)
Theorem fallback_read_zero_fills_past_eof
  (max_io : Z) (fuel : nat) (f : H5FD_gds_t) (w : World) (addr size_ buf : Z) :
  0 < max_io ->
  buf <> NULL -> is_device_pointer w buf = 0 ->
  0 <= addr -> 0 <= size_ -> addr + size_ <= MAXADDR ->
  Z.of_nat (length (script w)) + size_ < Z.of_nat fuel ->
  exists r f' w' issued,
    H5FD_gds_read max_io fuel f w addr size_ buf = Returned (r, f', w') /\
    calls w' = calls w ++ issued /\
    (existsb zero_byte_read issued = true -> r = SUCCEED) /\
    (forallb benign (script w) = true -> r = SUCCEED) /\
    (r = SUCCEED ->
     (forall i, 0 <= i < size_ ->
                mem w' (buf + i) = file_byte w (addr + i)) /\
     (forall i, 0 <= i < size_ -> fsize w <= addr + i ->
                mem w' (buf + i) = x00) /\
     (forall p, ~ (buf <= p < buf + size_) -> mem w' p = mem w p) /\
     op f' = OP_READ /\
     pos f' = Z.min (addr + size_) (Z.max addr (fsize w))).
Proof.
  intros Hmax Hbuf Hhost Haddr Hsize Hsum Hfuel.
  rewrite MAXADDR_value in Hsum.
  unfold H5FD_gds_read, read_body.
  destruct (Z.eqb_spec buf NULL) as [Hnull | _]; [ contradiction | ].
  assert (Hdef : H5F_addr_defined addr = true).
  { unfold H5F_addr_defined. rewrite HADDR_UNDEF_value.
    destruct (Z.eqb_spec addr (2 ^ 64 - 1)); [ lia | reflexivity ]. }
  rewrite Hdef. cbn [negb].
  assert (Hov : REGION_OVERFLOW addr size_ = false).
  { apply REGION_OVERFLOW_false; [ lia | lia | rewrite MAXADDR_value; lia ]. }
  rewrite Hov, Hhost. rewrite Z.eqb_refl. cbn [negb].
  rewrite (s64_small addr) by lia.
  destruct (read_loop_spec max_io f Hmax fuel w addr size_ buf)
    as (e & w' & issued & Hrun & Hrt & Hfile & Hcalls & Hres);
    try lia.
  rewrite Hrun.
  destruct Hres as [ (-> & Hnb & Hz) | (-> & Hm) ].
  - exists FAIL, (done_io FAIL f), w', issued.
    split; [ reflexivity | ]. split; [ exact Hcalls | ].
    split; [ rewrite Hz; discriminate | ].
    split; [ rewrite Hnb; discriminate | ].
    intros H. discriminate H.
  - exists SUCCEED,
      (set_pos_op f (Z.min (addr + size_) (Z.max addr (fsize w))) OP_READ),
      w', issued.
    split; [ reflexivity | ]. split; [ exact Hcalls | ].
    split; [ reflexivity | ]. split; [ reflexivity | ].
    intros _.
    assert (Hbytes : forall i, 0 <= i < size_ ->
                               mem w' (buf + i) = file_byte w (addr + i)).
    { intros i Hi. rewrite Hm.
      destruct (in_range buf size_ (buf + i)) eqn:Hr.
      - f_equal. lia.
      - apply in_range_false in Hr. lia. }
    split; [ exact Hbytes | ].
    split.
    { intros i Hi Heof. rewrite Hbytes by exact Hi. unfold file_byte.
      destruct (Z.ltb_spec (addr + i) (fsize w)); [ lia | ].
      apply andb_false_r || (rewrite andb_false_r; reflexivity). }
    split.
    { intros p Hp. rewrite Hm.
      destruct (in_range buf size_ p) eqn:Hr; [ | reflexivity ].
      apply in_range_true in Hr. lia. }
    split; reflexivity.
Qed.

Lemma fallback_read_zero_fills_past_eof_witness :
  (0 < SSIZET_MAX /\ host_buf <> NULL /\
   is_device_pointer ten_byte_file_world host_buf = 0 /\
   0 <= 5 /\ 0 <= 10 /\ 5 + 10 <= MAXADDR /\
   Z.of_nat (length (script ten_byte_file_world)) + 10 < Z.of_nat 20) /\
  exists r f' w' issued,
    H5FD_gds_read SSIZET_MAX 20 (fresh_file 0 0) ten_byte_file_world
      5 10 host_buf = Returned (r, f', w') /\
    calls w' = calls ten_byte_file_world ++ issued /\
    (existsb zero_byte_read issued = true -> r = SUCCEED) /\
    (forallb benign (script ten_byte_file_world) = true -> r = SUCCEED) /\
    (r = SUCCEED ->
     (forall i, 0 <= i < 10 ->
                mem w' (host_buf + i) = file_byte ten_byte_file_world (5 + i)) /\
     (forall i, 0 <= i < 10 -> fsize ten_byte_file_world <= 5 + i ->
                mem w' (host_buf + i) = x00) /\
     (forall p, ~ (host_buf <= p < host_buf + 10) ->
                mem w' p = mem ten_byte_file_world p) /\
     op f' = OP_READ /\
     pos f' = Z.min (5 + 10) (Z.max 5 (fsize ten_byte_file_world))).
Proof.
  assert (H1 : 0 < SSIZET_MAX) by (unfold SSIZET_MAX; lia).
  assert (H2 : host_buf <> NULL) by (vm_compute; discriminate).
  assert (H3 : is_device_pointer ten_byte_file_world host_buf = 0)
    by reflexivity.
  assert (H4 : 5 + 10 <= MAXADDR) by (rewrite MAXADDR_value; lia).
  assert (H5 : Z.of_nat (length (script ten_byte_file_world)) + 10
               < Z.of_nat 20) by (simpl; lia).
  split.
  - repeat split; try assumption; lia.
  - apply (fallback_read_zero_fills_past_eof SSIZET_MAX 20 (fresh_file 0 0)
             ten_byte_file_world 5 10 host_buf H1 H2 H3
             ltac:(lia) ltac:(lia) H4 H5).
Defined.

(** The same read, evaluated: five bytes of the file, then five zero
    bytes, after a sub-read that returned zero. *)
Example fallback_read_across_eof :
  exists f' w',
    H5FD_gds_read SSIZET_MAX 20 (fresh_file 0 0) ten_byte_file_world
      5 10 host_buf = Returned (SUCCEED, f', w') /\
    bytes_at w' host_buf 10 =
      [x66; x67; x68; x69; x6a; x00; x00; x00; x00; x00] /\
    calls w' = [call_pread 3 host_buf 10 5 5;
                call_pread 3 (host_buf + 5) 5 10 0] /\
    pos f' = 10 /\ op f' = OP_READ.
Proof.
  eexists. eexists. repeat split; reflexivity.
Qed.

(** ** The chunk partitioner below 4 GiB *)

Lemma pages_bounds S : 0 < S -> 0 <= (S - 1) / 4096 <= S - 1.
Proof.
  intros HS. split.
  - apply Z.div_pos; lia.
  - apply Z.div_le_upper_bound; lia.
Qed.

(** The page floor: the worker count is the smaller of the configured
    count and the number of 4096-byte pages the request touches. *)
Lemma page_floor_spec S T0 :
  0 < S < 2 ^ 64 -> 0 < T0 < 2 ^ 31 ->
  page_floor S T0 = Z.min T0 (1 + (S - 1) / 4096).
Proof.
  intros HS HT. pose proof (pages_bounds S ltac:(lia)) as Hq.
  unfold page_floor.
  rewrite (u64_small (S - 1)) by lia.
  rewrite (u64_small (1 + (S - 1) / 4096)) by lia.
  rewrite (u32_small T0) by lia.
  rewrite (u64_small T0) by lia.
  destruct (Z.ltb_spec (1 + (S - 1) / 4096) T0) as [Hlt | Hge].
  - rewrite s32_small by lia. lia.
  - lia.
Qed.

Lemma page_floor_range S T0 :
  0 < S < 2 ^ 64 -> 0 < T0 < 2 ^ 31 ->
  0 < page_floor S T0 <= T0 /\ page_floor S T0 <= S.
Proof.
  intros HS HT. rewrite page_floor_spec by assumption.
  pose proof (pages_bounds S ltac:(lia)). lia.
Qed.

Lemma indices_cons first count :
  0 <= first ->
  indices first (S count) = first :: indices (first + 1) count.
Proof.
  intros H. unfold indices. simpl.
  rewrite Z2Nat.id by exact H.
  replace (Z.to_nat (first + 1)) with (S (Z.to_nat first)) by lia.
  reflexivity.
Qed.

(** The entries the fill loop writes, once the conversions are seen to
    keep the values. *)
Lemma fill_td_spec buf cfh offset chunk rem bs T :
  0 <= chunk -> 0 <= rem -> 0 <= offset ->
  offset + (T * chunk + rem) < 2 ^ 63 ->
  forall n ii,
    0 <= ii -> ii + Z.of_nat n <= T ->
    fill_td n ii buf cfh offset chunk rem bs T =
    map (fun i => mk_td buf cfh (offset + i * chunk) (i * chunk) (u64 bs)
                    (if i =? T - 1 then chunk + rem else chunk))
      (indices ii n).
Proof.
  intros Hchunk Hrem Hoff Hfit.
  induction n as [ | n IH ]; intros ii Hii HT.
  - reflexivity.
  - rewrite indices_cons by exact Hii.
    cbn [fill_td map].
    assert (Hprod : 0 <= ii * chunk <= T * chunk) by nia.
    rewrite (s64_small (ii * chunk)) by lia.
    rewrite (s64_small (offset + ii * chunk)) by lia.
    rewrite (s64_small (chunk + rem)) by nia.
    rewrite (u64_small (chunk + rem)) by nia.
    rewrite (u64_small chunk) by nia.
    rewrite IH by lia. reflexivity.
Qed.

(** Below 4 GiB the partitioner of the code is the partitioner of the
    specification. *)
Lemma partition_below_4GiB buf cfh offset S T0 bs :
  0 < S < 2 ^ 32 -> 0 < T0 < 2 ^ 31 ->
  0 <= offset -> offset + S < 2 ^ 63 ->
  partition buf cfh offset S T0 bs =
  spec_partition buf cfh offset S T0 (u64 bs).
Proof.
  intros HS HT Hoff Hfit.
  unfold partition, spec_partition.
  destruct (page_floor_range S T0 ltac:(lia) HT) as [Hn HnS].
  rewrite <- (page_floor_spec S T0) by lia.
  set (n := page_floor S T0) in *.
  rewrite (u32_small S), (u32_small n) by lia.
  pose proof (Z.div_mod S n ltac:(lia)) as Hdm.
  pose proof (Z.mod_pos_bound S n ltac:(lia)) as Hmod.
  assert (Hdiv : 0 <= S / n) by (apply Z.div_pos; lia).
  rewrite fill_td_spec; try lia.
  reflexivity.
Qed.

(** ** The accelerator-direct transfers in a world without faults *)

Lemma file_byte_copy_mem_to_file w src off n a :
  0 <= off -> 0 <= n ->
  file_byte (copy_mem_to_file w src off n) a =
  if in_range off n a then mem w (src + (a - off)) else file_byte w a.
Proof.
  intros Hoff Hn. unfold file_byte at 1, copy_mem_to_file. simpl.
  destruct (in_range off n a) eqn:Hr.
  - apply in_range_true in Hr.
    destruct (Z.gtb_spec n 0); [ | lia ].
    destruct (Z.leb_spec 0 a); [ | lia ].
    destruct (Z.ltb_spec a (Z.max (fsize w) (off + n))); [ | lia ].
    reflexivity.
  - destruct ((0 <=? a) &&
              (a <? (if n >? 0 then Z.max (fsize w) (off + n) else fsize w)))
      eqn:Hin; [ reflexivity | ].
    unfold file_byte.
    destruct (Z.leb_spec 0 a); [ | reflexivity ].
    destruct (Z.ltb_spec a (fsize w)); [ | reflexivity ].
    exfalso. simpl in Hin. apply Z.ltb_ge in Hin.
    destruct (Z.gtb_spec n 0); lia.
Qed.









(** ** All the workers of one request *)

Section Workers.

Variables (buf cfh offset chunk rem B T : Z) (fuel bound : nat).
Hypothesis Hchunk : 0 < chunk.
Hypothesis Hrem : 0 <= rem.
Hypothesis Hoff : 0 <= offset.
Hypothesis Hfit : offset + (T * chunk + rem) < 2 ^ 63.
Hypothesis HB : 0 < B.
Hypothesis Hfuel : chunk + rem < Z.of_nat fuel.



End Workers.

(** ** A whole accelerator-direct request in a world without faults *)





Lemma valid_region_checks A S :
  0 <= A -> 0 <= S -> A + S <= MAXADDR ->
  H5F_addr_defined A = true /\ REGION_OVERFLOW A S = false /\ s64 A = A.
Proof.
  intros HA HS Hfit. pose proof MAXADDR_value as Hmax.
  split.
  - unfold H5F_addr_defined. rewrite HADDR_UNDEF_value.
    destruct (Z.eqb_spec A (2 ^ 64 - 1)); [ lia | reflexivity ].
  - split.
    + apply REGION_OVERFLOW_false; [ lia | lia | exact Hfit ].
    + apply s64_small. lia.
Qed.




(** The chunks of the specification tile the request: the first starts
    at the start offset, each starts where the one before ends, the last
    ends at the end of the request, and none has a negative length. *)
Lemma spec_partition_tiles buf cfh off S n bs :
  0 < n -> 0 <= S ->
  td_offset (spec_chunk buf cfh off S n bs 0) = off /\
  (forall i, 0 <= i < n - 1 ->
     td_offset (spec_chunk buf cfh off S n bs i)
     + td_size (spec_chunk buf cfh off S n bs i)
     = td_offset (spec_chunk buf cfh off S n bs (i + 1))) /\
  td_offset (spec_chunk buf cfh off S n bs (n - 1))
  + td_size (spec_chunk buf cfh off S n bs (n - 1)) = off + S /\
  (forall i, 0 <= i < n -> 0 <= td_size (spec_chunk buf cfh off S n bs i)).
Proof.
  intros Hn HS. unfold spec_chunk.
  cbn [td_offset td_size].
  pose proof (Z.div_mod S n ltac:(lia)) as Hdm.
  pose proof (Z.mod_pos_bound S n ltac:(lia)) as Hmod.
  assert (Hdiv : 0 <= S / n) by (apply Z.div_pos; lia).
  split; [ lia | ].
  split.
  { intros i Hi. destruct (Z.eqb_spec i (n - 1)); lia. }
  split.
  { rewrite Z.eqb_refl. lia. }
  intros i Hi. destruct (i =? n - 1); lia.
Qed.

(** Three pages and ten bytes on three threads: three workers, the last
    one with the remainder. *)
Example partition_three_workers :
  map (fun td => (td_offset td, td_devPtr_offset td, td_size td))
    (partition device_buf 7 100 (3 * 4096 + 10) 3 4096) =
  [(100, 0, 4099); (4199, 4099, 4099); (8298, 8198, 4100)].
Proof. reflexivity. Qed.




(** The same round trip, evaluated: one worker moves the ten bytes in
    blocks of four. *)
Example ten_bytes_round_trip_evaluated :
  write_then_read SSIZET_MAX 20 (fresh_file 3 4) loaded_world
    100 10 device_buf device_buf2 =
  Some (SUCCEED, SUCCEED, ten_bytes,
        [call_cuFileBufRegister device_buf 10 0;
         call_cuFileWrite 7 device_buf 4 100 0 4;
         call_cuFileWrite 7 device_buf 4 104 4 4;
         call_cuFileWrite 7 device_buf 2 108 8 2;
         call_cuFileBufDeregister device_buf 0]).
Proof. vm_compute. reflexivity. Qed.

(** Why no transfer may fall short: a worker advances by a whole block
    whatever the transfer returned.  When the first write of four bytes
    moves two, both calls succeed and the bytes at 102 and 103 are
    lost. *)
Example short_transfer_breaks_the_round_trip :
  write_then_read SSIZET_MAX 20 (fresh_file 3 4)
    (set_script loaded_world [Normal; Partial 2]) 100 10
    device_buf device_buf2 =
  Some (SUCCEED, SUCCEED,
        [x61; x62; x00; x00; x65; x66; x67; x68; x69; x6a],
        [call_cuFileBufRegister device_buf 10 0;
         call_cuFileWrite 7 device_buf 4 100 0 2;
         call_cuFileWrite 7 device_buf 4 104 4 4;
         call_cuFileWrite 7 device_buf 2 108 8 2;
         call_cuFileBufDeregister device_buf 0]).
Proof. vm_compute. reflexivity. Qed.

(** ** The physical end stays a file size *)

Lemma done_io_eof rv f : eof (done_io rv f) = eof f.
Proof. unfold done_io. destruct (rv <? 0); reflexivity. Qed.

Lemma read_body_eof max_io fuel f w addr size_ buf rv f1 w1 :
  read_body max_io fuel f w addr size_ buf = Returned (rv, f1, w1) ->
  eof f1 = eof f.
Proof.
  unfold read_body. intros H.
  destruct (buf =? NULL); [ discriminate | ].
  destruct (negb (H5F_addr_defined addr)).
  { injection H as _ <- _. reflexivity. }
  destruct (REGION_OVERFLOW addr size_).
  { injection H as _ <- _. reflexivity. }
  destruct (negb (is_device_pointer w buf =? 0)).
  - destruct (cuFileBufRegister w buf size_ 0) as [st w2].
    destruct (negb (st =? CU_FILE_SUCCESS)).
    { injection H as _ <- _. reflexivity. }
    destruct (device_transfer (read_thread_fn fuel) cuFileRead f w2
                (s64 addr) size_ buf) as [ w3 | | ]; try discriminate.
    destruct (cuFileBufDeregister w3 buf) as [st' w4].
    destruct (negb (st' =? CU_FILE_SUCCESS));
      injection H as _ <- _; reflexivity.
  - destruct (read_loop max_io fuel f w addr size_ buf (s64 addr))
      as [ [[a | r] w2] | | ]; try discriminate;
      injection H as _ <- _; reflexivity.
Qed.

Lemma write_body_eof max_io fuel f w addr size_ buf rv f1 w1 :
  0 <= addr < 2 ^ 64 -> 0 <= size_ < 2 ^ 64 ->
  write_body max_io fuel f w addr size_ buf = Returned (rv, f1, w1) ->
  eof f1 = eof f \/ (eof f1 = addr + size_ /\ addr + size_ <= MAXADDR).
Proof.
  intros Haddr Hsize. unfold write_body. intros H.
  destruct (buf =? NULL); [ discriminate | ].
  destruct (negb (H5F_addr_defined addr)).
  { injection H as _ <- _. left. reflexivity. }
  destruct (REGION_OVERFLOW addr size_) eqn:Hov.
  { injection H as _ <- _. left. reflexivity. }
  apply REGION_OVERFLOW_false in Hov; [ | assumption | assumption ].
  destruct (negb (is_device_pointer w buf =? 0)).
  - destruct (cuFileBufRegister w buf size_ 0) as [st w2].
    destruct (negb (st =? CU_FILE_SUCCESS)).
    { injection H as _ <- _. left. reflexivity. }
    destruct (device_transfer (write_thread_fn fuel) cuFileWrite f w2
                (s64 addr) size_ buf) as [ w3 | | ]; try discriminate.
    destruct (cuFileBufDeregister w3 buf) as [st' w4].
    destruct (negb (st' =? CU_FILE_SUCCESS));
      injection H as _ <- _; left; reflexivity.
  - destruct (write_loop max_io fuel f w addr size_ buf (s64 addr))
      as [ [[a | r] w2] | | ] eqn:Hloop; try discriminate.
    + rewrite MAXADDR_value in Hov.
      apply write_loop_fell_through in Hloop; [ | lia | lia | lia ].
      subst a. simpl in H.
      destruct (Z.gtb_spec (addr + size_) (eof f)) as [Hgt | Hle];
        injection H as _ <- _; simpl.
      * right. rewrite MAXADDR_value. split; [ reflexivity | lia ].
      * left. reflexivity.
    + injection H as _ <- _. left. reflexivity.
Qed.

(** X1.  A request that returns leaves the physical end of the handle a file
    size, between zero and [MAXADDR], when it was one before. *)
Lemma io_keeps_eof_a_size d max_io fuel f w addr size_ buf r f' w' :
  0 <= addr < 2 ^ 64 -> 0 <= size_ < 2 ^ 64 ->
  eof_is_size f ->
  H5FD_gds_io d max_io fuel f w addr size_ buf = Returned (r, f', w') ->
  eof_is_size f'.
Proof.
  intros Haddr Hsize Hf Hrun. unfold eof_is_size in *.
  destruct d; simpl in Hrun.
  - unfold H5FD_gds_read in Hrun.
    destruct (read_body max_io fuel f w addr size_ buf)
      as [ [[rv f1] w1] | | ] eqn:Hbody; try discriminate.
    injection Hrun as _ <- _.
    apply read_body_eof in Hbody. rewrite done_io_eof, Hbody. exact Hf.
  - unfold H5FD_gds_write in Hrun.
    destruct (write_body max_io fuel f w addr size_ buf)
      as [ [[rv f1] w1] | | ] eqn:Hbody; try discriminate.
    injection Hrun as _ <- _.
    apply write_body_eof in Hbody; [ | assumption | assumption ].
    rewrite done_io_eof.
    destruct Hbody as [-> | [-> Hle]]; lia.
Qed.

(** X2.  A truncation leaves the physical end of the handle a file size,
    between zero and [MAXADDR], when it was one before, whether it
    succeeds or fails and whatever the address comparison answers. *)
Lemma truncate_keeps_eof_a_size H5F_addr_eq f w r f' w' :
  0 <= eoa f < 2 ^ 64 ->
  eof_is_size f ->
  H5FD_gds_truncate H5F_addr_eq f w = (r, f', w') ->
  eof_is_size f'.
Proof.
  intros Heoa Hf. unfold eof_is_size in *. unfold H5FD_gds_truncate.
  destruct (negb (H5F_addr_eq (eoa f) (eof f))).
  - destruct (HDftruncate w (fd f) (s64 (eoa f))) as [r1 w1] eqn:Htr.
    apply HDftruncate_spec in Htr.
    destruct Htr as [-> | (-> & Hlen & _)]; simpl; intros H;
      injection H as _ <- _.
    + exact Hf.
    + simpl. pose proof (s64_nonneg (eoa f) Heoa Hlen) as Hs.
      rewrite MAXADDR_value.
      destruct (Z_lt_ge_dec (eoa f) (2 ^ 63)) as [Hlt | Hge]; [ lia | ].
      exfalso. unfold s64 in Hs.
      replace (eoa f + 2 ^ 63) with (eoa f - 2 ^ 63 + 1 * 2 ^ 64) in Hs
        by lia.
      rewrite Z.mod_add in Hs by lia.
      rewrite Z.mod_small in Hs; lia.
  - intros H. injection H as _ <- _. exact Hf.
Qed.

(** With the physical end a file size, nothing need be said of the
    sentinel: equal ends make truncate do nothing. *)
Corollary truncate_noop_on_a_sized_file
  (H5F_addr_eq : haddr_t -> haddr_t -> bool)
  (H5F_addr_eq_refl : forall x, x <> HADDR_UNDEF -> H5F_addr_eq x x = true)
  (f : H5FD_gds_t) (w : World) :
  eof_is_size f -> eoa f = eof f ->
  H5FD_gds_truncate H5F_addr_eq f w = (SUCCEED, f, w).
Proof.
  intros [Hlo Hhi] Heq. unfold H5FD_gds_truncate.
  rewrite MAXADDR_value in Hhi.
  rewrite Heq, H5F_addr_eq_refl; [ reflexivity | ].
  rewrite HADDR_UNDEF_value. lia.
Qed.

(** ** The fallback write, byte by byte *)

(** One positioned write: an error that leaves the file alone, or some
    of the bytes, at least one of them when any were asked for. *)
Lemma file_write_spec w src count off n w' :
  0 <= off -> 0 <= count ->
  file_write w src count off = (n, w') ->
  same_runtime w w' /\ mem w' = mem w /\
  script w' = tl (script w) /\ calls w' = calls w /\
  ((exists e, hd Normal (script w) = Error e /\ n = -1 /\
              errno w' = Z.pos e /\ same_file w w') \/
   (benign (hd Normal (script w)) = true /\
    0 <= n <= count /\ (0 < count -> 0 < n) /\
    (forall a, file_byte w' a =
               if in_range off n a then mem w (src + (a - off))
               else file_byte w a) /\
    fsize w' = (if n >? 0 then Z.max (fsize w) (off + n) else fsize w))).
Proof.
  intros Hoff Hcount. unfold file_write, next_outcome.
  destruct (script w) as [ | [ | e | k ] rest ] eqn:Hs; simpl;
    destruct (Z.ltb_spec off 0) as [Hneg | _]; try lia;
    intros H; injection H as <- <-; simpl; rewrite ?Hs; simpl;
    (split; [ split; reflexivity | ]);
    (split; [ reflexivity | ]);
    (split; [ reflexivity | ]);
    (split; [ reflexivity | ]).
  - right. split; [ reflexivity | ].
    rewrite Z.max_r by lia.
    split; [ lia | ]. split; [ lia | ].
    split; [ | reflexivity ].
    intros a. apply file_byte_copy_mem_to_file; lia.
  - right. split; [ reflexivity | ].
    rewrite Z.max_r by lia.
    split; [ lia | ]. split; [ lia | ].
    split; [ | reflexivity ].
    intros a.
    exact (file_byte_copy_mem_to_file (set_script w rest) src off count a
             Hoff Hcount).
  - left. exists e. repeat split; reflexivity.
  - right. split; [ reflexivity | ].
    rewrite Z.max_r by lia.
    split; [ lia | ]. split; [ lia | ].
    split; [ | reflexivity ].
    intros a.
    exact (file_byte_copy_mem_to_file (set_script w rest) src off
             (Z.min (Z.pos k) count) a Hoff ltac:(lia)).
Qed.

Lemma pwrite_retry_spec fd_ buf count off :
  0 <= off -> 0 <= count ->
  forall fuel w, (length (script w) < fuel)%nat ->
  exists n off1 w',
    pwrite_retry fuel w fd_ buf count off = Returned (n, off1, w') /\
    same_runtime w w' /\ mem w' = mem w /\
    (length (script w') <= length (script w))%nat /\
    (forallb benign (script w) = true -> forallb benign (script w') = true) /\
    ((n = -1 /\ forallb benign (script w) = false) \/
     (0 <= n <= count /\ (0 < count -> 0 < n) /\
      off1 = (if n >? 0 then s64 (off + n) else off) /\
      (forall a, file_byte w' a =
                 if in_range off n a then mem w (buf + (a - off))
                 else file_byte w a) /\
      fsize w' = (if n >? 0 then Z.max (fsize w) (off + n) else fsize w))).
Proof.
  intros Hoff Hcount.
  induction fuel as [ | fuel IH ]; intros w Hlen; [ lia | ].
  simpl. unfold HDpwrite.
  destruct (file_write w buf count off) as [n0 w0] eqn:Hfw.
  apply (file_write_spec _ _ _ _ _ _ Hoff Hcount) in Hfw.
  destruct Hfw as (Hrt & Hmem & Hscr & Hcalls &
                   [ (e & Hhd & -> & Herrno & Hsf)
                   | (Hben & Hn & Hn0 & Hfile & Hfs) ]).
  - unfold log at 1. simpl. rewrite Herrno.
    destruct (script w) as [ | r0 rest ] eqn:Hs; [ discriminate Hhd | ].
    simpl in Hhd. subst r0. simpl in Hscr.
    destruct (Z.eqb_spec (Z.pos e) EINTR) as [Hintr | Hhard].
    + set (c := call_pwrite fd_ buf count off (-1)).
      destruct (IH (log w0 c)) as (n & off1 & w' & Hrun & Hrt' & Hmem' &
                                   Hlen' & Hben' & Hres).
      { simpl. rewrite Hscr. simpl in Hlen. lia. }
      exists n, off1, w'.
      split; [ exact Hrun | ].
      split; [ eapply same_runtime_trans; [ exact Hrt | exact Hrt' ] | ].
      assert (Hsf0 : same_file w (log w0 c)) by exact Hsf.
      change (script (log w0 c)) with (script w0) in Hlen', Hben', Hres.
      change (mem (log w0 c)) with (mem w0) in Hmem', Hres.
      rewrite Hscr in *.
      split; [ congruence | ].
      split; [ simpl; lia | ].
      split.
      { simpl. intros Hb. apply andb_true_iff in Hb. apply Hben', Hb. }
      destruct Hres as [ (-> & Hnb) | (Hn & Hn0 & Hoff1 & Hfile & Hfs) ].
      * left. split; [ reflexivity | ].
        simpl. rewrite Hnb. apply andb_false_r.
      * right.
        split; [ exact Hn | ]. split; [ exact Hn0 | ].
        split; [ exact Hoff1 | ].
        destruct Hsf0 as [Hsz Hdat].
        split.
        -- intros a. rewrite Hfile, Hmem.
           rewrite (file_byte_same_file w (log w0 c)) by (split; assumption).
           reflexivity.
        -- rewrite Hfs, Hsz. reflexivity.
    + exists (-1), off, (log w0 (call_pwrite fd_ buf count off (-1))).
      split; [ reflexivity | ].
      split; [ exact Hrt | ]. split; [ exact Hmem | ].
      assert (Hnb : forallb benign (Error e :: rest) = false).
      { change (forallb benign (Error e :: rest))
          with ((Z.pos e =? EINTR) && forallb benign rest).
        rewrite (proj2 (Z.eqb_neq _ _) Hhard). reflexivity. }
      change (script (log w0 (call_pwrite fd_ buf count off (-1))))
        with (script w0).
      rewrite Hscr.
      split; [ simpl; lia | ].
      split; [ rewrite Hnb; discriminate | ].
      left. split; [ reflexivity | exact Hnb ].
  - destruct (Z.eqb_spec n0 (-1)) as [Hm1 | _]; [ lia | ].
    simpl.
    exists n0, (if n0 >? 0 then s64 (off + n0) else off),
      (log w0 (call_pwrite fd_ buf count off n0)).
    split; [ reflexivity | ].
    split; [ exact Hrt | ]. split; [ exact Hmem | ].
    simpl. rewrite Hscr.
    split; [ apply length_tl_le | ].
    split; [ apply forallb_tl | ].
    right. split; [ exact Hn | ]. split; [ exact Hn0 | ].
    split; [ reflexivity | ]. split; [ exact Hfile | exact Hfs ].
Qed.

(** The fallback write loop: it fails on a scheduled hard error, or the
    file holds the whole buffer at the address. *)
Lemma write_loop_spec max_io file :
  0 < max_io ->
  forall fuel w addr size_ buf,
    0 <= addr -> 0 <= size_ -> addr + size_ < 2 ^ 63 ->
    Z.of_nat (length (script w)) + size_ < Z.of_nat fuel ->
    exists e w',
      write_loop max_io fuel file w addr size_ buf addr = Returned (e, w') /\
      same_runtime w w' /\ mem w' = mem w /\
      (length (script w') <= length (script w))%nat /\
      (forallb benign (script w) = true ->
       forallb benign (script w') = true) /\
      ((e = Goto_done FAIL /\ forallb benign (script w) = false) \/
       (e = Fell_through (addr + size_) /\
        (forall a, file_byte w' a =
                   if in_range addr size_ a then mem w (buf + (a - addr))
                   else file_byte w a) /\
        fsize w' = (if size_ >? 0 then Z.max (fsize w) (addr + size_)
                    else fsize w))).
Proof.
  intros Hmax. induction fuel as [ | fuel IH ];
    intros w addr size_ buf Haddr Hsize Hsum Hfuel; [ lia | ].
  simpl.
  destruct (Z.gtb_spec size_ 0) as [Hpos | Hzero].
  - set (bytes_in := if size_ >? max_io then max_io else size_).
    assert (Hin : 0 < bytes_in <= size_).
    { unfold bytes_in. destruct (Z.gtb_spec size_ max_io); lia. }
    destruct (pwrite_retry_spec (fd file) buf bytes_in addr Haddr
                ltac:(lia) fuel w)
      as (n & off1 & w1 & Hrun & Hrt & Hmem & Hlen & Hben & Hres);
      [ lia | ].
    rewrite Hrun.
    destruct Hres as [ (-> & Hnb) | (Hn & Hn0 & Hoff1 & Hfile & Hfs) ].
    + exists (Goto_done FAIL), w1.
      split; [ reflexivity | ].
      split; [ exact Hrt | ]. split; [ exact Hmem | ].
      split; [ exact Hlen | ]. split; [ exact Hben | ].
      left. split; [ reflexivity | exact Hnb ].
    + specialize (Hn0 ltac:(lia)).
      destruct (Z.eqb_spec n (-1)) as [Hm1 | _]; [ lia | ].
      destruct (Z.gtb_spec n 0) as [_ | Hbad]; [ | lia ].
      cbn [negb].
      rewrite (u64_small n) by lia.
      destruct (Z.leb_spec n size_) as [_ | Hgt]; [ | lia ].
      cbn [negb].
      rewrite (u64_small (addr + n)), (u64_small (size_ - n)) by lia.
      assert (Hoff1' : off1 = addr + n).
      { rewrite Hoff1. apply s64_small. lia. }
      rewrite Hoff1'.
      destruct (IH w1 (addr + n) (size_ - n) (buf + n))
        as (e & w' & Hrun' & Hrt' & Hmem' & Hlen' & Hben' & Hres');
        try lia.
      exists e, w'.
      split; [ exact Hrun' | ].
      split; [ eapply same_runtime_trans; eassumption | ].
      split; [ congruence | ].
      split; [ lia | ].
      split; [ intros Hb; apply Hben', Hben, Hb | ].
      destruct Hres' as [ (-> & Hnb) | (-> & Hfile' & Hfs') ].
      { left. split; [ reflexivity | ].
        destruct (forallb benign (script w)); [ | reflexivity ].
        rewrite Hben in Hnb by reflexivity. discriminate. }
      right.
      split; [ f_equal; lia | ].
      split.
      * intros a. rewrite Hfile', Hfile, Hmem.
        destruct (in_range (addr + n) (size_ - n) a) eqn:Hr2;
          destruct (in_range addr n a) eqn:Hr1;
          destruct (in_range addr size_ a) eqn:Hr;
          rewrite ?in_range_true, ?in_range_false in *;
          try lia; try reflexivity.
        f_equal. lia.
      * rewrite Hfs', Hfs.
        destruct (Z.gtb_spec (size_ - n) 0); destruct (Z.gtb_spec n 0); lia.
  - exists (Fell_through addr), w.
    split; [ reflexivity | ].
    split; [ split; reflexivity | ]. split; [ reflexivity | ].
    split; [ lia | ]. split; [ trivial | ].
    right. split; [ f_equal; lia | ].
    split; [ | reflexivity ].
    intros a. replace size_ with 0 by lia. rewrite in_range_empty.
    reflexivity.
Qed.

(** X3.  Round trip on the fallback path: with nothing but interruptions and
    short transfers scheduled, a write of [S] bytes from a host buffer at
    address [A] followed by a read of [S] bytes at [A] into a host buffer
    yields the bytes written; the write leaves the cursor at the end of
    the request and raises the physical end to it. *)
Theorem fallback_round_trip max_io fuel f w A S src dst :
  0 < max_io ->
  src <> NULL -> dst <> NULL ->
  is_device_pointer w src = 0 -> is_device_pointer w dst = 0 ->
  0 <= A -> 0 <= S -> A + S <= MAXADDR ->
  forallb benign (script w) = true ->
  Z.of_nat (length (script w)) + S < Z.of_nat fuel ->
  exists f1 w1 f2 w2,
    H5FD_gds_write max_io fuel f w A S src = Returned (SUCCEED, f1, w1) /\
    H5FD_gds_read max_io fuel f1 w1 A S dst = Returned (SUCCEED, f2, w2) /\
    (forall i, 0 <= i < S -> mem w2 (dst + i) = mem w (src + i)) /\
    pos f1 = A + S /\ op f1 = OP_WRITE /\
    eof f1 = Z.max (eof f) (A + S).
Proof.
  intros Hmax Hsrc Hdst Hhsrc Hhdst HA HS Hfit Hben Hfuel.
  destruct (valid_region_checks A S HA HS Hfit) as (Hdef & Hov & Hoff).
  rewrite MAXADDR_value in Hfit.
  destruct (write_loop_spec max_io f Hmax fuel w A S src HA HS ltac:(lia)
              Hfuel)
    as (e & w1 & Hwl & Hrt1 & Hmem1 & Hlen1 & Hben1 & Hres1).
  destruct Hres1 as [ (_ & Hnb) | (-> & Hfile1 & Hfs1) ];
    [ rewrite Hben in Hnb; discriminate | ].
  set (f1 := if A + S >? eof f
             then set_eof_field (set_pos_op f (A + S) OP_WRITE) (A + S)
             else set_pos_op f (A + S) OP_WRITE).
  assert (Hwrite : H5FD_gds_write max_io fuel f w A S src
                   = Returned (SUCCEED, f1, w1)).
  { unfold H5FD_gds_write, write_body.
    destruct (Z.eqb_spec src NULL) as [Hnull | _]; [ contradiction | ].
    rewrite Hdef, Hov, Hoff, Hhsrc, Z.eqb_refl. cbn [negb].
    rewrite Hwl. cbn [pos eof set_pos_op].
    rewrite done_io_success by (unfold SUCCEED; lia). reflexivity. }
  destruct (read_loop_spec max_io f1 Hmax fuel w1 A S dst HA HS ltac:(lia)
              ltac:(lia))
    as (e & w2 & issued & Hrl & Hrt2 & Hsf2 & Hcalls2 & Hres2).
  destruct Hres2 as [ (_ & Hnb & _) | (-> & Hmem2) ];
    [ rewrite (Hben1 Hben) in Hnb; discriminate | ].
  eexists f1, w1, _, w2.
  split; [ exact Hwrite | ].
  split.
  { unfold H5FD_gds_read, read_body.
    destruct (Z.eqb_spec dst NULL) as [Hnull | _]; [ contradiction | ].
    rewrite Hdef, Hov, Hoff.
    rewrite (is_device_pointer_same_runtime w w1) by exact Hrt1.
    rewrite Hhdst, Z.eqb_refl. cbn [negb].
    rewrite Hrl.
    rewrite done_io_success by (unfold SUCCEED; lia). reflexivity. }
  split.
  { intros i Hi. rewrite Hmem2.
    destruct (in_range dst S (dst + i)) eqn:Hr.
    - rewrite Hfile1.
      destruct (in_range A S (A + (dst + i - dst))) eqn:Hr'.
      + f_equal. lia.
      + apply in_range_false in Hr'. lia.
    - apply in_range_false in Hr. lia. }
  unfold f1.
  destruct (Z.gtb_spec (A + S) (eof f)); simpl;
    (split; [ reflexivity | ]); (split; [ reflexivity | ]); lia.
Qed.

(** The example scenario, evaluated on the fallback path and on the
    accelerator-direct path. *)
Example scenario_on_host_buffers :
  scenario host_loaded_world host_buf host_buf2 =
  (SUCCEED, 16,
   Some (SUCCEED, SUCCEED, ten_bytes, [call_pwrite 3 host_buf 10 0 10])).
Proof. vm_compute. reflexivity. Qed.

Example scenario_on_device_buffers :
  scenario loaded_world device_buf device_buf2 =
  (SUCCEED, 16,
   Some (SUCCEED, SUCCEED, ten_bytes,
         [call_cuFileBufRegister device_buf 10 0;
          call_cuFileWrite 7 device_buf 10 0 0 10;
          call_cuFileBufDeregister device_buf 0])).
Proof. vm_compute. reflexivity. Qed.

(** ** Requests that never reach a transfer *)

(** A region that does not fit below [MAXADDR], the undefined address
    included, is refused. *)
Lemma region_beyond_MAXADDR A Z_ :
  0 <= A < 2 ^ 64 -> 0 <= Z_ < 2 ^ 64 -> MAXADDR < A + Z_ ->
  H5F_addr_defined A = false \/ REGION_OVERFLOW A Z_ = true.
Proof.
  intros HA HZ Hbig.
  destruct (REGION_OVERFLOW A Z_) eqn:Hover.
  - right. reflexivity.
  - apply REGION_OVERFLOW_false in Hover; [ lia | assumption | assumption ].
Qed.

(** X4.  A request whose region does not fit below [MAXADDR] fails before
    anything is called: the world is as it was, and the cursor and the
    last operation of the handle are forgotten. *)
Theorem invalid_region_is_rejected_without_io
  (d : io_direction) (max_io : Z) (fuel : nat) (f : H5FD_gds_t) (w : World)
  (addr size_ buf : Z) :
  0 <= addr < 2 ^ 64 -> 0 <= size_ < 2 ^ 64 -> buf <> NULL ->
  MAXADDR < addr + size_ ->
  H5FD_gds_io d max_io fuel f w addr size_ buf =
  Returned (FAIL, set_pos_op f HADDR_UNDEF OP_UNKNOWN, w).
Proof.
  intros Ha Hs Hbuf Hbig.
  assert (Hnull : (buf =? NULL) = false) by (apply Z.eqb_neq; exact Hbuf).
  destruct (region_beyond_MAXADDR addr size_ Ha Hs Hbig) as [Hdef | Hover];
    destruct d; unfold H5FD_gds_io, H5FD_gds_read, H5FD_gds_write,
      read_body, write_body;
    rewrite Hnull.
  - rewrite Hdef. reflexivity.
  - rewrite Hdef. reflexivity.
  - rewrite Hover. destruct (H5F_addr_defined addr); reflexivity.
  - rewrite Hover. destruct (H5F_addr_defined addr); reflexivity.
Qed.

Lemma invalid_region_is_rejected_without_io_witness :
  H5FD_gds_io io_write SSIZET_MAX 20
    (set_pos_op (fresh_file 0 0) 100 OP_WRITE) host_loaded_world
    (2 ^ 63 - 4) 10 host_buf =
  Returned (FAIL, fresh_file 0 0, host_loaded_world).
Proof.
  apply (invalid_region_is_rejected_without_io io_write SSIZET_MAX 20
           (set_pos_op (fresh_file 0 0) 100 OP_WRITE) host_loaded_world
           (2 ^ 63 - 4) 10 host_buf).
  - lia.
  - lia.
  - unfold host_buf, NULL. lia.
  - rewrite MAXADDR_value. lia.
Defined.

(** A transfer primitive asked for no bytes moves none. *)
Lemma file_read_nothing w dst off n w' :
  file_read w dst 0 off = (n, w') -> n <= 0.
Proof.
  intros H. apply file_read_ret in H. lia.
Qed.

Lemma file_write_nothing w src off n w' :
  file_write w src 0 off = (n, w') -> n <= 0.
Proof.
  intros H. apply file_write_ret in H. lia.
Qed.

Lemma cuFileRead_nothing w fh devPtr off devoff :
  (fst (cuFileRead w fh devPtr 0 off devoff) >? 0) = false.
Proof.
  unfold cuFileRead.
  destruct (file_read w (devPtr + devoff) 0 off) as [n w1] eqn:H.
  apply file_read_nothing in H. simpl. lia.
Qed.

Lemma cuFileWrite_nothing w fh devPtr off devoff :
  (fst (cuFileWrite w fh devPtr 0 off devoff) >? 0) = false.
Proof.
  unfold cuFileWrite.
  destruct (file_write w (devPtr + devoff) 0 off) as [n w1] eqn:H.
  apply file_write_nothing in H. simpl. lia.
Qed.

(** The registration of a buffer succeeds unless an error is scheduled
    for it. *)
Lemma cuFileBufRegister_succeeds w buf size_ flags :
  (forall e, hd Normal (script w) <> Error e) ->
  fst (cuFileBufRegister w buf size_ flags) = CU_FILE_SUCCESS.
Proof.
  intros H. unfold cuFileBufRegister, next_outcome.
  destruct (script w) as [ | r rest ]; [ reflexivity | ].
  destruct r; try reflexivity.
  exfalso. apply (H e). reflexivity.
Qed.

(** X5.  A request for no bytes on a host buffer succeeds without a call: the
    world is as it was.  The cursor moves to the address of the request,
    and a write raises the physical end to it when it lies beyond, though
    the file has not grown. *)
Theorem empty_host_request_issues_no_call
  (d : io_direction) (max_io : Z) (fuel : nat) (f : H5FD_gds_t) (w : World)
  (addr buf : Z) :
  buf <> NULL -> is_device_pointer w buf = 0 -> 0 <= addr <= MAXADDR ->
  (0 < fuel)%nat ->
  H5FD_gds_io d max_io fuel f w addr 0 buf =
  Returned (SUCCEED,
            match d with
            | io_read => set_pos_op f addr OP_READ
            | io_write =>
                if addr >? eof f
                then set_eof_field (set_pos_op f addr OP_WRITE) addr
                else set_pos_op f addr OP_WRITE
            end, w).
Proof.
  intros Hbuf Hhost Ha Hfuel.
  assert (Hnull : (buf =? NULL) = false) by (apply Z.eqb_neq; exact Hbuf).
  destruct (valid_region_checks addr 0) as (Hdef & Hover & _);
    [ lia | lia | lia | ].
  destruct fuel as [ | fuel' ]; [ lia | ].
  destruct d; unfold H5FD_gds_io, H5FD_gds_read, H5FD_gds_write,
    read_body, write_body;
    rewrite Hnull, Hdef, Hover, Hhost; simpl.
  - reflexivity.
  - destruct (addr >? eof f); reflexivity.
Qed.

Lemma empty_host_request_issues_no_call_witness :
  H5FD_gds_io io_write SSIZET_MAX 1 (fresh_file 0 0) quiet_world
    4096 0 host_buf =
  Returned (SUCCEED,
            set_eof_field (set_pos_op (fresh_file 0 0) 4096 OP_WRITE) 4096,
            quiet_world) /\
  fsize quiet_world = 0.
Proof.
  split.
  - apply (empty_host_request_issues_no_call io_write SSIZET_MAX 1
             (fresh_file 0 0) quiet_world 4096 host_buf).
    + unfold host_buf, NULL. lia.
    + reflexivity.
    + rewrite MAXADDR_value. lia.
    + lia.
  - reflexivity.
Defined.

(** X6.  A request for no bytes on a device buffer never returns, unless the
    registration of the buffer fails: with workers the request asserts a
    size other than zero, and without them the single transfer of no
    bytes fails the assertion on its result. *)
Theorem empty_device_request_aborts
  (d : io_direction) (max_io : Z) (fuel : nat) (f : H5FD_gds_t) (w : World)
  (addr buf : Z) :
  buf <> NULL -> is_device_pointer w buf <> 0 -> 0 <= addr <= MAXADDR ->
  (forall e, hd Normal (script w) <> Error e) ->
  H5FD_gds_io d max_io fuel f w addr 0 buf = Aborted.
Proof.
  intros Hbuf Hdev Ha Hreg.
  assert (Hnull : (buf =? NULL) = false) by (apply Z.eqb_neq; exact Hbuf).
  assert (Hd : negb (is_device_pointer w buf =? 0) = true).
  { apply negb_true_iff. apply Z.eqb_neq. exact Hdev. }
  destruct (valid_region_checks addr 0) as (Hdef & Hover & _);
    [ lia | lia | lia | ].
  pose proof (cuFileBufRegister_succeeds w buf 0 0 Hreg) as Hst.
  destruct d; unfold H5FD_gds_io, H5FD_gds_read, H5FD_gds_write,
    read_body, write_body;
    rewrite Hnull, Hdef, Hover, Hd; simpl;
    destruct (cuFileBufRegister w buf 0 0) as [st w1];
    simpl in Hst; subst st; simpl;
    unfold device_transfer;
    destruct (num_io_threads f >? 0); simpl; try reflexivity.
  - pose proof (cuFileRead_nothing w1 (cf_handle f) buf (s64 addr) 0) as Hr.
    destruct (cuFileRead w1 (cf_handle f) buf 0 (s64 addr) 0) as [ret w2].
    simpl in Hr. rewrite Hr. reflexivity.
  - pose proof (cuFileWrite_nothing w1 (cf_handle f) buf (s64 addr) 0) as Hr.
    destruct (cuFileWrite w1 (cf_handle f) buf 0 (s64 addr) 0) as [ret w2].
    simpl in Hr. rewrite Hr. reflexivity.
Qed.

Lemma empty_device_request_aborts_witness :
  H5FD_gds_io io_read SSIZET_MAX 20 (fresh_file 2 4096) ten_byte_file_world
    0 0 device_buf = Aborted.
Proof.
  apply (empty_device_request_aborts io_read SSIZET_MAX 20 (fresh_file 2 4096)
           ten_byte_file_world 0 device_buf).
  - unfold device_buf, NULL. lia.
  - vm_compute. discriminate.
  - rewrite MAXADDR_value. lia.
  - intros e. simpl. discriminate.
Defined.

(** ** A block size that converts to zero *)




(** ** Truncations that fail, and truncations that repeat *)

(** X8.  A truncation that fails leaves the handle, the file and the memory
    as they were. *)
Theorem failed_truncate_changes_nothing
  (H5F_addr_eq : haddr_t -> haddr_t -> bool)
  (f : H5FD_gds_t) (w : World) (r : herr_t) (f' : H5FD_gds_t) (w' : World) :
  H5FD_gds_truncate H5F_addr_eq f w = (r, f', w') ->
  r < 0 ->
  f' = f /\ fsize w' = fsize w /\
  (forall a, file_byte w' a = file_byte w a) /\ mem w' = mem w.
Proof.
  unfold H5FD_gds_truncate. intros H Hr.
  destruct (H5F_addr_eq (eoa f) (eof f)); simpl in H.
  - injection H as <- _ _. unfold SUCCEED in Hr. lia.
  - unfold HDftruncate, next_outcome in H.
    destruct (script w) as [ | o rest ];
      [ | destruct o ];
      try (destruct (s64 (eoa f) <? 0));
      simpl in H; injection H as <- <- <-;
      try (unfold SUCCEED in Hr; lia);
      (split; [ reflexivity | ]); (split; [ reflexivity | ]);
      (split; [ intros a; reflexivity | reflexivity ]).
Qed.

Lemma failed_truncate_changes_nothing_witness :
  let f := set_eoa_field (fresh_file 0 0) 4096 in
  exists w',
    H5FD_gds_truncate H5F_addr_eq_lib f failing_world = (FAIL, f, w') /\
    fsize w' = 0.
Proof.
  intros f.
  exists (snd (H5FD_gds_truncate H5F_addr_eq_lib f failing_world)).
  split; [ reflexivity | ].
  apply (failed_truncate_changes_nothing H5F_addr_eq_lib f failing_world
           FAIL f (snd (H5FD_gds_truncate H5F_addr_eq_lib f failing_world))).
  - reflexivity.
  - unfold FAIL. lia.
Defined.

(** X9.  [H5FD_gds_set_eoa] takes any address.  When the address does not fit
    the file-offset type, the truncation that follows asks the operating
    system for a negative length and fails; the file keeps its size and
    the handle keeps the physical end it had. *)
Theorem truncate_beyond_MAXADDR_fails
  (H5F_addr_eq : haddr_t -> haddr_t -> bool)
  (H5F_addr_eq_sound : forall x y, H5F_addr_eq x y = true -> x = y)
  (f : H5FD_gds_t) (w : World) (v : haddr_t) :
  MAXADDR < v < 2 ^ 64 -> v <> eof f ->
  exists w',
    H5FD_gds_truncate H5F_addr_eq (snd (H5FD_gds_set_eoa f v)) w
    = (FAIL, set_eoa_field f v, w') /\
    calls w' = calls w ++ [call_ftruncate (fd f) (v - 2 ^ 64) (-1)] /\
    fsize w' = fsize w /\ (forall a, file_byte w' a = file_byte w a).
Proof.
  intros Hv Hne. rewrite MAXADDR_value in Hv.
  unfold H5FD_gds_set_eoa, H5FD_gds_truncate. simpl snd.
  destruct (H5F_addr_eq (eoa (set_eoa_field f v)) (eof (set_eoa_field f v)))
    eqn:Heq.
  - apply H5F_addr_eq_sound in Heq. simpl in Heq. contradiction.
  - simpl negb. cbv iota.
    assert (Hs : s64 (eoa (set_eoa_field f v)) = v - 2 ^ 64).
    { simpl eoa. unfold s64.
      replace (v + 2 ^ 63) with ((v - 2 ^ 63) + 1 * 2 ^ 64) by lia.
      rewrite Z.mod_add by lia. rewrite Z.mod_small by lia. lia. }
    rewrite Hs.
    assert (Hneg : (v - 2 ^ 64 <? 0) = true) by lia.
    unfold HDftruncate, next_outcome.
    destruct (script w) as [ | o rest ]; [ | destruct o ];
      rewrite ?Hneg; simpl;
      (eexists; split; [ reflexivity | ]);
      (split; [ reflexivity | ]);
      (split; [ reflexivity | intros a; reflexivity ]).
Qed.

Lemma truncate_beyond_MAXADDR_fails_witness :
  exists w',
    H5FD_gds_truncate H5F_addr_eq_lib
      (snd (H5FD_gds_set_eoa (fresh_file 0 0) (2 ^ 63))) ten_byte_file_world
    = (FAIL, set_eoa_field (fresh_file 0 0) (2 ^ 63), w') /\
    fsize w' = 10.
Proof.
  destruct (truncate_beyond_MAXADDR_fails H5F_addr_eq_lib
              H5F_addr_eq_lib_sound (fresh_file 0 0) ten_byte_file_world
              (2 ^ 63)) as (w' & Hrun & _ & Hsize & _).
  - rewrite MAXADDR_value. lia.
  - simpl. lia.
  - exists w'. split; [ exact Hrun | exact Hsize ].
Defined.

(** X10.  Truncating twice is truncating once: after a truncation that
    succeeded, a second one returns at once, with the handle and the
    world as the first one left them. *)
Theorem truncate_is_idempotent
  (H5F_addr_eq : haddr_t -> haddr_t -> bool)
  (H5F_addr_eq_refl : forall x, x <> HADDR_UNDEF -> H5F_addr_eq x x = true)
  (f : H5FD_gds_t) (w : World) (r : herr_t) (f1 : H5FD_gds_t) (w1 : World) :
  eoa f <> HADDR_UNDEF ->
  H5FD_gds_truncate H5F_addr_eq f w = (r, f1, w1) ->
  0 <= r ->
  H5FD_gds_truncate H5F_addr_eq f1 w1 = (SUCCEED, f1, w1).
Proof.
  intros Hdef H Hr.
  unfold H5FD_gds_truncate in H.
  destruct (H5F_addr_eq (eoa f) (eof f)) eqn:Heq; cbn [negb] in H.
  - injection H as _ <- <-.
    unfold H5FD_gds_truncate. rewrite Heq. reflexivity.
  - destruct (HDftruncate w (fd f) (s64 (eoa f))) as [r0 w0].
    destruct (-1 =? r0).
    + injection H as <- _ _. unfold FAIL in Hr. lia.
    + injection H as _ <- <-.
      unfold H5FD_gds_truncate. simpl eoa. simpl eof.
      rewrite (H5F_addr_eq_refl (eoa f) Hdef). reflexivity.
Qed.

Lemma truncate_is_idempotent_witness :
  exists f1 w1,
    H5FD_gds_truncate H5F_addr_eq_lib (set_eoa_field (fresh_file 0 0) 4096)
      quiet_world = (SUCCEED, f1, w1) /\
    H5FD_gds_truncate H5F_addr_eq_lib f1 w1 = (SUCCEED, f1, w1) /\
    fsize w1 = 4096.
Proof.
  eexists. eexists.
  split; [ reflexivity | ].
  split; [ | reflexivity ].
  eapply (truncate_is_idempotent H5F_addr_eq_lib H5F_addr_eq_lib_refl
            (set_eoa_field (fresh_file 0 0) 4096) quiet_world SUCCEED).
  - rewrite HADDR_UNDEF_value. simpl. lia.
  - reflexivity.
  - unfold SUCCEED. lia.
Defined.

(** ** The physical end and the rest of the handle *)

Lemma io_keeps_eof_a_size_witness :
  exists f' w',
    H5FD_gds_io io_write SSIZET_MAX 20 (fresh_file 0 0) host_loaded_world
      100 10 host_buf = Returned (SUCCEED, f', w') /\
    eof_is_size f' /\ eof f' = 110.
Proof.
  eexists. eexists.
  split; [ reflexivity | ].
  split; [ | reflexivity ].
  eapply (io_keeps_eof_a_size io_write SSIZET_MAX 20 (fresh_file 0 0)
            host_loaded_world 100 10 host_buf).
  - lia.
  - lia.
  - unfold eof_is_size. rewrite MAXADDR_value. simpl. lia.
  - reflexivity.
Defined.

Lemma truncate_keeps_eof_a_size_witness :
  exists f' w',
    H5FD_gds_truncate H5F_addr_eq_lib (set_eoa_field (fresh_file 0 0) 4096)
      quiet_world = (SUCCEED, f', w') /\
    eof_is_size f' /\ eof f' = 4096.
Proof.
  eexists. eexists.
  split; [ reflexivity | ].
  split; [ | reflexivity ].
  eapply (truncate_keeps_eof_a_size H5F_addr_eq_lib
            (set_eoa_field (fresh_file 0 0) 4096) quiet_world).
  - simpl. lia.
  - unfold eof_is_size. rewrite MAXADDR_value. simpl. lia.
  - reflexivity.
Defined.

(** ** What a request leaves alone *)

Lemma done_io_frame rv f :
  done_io rv f = set_pos_op f (pos (done_io rv f)) (op (done_io rv f)).
Proof.
  unfold done_io. destruct (rv <? 0); destruct f; reflexivity.
Qed.

Lemma read_body_frame max_io fuel f w addr size_ buf rv f1 w1 :
  read_body max_io fuel f w addr size_ buf = Returned (rv, f1, w1) ->
  f1 = set_pos_op f (pos f1) (op f1).
Proof.
  unfold read_body. intros H.
  destruct (buf =? NULL); [ discriminate | ].
  destruct (negb (H5F_addr_defined addr));
    [ injection H as _ <- _; destruct f; reflexivity | ].
  destruct (REGION_OVERFLOW addr size_);
    [ injection H as _ <- _; destruct f; reflexivity | ].
  destruct (negb (is_device_pointer w buf =? 0)).
  - destruct (cuFileBufRegister w buf size_ 0) as [st wr].
    destruct (negb (st =? CU_FILE_SUCCESS));
      [ injection H as _ <- _; destruct f; reflexivity | ].
    destruct (device_transfer _ _ f wr (s64 addr) size_ buf)
      as [ w2 | | ]; try discriminate.
    destruct (cuFileBufDeregister w2 buf) as [st2 w3].
    destruct (negb (st2 =? CU_FILE_SUCCESS));
      injection H as _ <- _; destruct f; reflexivity.
  - destruct (read_loop max_io fuel f w addr size_ buf (s64 addr))
      as [ [ [ a | r ] w2 ] | | ]; try discriminate;
      injection H as _ <- _; destruct f; reflexivity.
Qed.

Lemma write_body_frame max_io fuel f w addr size_ buf rv f1 w1 :
  write_body max_io fuel f w addr size_ buf = Returned (rv, f1, w1) ->
  f1 = set_eof_field (set_pos_op f (pos f1) (op f1)) (eof f1) /\
  eof f <= eof f1.
Proof.
  unfold write_body. intros H.
  destruct (buf =? NULL); [ discriminate | ].
  destruct (negb (H5F_addr_defined addr));
    [ injection H as _ <- _; destruct f; split; [ reflexivity | simpl; lia ] | ].
  destruct (REGION_OVERFLOW addr size_);
    [ injection H as _ <- _; destruct f; split; [ reflexivity | simpl; lia ] | ].
  destruct (negb (is_device_pointer w buf =? 0)).
  - destruct (cuFileBufRegister w buf size_ 0) as [st wr].
    destruct (negb (st =? CU_FILE_SUCCESS));
      [ injection H as _ <- _; destruct f;
        split; [ reflexivity | simpl; lia ] | ].
    destruct (device_transfer _ _ f wr (s64 addr) size_ buf)
      as [ w2 | | ]; try discriminate.
    destruct (cuFileBufDeregister w2 buf) as [st2 w3].
    destruct (negb (st2 =? CU_FILE_SUCCESS));
      injection H as _ <- _; destruct f;
      (split; [ reflexivity | simpl; lia ]).
  - destruct (write_loop max_io fuel f w addr size_ buf (s64 addr))
      as [ [ [ a | r ] w2 ] | | ]; try discriminate.
    + simpl in H.
      destruct (Z.gtb_spec a (eof f)) as [Hgt | Hle];
        injection H as _ <- _; destruct f;
        (split; [ reflexivity | simpl in *; lia ]).
    + injection H as _ <- _. destruct f.
      split; [ reflexivity | simpl; lia ].
Qed.

(** X11.  A request changes nothing of the handle but the cursor, the last
    operation and the physical end: the descriptors, the cuFile handle,
    the worker settings, the allocated end and the identity of the file
    are as they were, also when the request fails.  A read leaves the
    physical end alone, and a write never lowers it. *)
Theorem io_changes_only_the_tracker
  (d : io_direction) (max_io : Z) (fuel : nat) (f : H5FD_gds_t) (w : World)
  (addr size_ buf : Z) (r : herr_t) (f' : H5FD_gds_t) (w' : World) :
  H5FD_gds_io d max_io fuel f w addr size_ buf = Returned (r, f', w') ->
  f' = set_eof_field (set_pos_op f (pos f') (op f')) (eof f') /\
  eof f <= eof f' /\
  (d = io_read -> eof f' = eof f).
Proof.
  intros H. destruct d; unfold H5FD_gds_io in H.
  - unfold H5FD_gds_read in H.
    destruct (read_body max_io fuel f w addr size_ buf)
      as [ [ [rv f1] w1 ] | | ] eqn:Hbody; try discriminate.
    injection H as _ <- _.
    pose proof (read_body_eof _ _ _ _ _ _ _ _ _ _ Hbody) as Heof.
    apply read_body_frame in Hbody.
    assert (Heof' : eof (done_io rv f1) = eof f)
      by (rewrite done_io_eof; exact Heof).
    split.
    + rewrite Heof'. rewrite (done_io_frame rv f1). rewrite Hbody.
      destruct f; reflexivity.
    + split; [ lia | intros _; exact Heof' ].
  - unfold H5FD_gds_write in H.
    destruct (write_body max_io fuel f w addr size_ buf)
      as [ [ [rv f1] w1 ] | | ] eqn:Hbody; try discriminate.
    injection H as _ <- _.
    apply write_body_frame in Hbody. destruct Hbody as [Hframe Hle].
    split.
    + rewrite done_io_eof. rewrite (done_io_frame rv f1).
      rewrite Hframe. destruct f; reflexivity.
    + split; [ rewrite done_io_eof; exact Hle | discriminate ].
Qed.

Lemma io_changes_only_the_tracker_witness :
  exists f' w',
    H5FD_gds_io io_write SSIZET_MAX 20 (fresh_file 2 4096) host_loaded_world
      100 10 host_buf = Returned (SUCCEED, f', w') /\
    f' = set_eof_field (set_pos_op (fresh_file 2 4096) (pos f') (op f'))
           (eof f') /\
    eof (fresh_file 2 4096) <= eof f' /\
    (io_write = io_read -> eof f' = eof (fresh_file 2 4096)).
Proof.
  eexists. eexists.
  split; [ reflexivity | ].
  eapply (io_changes_only_the_tracker io_write SSIZET_MAX 20
            (fresh_file 2 4096) host_loaded_world 100 10 host_buf).
  reflexivity.
Defined.

(** ** Round trips across the two paths *)

Lemma fallback_round_trip_witness :
  exists f1 w1 f2 w2,
    H5FD_gds_write SSIZET_MAX 20 (fresh_file 0 0)
      (set_script host_loaded_world [Error 4; Partial 3]) 100 10 host_buf
    = Returned (SUCCEED, f1, w1) /\
    H5FD_gds_read SSIZET_MAX 20 f1 w1 100 10 host_buf2
    = Returned (SUCCEED, f2, w2) /\
    (forall i, 0 <= i < 10 ->
               mem w2 (host_buf2 + i) = mem host_loaded_world (host_buf + i)) /\
    pos f1 = 100 + 10 /\ op f1 = OP_WRITE /\
    eof f1 = Z.max (eof (fresh_file 0 0)) (100 + 10).
Proof.
  apply (fallback_round_trip SSIZET_MAX 20 (fresh_file 0 0)
           (set_script host_loaded_world [Error 4; Partial 3]) 100 10
           host_buf host_buf2).
  - unfold SSIZET_MAX. lia.
  - unfold host_buf, NULL. lia.
  - unfold host_buf2, NULL. lia.
  - reflexivity.
  - reflexivity.
  - lia.
  - lia.
  - rewrite MAXADDR_value. lia.
  - reflexivity.
  - simpl. lia.
Defined.

(** ** Round trips across the two paths *)






(** ** The workers' ranges tile the request *)

Lemma tiles_spec_chunks buf cfh off S n bs :
  0 < n <= S ->
  forall k ii,
    0 <= ii -> ii + Z.of_nat k = n ->
    tiles (if ii =? n then off + S else off + ii * (S / n))
      (map (spec_chunk buf cfh off S n bs) (indices ii k)) (off + S).
Proof.
  intros Hn.
  assert (Hq : 0 < S / n) by (apply Z.div_str_pos; lia).
  pose proof (Z.mod_pos_bound S n ltac:(lia)) as Hm.
  pose proof (Z.div_mod S n ltac:(lia)) as Hdm.
  induction k as [ | k IH ]; intros ii Hii Hsum.
  - simpl. replace (ii =? n) with true by lia. reflexivity.
  - rewrite indices_cons by exact Hii. simpl map. simpl tiles.
    replace (ii =? n) with false by lia.
    split; [ reflexivity | ].
    split; [ destruct (ii =? n - 1); lia | ].
    specialize (IH (ii + 1) ltac:(lia) ltac:(lia)).
    destruct (Z.eqb_spec ii (n - 1)) as [Hlast | Hnot].
    + replace (ii + 1 =? n) with true in IH by lia.
      replace (off + ii * (S / n) + (S / n + S mod n)) with (off + S) by nia.
      exact IH.
    + replace (ii + 1 =? n) with false in IH by lia.
      replace (off + ii * (S / n) + S / n) with (off + (ii + 1) * (S / n))
        by lia.
      exact IH.
Qed.

Lemma Forall_map_all {A B} (P : B -> Prop) (g : A -> B) (l : list A) :
  (forall a, P (g a)) -> Forall P (map g l).
Proof.
  intros H. induction l as [ | a l IH ]; simpl; constructor; auto.
Qed.

(** X14.  Below 4 GiB the workers' ranges tile the request: there are
    [min(threads, 1 + (S - 1) / 4096)] workers, the first starts at the
    offset of the request, each starts where the one before ends, the
    last ends where the request ends, and every worker has bytes to move:
    at least half a page when there is more than one.  Every worker
    addresses the one buffer through the one handle, at the device
    offset that matches its file offset. *)
Theorem partition_tiles_the_request buf cfh offset S T0 bs :
  0 < S < 2 ^ 32 -> 0 < T0 < 2 ^ 31 ->
  0 <= offset -> offset + S < 2 ^ 63 ->
  tiles offset (partition buf cfh offset S T0 bs) (offset + S) /\
  length (partition buf cfh offset S T0 bs)
  = Z.to_nat (Z.min T0 (1 + (S - 1) / 4096)) /\
  Forall (fun td =>
            td_devPtr td = buf /\ td_cfr_handle td = cfh /\
            td_devPtr_offset td = td_offset td - offset /\
            td_block_size td = u64 bs /\
            (1 < Z.min T0 (1 + (S - 1) / 4096) -> 2048 <= td_size td))
    (partition buf cfh offset S T0 bs).
Proof.
  intros HS HT Hoff Hfit.
  rewrite partition_below_4GiB by assumption.
  unfold spec_partition.
  set (n := Z.min T0 (1 + (S - 1) / 4096)).
  pose proof (pages_bounds S ltac:(lia)) as Hp.
  assert (Hn : 0 < n <= S) by (unfold n; lia).
  split.
  - pose proof (tiles_spec_chunks buf cfh offset S n (u64 bs) Hn
                  (Z.to_nat n) 0 ltac:(lia) ltac:(lia)) as Ht.
    replace (0 =? n) with false in Ht by lia.
    replace (offset + 0 * (S / n)) with offset in Ht by lia.
    exact Ht.
  - split.
    + rewrite length_map. unfold indices. rewrite length_map, length_seq.
      reflexivity.
    + apply Forall_map_all. intros i.
      unfold spec_chunk. simpl.
      split; [ reflexivity | ]. split; [ reflexivity | ].
      split; [ lia | ]. split; [ reflexivity | ].
      intros Hmany.
      assert (Hpages : (n - 1) * 4096 <= S - 1).
      { pose proof (Z.mul_div_le (S - 1) 4096 ltac:(lia)).
        assert (n - 1 <= (S - 1) / 4096) by (unfold n; lia). nia. }
      assert (Hq : 2048 <= S / n).
      { apply Z.div_le_lower_bound; [ lia | nia ]. }
      pose proof (Z.mod_pos_bound S n ltac:(lia)) as Hm.
      destruct (i =? n - 1); lia.
Qed.

Lemma partition_tiles_the_request_witness :
  tiles 100 (partition device_buf 7 100 4097 3 4096) (100 + 4097) /\
  length (partition device_buf 7 100 4097 3 4096) = 2%nat /\
  map td_size (partition device_buf 7 100 4097 3 4096) = [2048; 2049].
Proof.
  destruct (partition_tiles_the_request device_buf 7 100 4097 3 4096)
    as (Ht & Hlen & _).
  - lia.
  - lia.
  - lia.
  - lia.
  - split; [ exact Ht | ]. split; [ exact Hlen | reflexivity ].
Defined.

(** ** The calls that a request issues *)

Lemma cuFileRead_calls w fh devPtr n off devoff ret w' :
  cuFileRead w fh devPtr n off devoff = (ret, w') ->
  calls w' = calls w ++ [call_cuFileRead fh devPtr n off devoff ret].
Proof.
  unfold cuFileRead. intros H.
  destruct (file_read w (devPtr + devoff) n off) as [k w1] eqn:Hr.
  apply file_read_calls in Hr.
  injection H as <- <-. simpl. rewrite Hr. reflexivity.
Qed.

Lemma cuFileWrite_calls w fh devPtr n off devoff ret w' :
  cuFileWrite w fh devPtr n off devoff = (ret, w') ->
  calls w' = calls w ++ [call_cuFileWrite fh devPtr n off devoff ret].
Proof.
  unfold cuFileWrite. intros H.
  destruct (file_write w (devPtr + devoff) n off) as [k w1] eqn:Hr.
  apply file_write_calls in Hr.
  injection H as <- <-. simpl. rewrite Hr. reflexivity.
Qed.

(** One more call in front of the calls issued afterwards. *)
Lemma issued_cons (P : Call -> bool) (l0 l1 l2 : list Call) (c : Call) :
  l1 = l0 ++ [c] -> P c = true ->
  (exists issued, l2 = l1 ++ issued /\ forallb P issued = true) ->
  exists issued, l2 = l0 ++ issued /\ forallb P issued = true.
Proof.
  intros -> Hc (issued & -> & Hall).
  exists (c :: issued). split.
  - rewrite <- app_assoc. reflexivity.
  - simpl. rewrite Hc, Hall. reflexivity.
Qed.

Lemma issued_nil (P : Call -> bool) (l : list Call) :
  exists issued, l = l ++ issued /\ forallb P issued = true.
Proof.
  exists []. split; [ rewrite app_nil_r; reflexivity | reflexivity ].
Qed.



(** Calls issued one after the other. *)
Lemma issued_app (P : Call -> bool) (l0 l1 l2 : list Call) :
  (exists issued, l1 = l0 ++ issued /\ forallb P issued = true) ->
  (exists issued, l2 = l1 ++ issued /\ forallb P issued = true) ->
  exists issued, l2 = l0 ++ issued /\ forallb P issued = true.
Proof.
  intros (i1 & -> & H1) (i2 & -> & H2).
  exists (i1 ++ i2). split.
  - rewrite <- app_assoc. reflexivity.
  - rewrite forallb_app, H1, H2. reflexivity.
Qed.






(** *** The accelerator-direct path *)

Lemma read_thread_fn_calls :
  forall fuel td w td' w',
    read_thread_fn fuel td w = Returned (td', w') ->
    exists issued,
      calls w' = calls w ++ issued /\
      forallb (transfer_call io_read (td_cfr_handle td) (td_devPtr td)
                 (td_block_size td)) issued = true.
Proof.
  induction fuel as [ | fuel IH ]; intros td w td' w' H; [ discriminate | ].
  simpl in H.
  destruct (td_size td >? 0); [ | injection H as _ <-; apply issued_nil ].
  destruct (Z.gtb_spec (td_size td) (td_block_size td)) as [Hbig | Hsmall].
  - destruct (cuFileRead w (td_cfr_handle td) (td_devPtr td)
                (td_block_size td) (td_offset td) (td_devPtr_offset td))
      as [ret w1] eqn:Hc.
    apply cuFileRead_calls in Hc.
    destruct (ret >? 0); [ | discriminate ].
    apply IH in H. simpl in H.
    refine (issued_cons _ (calls w) (calls w1) (calls w') _ Hc _ H).
    simpl. rewrite !Z.eqb_refl. simpl. lia.
  - destruct (cuFileRead w (td_cfr_handle td) (td_devPtr td)
                (td_size td) (td_offset td) (td_devPtr_offset td))
      as [ret w1] eqn:Hc.
    apply cuFileRead_calls in Hc.
    destruct (ret >? 0); [ | discriminate ].
    apply IH in H. simpl in H.
    refine (issued_cons _ (calls w) (calls w1) (calls w') _ Hc _ H).
    simpl. rewrite !Z.eqb_refl. simpl. lia.
Qed.

Lemma write_thread_fn_calls :
  forall fuel td w td' w',
    write_thread_fn fuel td w = Returned (td', w') ->
    exists issued,
      calls w' = calls w ++ issued /\
      forallb (transfer_call io_write (td_cfr_handle td) (td_devPtr td)
                 (td_block_size td)) issued = true.
Proof.
  induction fuel as [ | fuel IH ]; intros td w td' w' H; [ discriminate | ].
  simpl in H.
  destruct (td_size td >? 0); [ | injection H as _ <-; apply issued_nil ].
  destruct (Z.gtb_spec (td_size td) (td_block_size td)) as [Hbig | Hsmall].
  - destruct (cuFileWrite w (td_cfr_handle td) (td_devPtr td)
                (td_block_size td) (td_offset td) (td_devPtr_offset td))
      as [ret w1] eqn:Hc.
    apply cuFileWrite_calls in Hc.
    destruct (ret >? 0); [ | discriminate ].
    apply IH in H. simpl in H.
    refine (issued_cons _ (calls w) (calls w1) (calls w') _ Hc _ H).
    simpl. rewrite !Z.eqb_refl. simpl. lia.
  - destruct (cuFileWrite w (td_cfr_handle td) (td_devPtr td)
                (td_size td) (td_offset td) (td_devPtr_offset td))
      as [ret w1] eqn:Hc.
    apply cuFileWrite_calls in Hc.
    destruct (ret >? 0); [ | discriminate ].
    apply IH in H. simpl in H.
    refine (issued_cons _ (calls w) (calls w1) (calls w') _ Hc _ H).
    simpl. rewrite !Z.eqb_refl. simpl. lia.
Qed.

Lemma run_threads_calls (P : Call -> bool)
  (routine : thread_data_t -> World -> outcome (thread_data_t * World)) :
  forall tds,
    Forall (fun td => forall w td' w',
              routine td w = Returned (td', w') ->
              exists issued,
                calls w' = calls w ++ issued /\ forallb P issued = true)
      tds ->
    forall w w',
      run_threads routine tds w = Returned w' ->
      exists issued, calls w' = calls w ++ issued /\ forallb P issued = true.
Proof.
  induction tds as [ | td rest IH ]; intros Hall w w' H.
  - injection H as <-. apply issued_nil.
  - simpl in H. inversion Hall as [ | ? ? Htd Hrest ]; subst.
    destruct (routine td w) as [ [td1 w1] | | ] eqn:Hr; try discriminate.
    apply Htd in Hr.
    exact (issued_app _ _ _ _ Hr (IH Hrest _ _ H)).
Qed.

Lemma fill_td_entries buf cfh offset chunk rem bs T :
  forall n ii,
    Forall (fun td => td_cfr_handle td = cfh /\ td_devPtr td = buf /\
                      td_block_size td = u64 bs)
      (fill_td n ii buf cfh offset chunk rem bs T).
Proof.
  induction n as [ | n IH ]; intros ii; simpl; constructor.
  - simpl. repeat split.
  - apply IH.
Qed.

Lemma device_read_calls fuel f w offset size_ buf w' :
  device_transfer (read_thread_fn fuel) cuFileRead f w offset size_ buf
    = Returned w' ->
  exists issued,
    calls w' = calls w ++ issued /\
    forallb (transfer_call io_read (cf_handle f) buf (transfer_bound f size_))
      issued = true.
Proof.
  unfold device_transfer, transfer_bound. intros H.
  destruct (num_io_threads f >? 0).
  - destruct (size_ =? 0); [ discriminate | ].
    refine (run_threads_calls _ _ _ _ _ _ H).
    unfold partition.
    eapply Forall_impl; [ | apply fill_td_entries ].
    intros td (Hh & Hb & Hbs) w0 td' w0' Hrun.
    apply read_thread_fn_calls in Hrun.
    rewrite Hh, Hb, Hbs in Hrun. exact Hrun.
  - destruct (cuFileRead w (cf_handle f) buf size_ offset 0)
      as [ret w1] eqn:Hc.
    apply cuFileRead_calls in Hc.
    destruct (ret >? 0); [ | discriminate ].
    injection H as <-.
    refine (issued_cons _ (calls w) (calls w1) (calls w1) _ Hc _
              (issued_nil _ _)).
    simpl. rewrite !Z.eqb_refl. simpl. lia.
Qed.

Lemma device_write_calls fuel f w offset size_ buf w' :
  device_transfer (write_thread_fn fuel) cuFileWrite f w offset size_ buf
    = Returned w' ->
  exists issued,
    calls w' = calls w ++ issued /\
    forallb (transfer_call io_write (cf_handle f) buf (transfer_bound f size_))
      issued = true.
Proof.
  unfold device_transfer, transfer_bound. intros H.
  destruct (num_io_threads f >? 0).
  - destruct (size_ =? 0); [ discriminate | ].
    refine (run_threads_calls _ _ _ _ _ _ H).
    unfold partition.
    eapply Forall_impl; [ | apply fill_td_entries ].
    intros td (Hh & Hb & Hbs) w0 td' w0' Hrun.
    apply write_thread_fn_calls in Hrun.
    rewrite Hh, Hb, Hbs in Hrun. exact Hrun.
  - destruct (cuFileWrite w (cf_handle f) buf size_ offset 0)
      as [ret w1] eqn:Hc.
    apply cuFileWrite_calls in Hc.
    destruct (ret >? 0); [ | discriminate ].
    injection H as <-.
    refine (issued_cons _ (calls w) (calls w1) (calls w1) _ Hc _
              (issued_nil _ _)).
    simpl. rewrite !Z.eqb_refl. simpl. lia.
Qed.

Lemma cuFileBufRegister_calls w buf size_ flags st w' :
  cuFileBufRegister w buf size_ flags = (st, w') ->
  calls w' = calls w ++ [call_cuFileBufRegister buf size_ st].
Proof.
  unfold cuFileBufRegister, next_outcome. intros H.
  destruct (script w); injection H as <- <-; reflexivity.
Qed.

Lemma cuFileBufDeregister_calls w buf st w' :
  cuFileBufDeregister w buf = (st, w') ->
  calls w' = calls w ++ [call_cuFileBufDeregister buf st].
Proof.
  unfold cuFileBufDeregister, next_outcome. intros H.
  destruct (script w); injection H as <- <-; reflexivity.
Qed.

(** X16.  A request with a valid region on a device buffer that returns has
    returned success, whatever the registration and the deregistration
    answered, and has left the handle as it was.  Either the registration
    failed and is the only call, or the request issued the registration,
    then cuFile transfers only (reads for a read, writes for a write),
    all through the handle of the file on the registered buffer and none
    for more than the block size when there are workers, and then the
    deregistration.  No positioned read or write is issued. *)
Theorem registration_brackets_the_transfers
  (d : io_direction) (max_io : Z) (fuel : nat) (f : H5FD_gds_t) (w : World)
  (addr size_ buf : Z) (r : herr_t) (f' : H5FD_gds_t) (w' : World) :
  H5FD_gds_io d max_io fuel f w addr size_ buf = Returned (r, f', w') ->
  is_device_pointer w buf <> 0 ->
  0 <= addr -> 0 <= size_ -> addr + size_ <= MAXADDR ->
  r = SUCCEED /\ f' = f /\
  ((exists st,
      st <> CU_FILE_SUCCESS /\
      calls w' = calls w ++ [call_cuFileBufRegister buf size_ st]) \/
   (exists transfers st,
      calls w' = calls w ++
                 call_cuFileBufRegister buf size_ CU_FILE_SUCCESS ::
                 transfers ++ [call_cuFileBufDeregister buf st] /\
      forallb (transfer_call d (cf_handle f) buf (transfer_bound f size_))
        transfers = true)).
Proof.
  intros H Hdev Ha Hs Hfit.
  assert (Hd : negb (is_device_pointer w buf =? 0) = true).
  { apply negb_true_iff. apply Z.eqb_neq. exact Hdev. }
  destruct (valid_region_checks addr size_ Ha Hs Hfit) as (Hdef & Hover & _).
  destruct d; unfold H5FD_gds_io, H5FD_gds_read, H5FD_gds_write,
    read_body, write_body in H;
    rewrite Hdef, Hover, Hd in H; cbn [negb] in H;
    (destruct (buf =? NULL); [ discriminate | ]);
    destruct (cuFileBufRegister w buf size_ 0) as [st w1] eqn:Hreg;
    apply cuFileBufRegister_calls in Hreg;
    destruct (Z.eqb_spec st CU_FILE_SUCCESS) as [-> | Hst];
    cbn [negb] in H;
    try (injection H as <- <- <-;
         split; [ reflexivity | ]; split; [ reflexivity | ];
         left; exists st; split; [ exact Hst | exact Hreg ]).
  - destruct (device_transfer (read_thread_fn fuel) cuFileRead f w1
                (s64 addr) size_ buf) as [ w2 | | ] eqn:Ht; try discriminate.
    apply device_read_calls in Ht. destruct Ht as (transfers & Hc2 & Hall).
    destruct (cuFileBufDeregister w2 buf) as [st2 w3] eqn:Hder.
    apply cuFileBufDeregister_calls in Hder.
    assert (Hlog : calls w3 = calls w ++
                   call_cuFileBufRegister buf size_ CU_FILE_SUCCESS ::
                   transfers ++ [call_cuFileBufDeregister buf st2]).
    { rewrite Hder, Hc2, Hreg. rewrite <- !app_assoc. reflexivity. }
    destruct (negb (st2 =? CU_FILE_SUCCESS));
      injection H as <- <- <-;
      (split; [ reflexivity | ]); (split; [ reflexivity | ]);
      right; exists transfers, st2; (split; [ exact Hlog | exact Hall ]).
  - destruct (device_transfer (write_thread_fn fuel) cuFileWrite f w1
                (s64 addr) size_ buf) as [ w2 | | ] eqn:Ht; try discriminate.
    apply device_write_calls in Ht. destruct Ht as (transfers & Hc2 & Hall).
    destruct (cuFileBufDeregister w2 buf) as [st2 w3] eqn:Hder.
    apply cuFileBufDeregister_calls in Hder.
    assert (Hlog : calls w3 = calls w ++
                   call_cuFileBufRegister buf size_ CU_FILE_SUCCESS ::
                   transfers ++ [call_cuFileBufDeregister buf st2]).
    { rewrite Hder, Hc2, Hreg. rewrite <- !app_assoc. reflexivity. }
    destruct (negb (st2 =? CU_FILE_SUCCESS));
      injection H as <- <- <-;
      (split; [ reflexivity | ]); (split; [ reflexivity | ]);
      right; exists transfers, st2; (split; [ exact Hlog | exact Hall ]).
Qed.

Lemma registration_brackets_the_transfers_witness :
  exists f' w',
    H5FD_gds_io io_write SSIZET_MAX 20 (fresh_file 0 0) failing_world
      100 10 device_buf = Returned (SUCCEED, f', w') /\
    f' = fresh_file 0 0 /\
    calls w' = [call_cuFileBufRegister device_buf 10 5].
Proof.
  eexists. eexists.
  split; [ reflexivity | ].
  split; [ | reflexivity ].
  eapply (registration_brackets_the_transfers io_write SSIZET_MAX 20
            (fresh_file 0 0) failing_world 100 10 device_buf).
  - reflexivity.
  - vm_compute. discriminate.
  - lia.
  - lia.
  - rewrite MAXADDR_value. lia.
Defined.

(** ** The cuFile driver is closed once *)

Lemma HDclose_calls w fd_ r w' :
  HDclose w fd_ = (r, w') ->
  calls w' = calls w ++ [call_close fd_ r] /\
  cu_file_driver_closed w' = cu_file_driver_closed w.
Proof.
  unfold HDclose, next_outcome. intros H.
  destruct (script w) as [ | o rest ]; [ | destruct o ];
    injection H as <- <-; split; reflexivity.
Qed.

(** One close: it closes the driver when the flag says that nobody has,
    and then sets the flag; with the flag set it leaves the driver
    alone.  The flag is never cleared. *)
Lemma close_and_the_driver f w r w' :
  H5FD_gds_close f w = (r, w') ->
  exists issued,
    calls w' = calls w ++ issued /\
    (cu_file_driver_closed w = true ->
     cu_file_driver_closed w' = true /\
     filter driver_close_done issued = []) /\
    (cu_file_driver_closed w = false ->
     (cu_file_driver_closed w' = true /\
      length (filter driver_close_done issued) = 1%nat) \/
     (cu_file_driver_closed w' = false /\
      filter driver_close_done issued = [])).
Proof.
  unfold H5FD_gds_close, cuFileHandleDeregister, cuFileDriverClose, HDclose,
    next_outcome, HDfree_td, HDfree_threads.
  intros H.
  destruct (td f =? NULL); destruct (threads f =? NULL);
  destruct (cu_file_driver_closed w) eqn:Hclosed;
    unfold log in H; simpl in H; rewrite ?Hclosed in H;
    split_script H; simpl in H;
    injection H as <- <-; simpl; rewrite <- ?app_assoc; simpl;
    (eexists; split; [ reflexivity | ]);
    (split; [ intros Hflag | intros Hflag ]);
    try discriminate Hflag;
    rewrite ?Hclosed;
    first [ split; reflexivity
          | left; split; reflexivity
          | right; split; reflexivity ].
Qed.

Lemma filter_app_length {A} (p : A -> bool) (l1 l2 : list A) :
  length (filter p (l1 ++ l2))
  = (length (filter p l1) + length (filter p l2))%nat.
Proof.
  rewrite filter_app, length_app. reflexivity.
Qed.

(** X17.  However many handles are closed, one after the other and whatever
    each close returns, the cuFile driver is closed successfully at most
    once, by the first close that finds it open; once the flag is set no
    close touches the driver again. *)
Theorem driver_is_closed_at_most_once (fs : list H5FD_gds_t) (w : World) :
  exists issued,
    calls (close_all fs w) = calls w ++ issued /\
    (length (filter driver_close_done issued) <= 1)%nat /\
    (cu_file_driver_closed w = true ->
     filter driver_close_done issued = [] /\
     cu_file_driver_closed (close_all fs w) = true).
Proof.
  revert w. induction fs as [ | f rest IH ]; intros w.
  - exists []. simpl. rewrite app_nil_r.
    split; [ reflexivity | ]. split; [ lia | ].
    intros H. split; [ reflexivity | exact H ].
  - simpl close_all.
    destruct (H5FD_gds_close f w) as [r1 w1] eqn:Hclose.
    apply close_and_the_driver in Hclose.
    destruct Hclose as (i1 & Hc1 & Hset & Hunset).
    simpl snd.
    destruct (IH w1) as (i2 & Hc2 & Hle & Hkeep).
    exists (i1 ++ i2).
    split; [ rewrite Hc2, Hc1, app_assoc; reflexivity | ].
    rewrite filter_app_length.
    destruct (cu_file_driver_closed w) eqn:Hflag.
    + destruct (Hset eq_refl) as [Hflag1 Hnone1].
      destruct (Hkeep Hflag1) as [Hnone2 Hflag2].
      rewrite Hnone1, Hnone2. simpl.
      split; [ lia | ].
      intros _. rewrite filter_app, Hnone1, Hnone2.
      split; [ reflexivity | exact Hflag2 ].
    + split; [ | discriminate ].
      destruct (Hunset eq_refl) as [ [Hflag1 Hone] | [_ Hnone1] ].
      * destruct (Hkeep Hflag1) as [Hnone2 _].
        rewrite Hone, Hnone2. simpl. lia.
      * rewrite Hnone1. simpl. exact Hle.
Qed.

(** ** A hard error on the fallback path *)




(** ** The order of the handles *)

(** X19.  Two handles compare equal exactly when they name the same file, by
    device and i-node, whatever their descriptors, their cursors and
    their ends; the comparison answers -1, 0 or 1, and swapping the
    handles negates it. *)
Theorem cmp_tells_the_same_file (f1 f2 : H5FD_gds_t) :
  (H5FD_gds_cmp f1 f2 = 0 <->
   device f1 = device f2 /\ inode f1 = inode f2) /\
  H5FD_gds_cmp f2 f1 = - H5FD_gds_cmp f1 f2 /\
  -1 <= H5FD_gds_cmp f1 f2 <= 1.
Proof.
  unfold H5FD_gds_cmp.
  destruct (Z.ltb_spec (device f1) (device f2));
    destruct (Z.gtb_spec (device f1) (device f2));
    destruct (Z.ltb_spec (device f2) (device f1));
    destruct (Z.gtb_spec (device f2) (device f1));
    destruct (Z.ltb_spec (inode f1) (inode f2));
    destruct (Z.gtb_spec (inode f1) (inode f2));
    destruct (Z.ltb_spec (inode f2) (inode f1));
    destruct (Z.gtb_spec (inode f2) (inode f1));
    try lia;
    (split; [ split; [ intros; lia | intros [? ?]; lia ] | lia ]).
Qed.

(** X20.  The comparison orders the handles: what comes no later than a
    second handle that comes no later than a third comes no later than
    the third, and strictly earlier when one of the two steps is
    strict. *)
Theorem cmp_is_transitive (f1 f2 f3 : H5FD_gds_t) :
  H5FD_gds_cmp f1 f2 <= 0 -> H5FD_gds_cmp f2 f3 <= 0 ->
  H5FD_gds_cmp f1 f3 <= 0 /\
  (H5FD_gds_cmp f1 f2 < 0 \/ H5FD_gds_cmp f2 f3 < 0 ->
   H5FD_gds_cmp f1 f3 < 0).
Proof.
  unfold H5FD_gds_cmp.
  destruct (Z.ltb_spec (device f1) (device f2));
    destruct (Z.gtb_spec (device f1) (device f2));
    destruct (Z.ltb_spec (inode f1) (inode f2));
    destruct (Z.gtb_spec (inode f1) (inode f2)); try lia;
    destruct (Z.ltb_spec (device f2) (device f3));
    destruct (Z.gtb_spec (device f2) (device f3));
    destruct (Z.ltb_spec (inode f2) (inode f3));
    destruct (Z.gtb_spec (inode f2) (inode f3)); try lia;
    destruct (Z.ltb_spec (device f1) (device f3));
    destruct (Z.gtb_spec (device f1) (device f3));
    destruct (Z.ltb_spec (inode f1) (inode f3));
    destruct (Z.gtb_spec (inode f1) (inode f3)); try lia.
Qed.

Lemma cmp_is_transitive_witness :
  let f1 := mk_file 3 4 7 0 0 0 0 0 0 HADDR_UNDEF OP_UNKNOWN 1 9 false in
  let f2 := mk_file 5 6 8 0 0 0 0 0 0 HADDR_UNDEF OP_UNKNOWN 2 5 false in
  let f3 := mk_file 9 10 11 0 0 0 0 0 0 HADDR_UNDEF OP_UNKNOWN 2 6 false in
  H5FD_gds_cmp f1 f3 <= 0 /\
  (H5FD_gds_cmp f1 f2 < 0 \/ H5FD_gds_cmp f2 f3 < 0 ->
   H5FD_gds_cmp f1 f3 < 0).
Proof.
  intros f1 f2 f3.
  apply (cmp_is_transitive f1 f2 f3).
  - vm_compute. discriminate.
  - vm_compute. discriminate.
Defined.

(** ** The capabilities *)




(** ** Opening a file *)

Lemma open_frame_refl h : open_frame h h.
Proof. repeat split. Qed.

Lemma open_frame_trans h1 h2 h3 :
  open_frame h1 h2 -> open_frame h2 h3 -> open_frame h1 h3.
Proof.
  unfold open_frame. intros (A1 & B1 & C1 & D1 & E1) (A2 & B2 & C2 & D2 & E2).
  repeat split; congruence.
Qed.

Lemma file_frame_trans h1 h2 h3 :
  file_frame h1 h2 -> file_frame h2 h3 -> file_frame h1 h3.
Proof.
  unfold file_frame. intros (A1 & B1 & C1) (A2 & B2 & C2).
  split; [ exact (same_file_trans _ _ _ A1 A2) | ].
  split; congruence.
Qed.

Lemma next_outcome_frame w r w1 :
  next_outcome w = (r, w1) ->
  calls w1 = calls w /\ cu_file_driver_closed w1 = cu_file_driver_closed w /\
  same_file w w1.
Proof.
  unfold next_outcome. intros H.
  destruct (script w); injection H as _ <-; repeat split.
Qed.

Lemma cuFileDriverOpen_spec h st h' :
  cuFileDriverOpen h = (st, h') ->
  open_calls h' = open_calls h ++ [call_cuFileDriverOpen st] /\
  heap h' = heap h /\ open_frame h h' /\ file_frame h h'.
Proof.
  unfold cuFileDriverOpen. intros H.
  destruct (next_outcome (world h)) as [r w1] eqn:Hn.
  apply next_outcome_frame in Hn. destruct Hn as (Hc & Hd & Hf).
  injection H as <- <-.
  split; [ reflexivity | ]. split; [ reflexivity | ].
  split; [ repeat split; assumption | repeat split; apply Hf ].
Qed.

Lemma HDfstat_spec h fd_ r sb h' :
  HDfstat h fd_ = (r, sb, h') ->
  open_calls h' = open_calls h ++ [call_fstat fd_ r] /\
  heap h' = heap h /\ open_frame h h' /\ file_frame h h' /\
  (r < 0 \/
   (st_size sb = fsize (world h') /\ st_dev sb = path_dev h /\
    st_ino sb = path_ino h)).
Proof.
  unfold HDfstat. intros H.
  destruct (next_outcome (world h)) as [o w1] eqn:Hn.
  apply next_outcome_frame in Hn. destruct Hn as (Hc & Hd & Hf).
  destruct o; injection H as <- <- <-;
    (split; [ reflexivity | ]); (split; [ reflexivity | ]);
    (split; [ repeat split; assumption | ]);
    (split; [ repeat split; apply Hf | ]);
    first [ left; lia | right; repeat split ].
Qed.

Lemma H5FL_CALLOC_spec h file h' :
  H5FL_CALLOC h = (file, h') ->
  open_calls h' = open_calls h ++
    [call_H5FL_CALLOC (match file with Some _ => true | None => false end)] /\
  heap h' = heap h /\ open_frame h h' /\ file_frame h h' /\
  (forall f, file = Some f -> f = zeroed_file).
Proof.
  unfold H5FL_CALLOC. intros H.
  destruct (next_outcome (world h)) as [o w1] eqn:Hn.
  apply next_outcome_frame in Hn. destruct Hn as (Hc & Hd & Hf).
  destruct o; injection H as <- <-;
    (split; [ reflexivity | ]); (split; [ reflexivity | ]);
    (split; [ repeat split; assumption | ]);
    (split; [ repeat split; apply Hf | ]);
    intros f Hsome; first [ discriminate | injection Hsome as <-; reflexivity ].
Qed.

Lemma cuFileHandleRegister_spec h fd_ st handle h' :
  cuFileHandleRegister h fd_ = (st, handle, h') ->
  open_calls h' = open_calls h ++ [call_cuFileHandleRegister fd_ st] /\
  heap h' = heap h /\ open_frame h h' /\ file_frame h h'.
Proof.
  unfold cuFileHandleRegister. intros H.
  destruct (next_outcome (world h)) as [o w1] eqn:Hn.
  apply next_outcome_frame in Hn. destruct Hn as (Hc & Hd & Hf).
  destruct o; injection H as <- <- <-;
    (split; [ reflexivity | ]); (split; [ reflexivity | ]);
    (split; [ repeat split; assumption | repeat split; apply Hf ]).
Qed.

(** [open(2)]: a failure changes nothing of the file; a success hands
    out the next descriptor, and leaves an existing file alone unless
    [O_TRUNC] is set. *)
Lemma HDopen_spec h o_flags ret h' :
  HDopen h o_flags = (ret, h') ->
  open_calls h' = open_calls h ++ [call_open o_flags ret] /\
  heap h' = heap h /\ open_frame h h' /\
  ((ret = -1 /\ file_frame h h') \/
   (ret = next_fd h /\ next_fd h' = next_fd h + 1 /\ path_exists h' = true /\
    (path_exists h = true -> Z.land o_flags O_TRUNC = 0 ->
     same_file (world h) (world h')) /\
    (Z.land o_flags O_TRUNC <> 0 -> fsize (world h') = 0))).
Proof.
  unfold HDopen. intros H.
  destruct (next_outcome (world h)) as [o w1] eqn:Hn.
  apply next_outcome_frame in Hn. destruct Hn as (Hc & Hd & Hf).
  assert (Hfail : forall e,
             (-1, log_open (set_world h (set_errno w1 e))
                    (call_open o_flags (-1))) = (ret, h') ->
             open_calls h' = open_calls h ++ [call_open o_flags ret] /\
             heap h' = heap h /\ open_frame h h' /\
             ((ret = -1 /\ file_frame h h') \/
              (ret = next_fd h /\ next_fd h' = next_fd h + 1 /\
               path_exists h' = true /\
               (path_exists h = true -> Z.land o_flags O_TRUNC = 0 ->
                same_file (world h) (world h')) /\
               (Z.land o_flags O_TRUNC <> 0 -> fsize (world h') = 0)))).
  { intros e He. injection He as <- <-.
    split; [ reflexivity | ]. split; [ reflexivity | ].
    split; [ repeat split; assumption | ].
    left. split; [ reflexivity | repeat split; apply Hf ]. }
  assert (Hok :
    (if negb (path_exists h) && negb (negb (Z.land o_flags O_CREAT =? 0))
     then (-1, log_open (set_world h (set_errno w1 ENOENT))
                 (call_open o_flags (-1)))
     else if path_exists h && negb (Z.land o_flags O_CREAT =? 0)
                && negb (Z.land o_flags O_EXCL =? 0)
     then (-1, log_open (set_world h (set_errno w1 EEXIST))
                 (call_open o_flags (-1)))
     else
       (next_fd h,
        mk_host
          (if negb (path_exists h) || negb (Z.land o_flags O_TRUNC =? 0)
           then set_file w1 (fun _ => x00) 0 else w1)
          (cu_file_driver_opened h) true (path_dev h) (path_ino h)
          (next_fd h + 1) (next_handle h) (heap h)
          (open_calls h ++ [call_open o_flags (next_fd h)])))
    = (ret, h') ->
    open_calls h' = open_calls h ++ [call_open o_flags ret] /\
    heap h' = heap h /\ open_frame h h' /\
    ((ret = -1 /\ file_frame h h') \/
     (ret = next_fd h /\ next_fd h' = next_fd h + 1 /\
      path_exists h' = true /\
      (path_exists h = true -> Z.land o_flags O_TRUNC = 0 ->
       same_file (world h) (world h')) /\
      (Z.land o_flags O_TRUNC <> 0 -> fsize (world h') = 0)))).
  { intros Hrun.
    destruct (negb (path_exists h) && negb (negb (Z.land o_flags O_CREAT =? 0)));
      [ exact (Hfail _ Hrun) | ].
    destruct (path_exists h && negb (Z.land o_flags O_CREAT =? 0)
              && negb (Z.land o_flags O_EXCL =? 0));
      [ exact (Hfail _ Hrun) | ].
    injection Hrun as <- <-.
    split; [ reflexivity | ]. split; [ reflexivity | ].
    split.
    { unfold open_frame. simpl.
      destruct (negb (path_exists h) || negb (Z.land o_flags O_TRUNC =? 0));
        repeat split; assumption. }
    right. simpl.
    split; [ reflexivity | ]. split; [ reflexivity | ].
    split; [ reflexivity | ].
    split.
    - intros Hex Hnt. rewrite Hex, Hnt. simpl. exact Hf.
    - intros Ht. apply Z.eqb_neq in Ht. rewrite Ht. simpl.
      rewrite orb_true_r. reflexivity. }
  destruct o; [ exact (Hok H) | exact (Hfail _ H) | exact (Hok H) ].
Qed.

Lemma HDmalloc_spec h p h' :
  HDmalloc h = (p, h') ->
  p = hd NULL (heap h) /\ heap h' = tl (heap h) /\
  open_calls h' = open_calls h /\ open_frame h h' /\ file_frame h h'.
Proof.
  unfold HDmalloc. intros H.
  destruct (heap h) as [ | a rest ] eqn:Hheap; injection H as <- <-.
  - rewrite Hheap. repeat split.
  - repeat split.
Qed.

(** The [done:] block after a failure: the descriptors that were opened
    are closed, the direct one first, and the handle is freed if it was
    allocated. *)
Lemma done_open_failure file fd_ direct_fd_ h :
  exists new_calls,
    fst (done_open None file fd_ direct_fd_ h) = None /\
    open_calls (snd (done_open None file fd_ direct_fd_ h)) = open_calls h /\
    cu_file_driver_opened (snd (done_open None file fd_ direct_fd_ h))
    = cu_file_driver_opened h /\
    path_dev (snd (done_open None file fd_ direct_fd_ h)) = path_dev h /\
    path_ino (snd (done_open None file fd_ direct_fd_ h)) = path_ino h /\
    cu_file_driver_closed (world (snd (done_open None file fd_ direct_fd_ h)))
    = cu_file_driver_closed (world h) /\
    calls (world (snd (done_open None file fd_ direct_fd_ h)))
    = calls (world h) ++ new_calls /\
    closed_fds new_calls =
      (if direct_fd_ >=? 0 then [direct_fd_] else []) ++
      (if fd_ >=? 0 then [fd_] else []) /\
    existsb is_H5FL_FREE new_calls = file /\
    forallb close_or_free new_calls = true.
Proof.
  unfold done_open.
  set (w1 := if direct_fd_ >=? 0 then snd (HDclose (world h) direct_fd_)
             else world h).
  set (w2 := if fd_ >=? 0 then snd (HDclose w1 fd_) else w1).
  assert (H1 : exists c1, calls w1 = calls (world h) ++ c1 /\
                 cu_file_driver_closed w1 = cu_file_driver_closed (world h) /\
                 closed_fds c1 = (if direct_fd_ >=? 0 then [direct_fd_] else [])
                 /\ existsb is_H5FL_FREE c1 = false /\
                 forallb close_or_free c1 = true).
  { unfold w1. destruct (direct_fd_ >=? 0).
    - destruct (HDclose (world h) direct_fd_) as [r w] eqn:Hc.
      apply HDclose_calls in Hc. destruct Hc as [Hc Hf].
      eexists. split; [ exact Hc | ]. split; [ exact Hf | ].
      repeat split.
    - exists []. rewrite app_nil_r. repeat split. }
  destruct H1 as (c1 & Hc1 & Hf1 & Hfd1 & Hfree1 & Hall1).
  assert (H2 : exists c2, calls w2 = calls w1 ++ c2 /\
                 cu_file_driver_closed w2 = cu_file_driver_closed w1 /\
                 closed_fds c2 = (if fd_ >=? 0 then [fd_] else [])
                 /\ existsb is_H5FL_FREE c2 = false /\
                 forallb close_or_free c2 = true).
  { unfold w2. destruct (fd_ >=? 0).
    - destruct (HDclose w1 fd_) as [r w] eqn:Hc.
      apply HDclose_calls in Hc. destruct Hc as [Hc Hf].
      eexists. split; [ exact Hc | ]. split; [ exact Hf | ].
      repeat split.
    - exists []. rewrite app_nil_r. repeat split. }
  destruct H2 as (c2 & Hc2 & Hf2 & Hfd2 & Hfree2 & Hall2).
  exists (c1 ++ c2 ++ if file then [call_H5FL_FREE] else []).
  simpl fst. simpl snd.
  split; [ reflexivity | ]. split; [ reflexivity | ].
  split; [ reflexivity | ]. split; [ reflexivity | ].
  split; [ reflexivity | ].
  split.
  { destruct file; simpl; congruence. }
  split.
  { destruct file; simpl; rewrite ?Hc2, ?Hc1, <- ?app_assoc;
      try reflexivity.
    rewrite app_nil_r. reflexivity. }
  unfold closed_fds in *.
  rewrite !flat_map_app, !existsb_app, !forallb_app.
  rewrite Hfd1, Hfd2, Hfree1, Hfree2, Hall1, Hall2.
  destruct file; simpl; rewrite ?app_nil_r; repeat split.
Qed.

(** The flags of the first [open(2)] hold [O_TRUNC] exactly when the
    caller asked for truncation; those of the second never do. *)
Lemma first_o_flags_trunc (rdwr trunc creat excl : bool) :
  Z.land
    (let o := if rdwr then O_RDWR else O_RDONLY in
     let o := if trunc then Z.lor o O_TRUNC else o in
     let o := if creat then Z.lor o O_CREAT else o in
     if excl then Z.lor o O_EXCL else o) O_TRUNC
  = if trunc then O_TRUNC else 0.
Proof. destruct rdwr, trunc, creat, excl; reflexivity. Qed.

Lemma second_o_flags_trunc (rdwr : bool) :
  Z.land (Z.lor (if rdwr then O_RDWR else O_RDONLY) O_DIRECT) O_TRUNC = 0.
Proof. destruct rdwr; reflexivity. Qed.

(** An exit of [H5FD_gds_open] through the [done:] block with [NULL]. *)
Lemma open_exit T name flags fapl maxaddr h hk opens file fd_ dfd r h' :
  open_calls hk = open_calls h ++ opens ->
  open_frame h hk ->
  (cu_file_driver_opened h = true -> existsb is_driver_open opens = false) ->
  rev (opened_fds opens) =
    (if dfd >=? 0 then [dfd] else []) ++ (if fd_ >=? 0 then [fd_] else []) ->
  existsb is_allocation opens = file ->
  done_open None file fd_ dfd hk = (r, h') ->
  exists new_opens new_calls,
    open_result T name flags fapl maxaddr h r h' new_opens new_calls.
Proof.
  intros Hlog (Hc & Hd & Ho & Hdev & Hino) Hnodrv Hfds Halloc Hdone.
  destruct (done_open_failure file fd_ dfd hk)
    as (nc & Hr & Hlog' & Ho' & Hdev' & Hino' & Hd' & Hc' & Hfds' & Hfree
        & Hall).
  rewrite Hdone in *. simpl fst in Hr. simpl snd in *. subst r.
  exists opens, nc. unfold open_result, released.
  split; [ congruence | ].
  split; [ congruence | ].
  split; [ congruence | ]. split; [ congruence | ].
  split; [ congruence | ].
  split; [ intros Hopen; split; [ congruence | exact (Hnodrv Hopen) ] | ].
  split; [ congruence | ].
  split; [ congruence | exact Hall ].
Qed.

(** The file stage of an open, driver open. *)
Lemma open_file_outcome R T C E name flags fapl maxaddr h r h' :
  cu_file_driver_opened h = true ->
  open_file R T C E name flags fapl maxaddr h = (r, h') ->
  exists new_opens new_calls,
    open_result T name flags fapl maxaddr h r h' new_opens new_calls.
Proof.
  intros Hopened H. unfold open_file in H.
  assert (Hargs : done_open None false (-1) (-1) h = (r, h') ->
                  exists new_opens new_calls,
                    open_result T name flags fapl maxaddr h r h'
                      new_opens new_calls).
  { intros Hdone.
    apply (open_exit T name flags fapl maxaddr h h [] false (-1) (-1) r h');
      [ rewrite app_nil_r; reflexivity | apply open_frame_refl
      | reflexivity | reflexivity | reflexivity | exact Hdone ]. }
  destruct name as [ [ | c rest ] | ];
    [ exact (Hargs H) | | exact (Hargs H) ].
  destruct ((0 =? maxaddr) || (HADDR_UNDEF =? maxaddr)) eqn:Hm;
    [ exact (Hargs H) | ].
  destruct (ADDR_OVERFLOW maxaddr) eqn:Hov; [ exact (Hargs H) | ].
  clear Hargs.
  pose proof (first_o_flags_trunc (negb (Z.land R flags =? 0))
                (negb (Z.land T flags =? 0)) (negb (Z.land C flags =? 0))
                (negb (Z.land E flags =? 0))) as Htr1.
  cbv zeta in Htr1, H.
  match type of H with
  | context [HDopen h ?o] => set (o1 := o) in *
  end.
  destruct (HDopen h o1) as [fd1 h2] eqn:Ho1.
  apply HDopen_spec in Ho1. destruct Ho1 as (Hlog2 & Hheap2 & Hfr2 & Hcase2).
  destruct (Z.ltb_spec fd1 0) as [Hneg | Hfd1].
  { eapply (open_exit _ _ _ _ _ h h2 [call_open o1 fd1] false fd1 (-1));
      [ exact Hlog2 | exact Hfr2 | reflexivity | | reflexivity | exact H ].
    simpl. replace (fd1 >=? 0) with false by lia. reflexivity. }
  destruct Hcase2 as [ [Hm1 _] | (Hfd1v & Hnext2 & Hex2 & Hsame2 & Hzero2) ];
    [ lia | ].
  assert (Hge1 : (fd1 >=? 0) = true) by lia.
  destruct (HDfstat h2 fd1) as [ [rs sb] h3 ] eqn:Hst.
  apply HDfstat_spec in Hst.
  destruct Hst as (Hlog3 & Hheap3 & Hfr3 & Hff3 & Hsb).
  assert (Hlog3' : open_calls h3 = open_calls h ++
                     [call_open o1 fd1; call_fstat fd1 rs]).
  { rewrite Hlog3, Hlog2, <- app_assoc. reflexivity. }
  pose proof (open_frame_trans _ _ _ Hfr2 Hfr3) as Hfr3'.
  destruct (Z.ltb_spec rs 0) as [Hrs | Hrs].
  { eapply (open_exit _ _ _ _ _ h h3 _ false fd1 (-1));
      [ exact Hlog3' | exact Hfr3' | reflexivity | | reflexivity | exact H ].
    simpl. rewrite Hge1. reflexivity. }
  destruct Hsb as [ Hbad | (Hsize & Hsdev & Hsino) ]; [ lia | ].
  destruct (H5FL_CALLOC h3) as [file h4] eqn:Hca.
  apply H5FL_CALLOC_spec in Hca.
  destruct Hca as (Hlog4 & Hheap4 & Hfr4 & Hff4 & Heoa).
  pose proof (open_frame_trans _ _ _ Hfr3' Hfr4) as Hfr4'.
  destruct file as [ file | ].
  2: { eapply (open_exit _ _ _ _ _ h h4
                 [call_open o1 fd1; call_fstat fd1 rs; call_H5FL_CALLOC false]
                 false fd1 (-1));
         [ rewrite Hlog4, Hlog3', <- app_assoc; reflexivity
         | exact Hfr4' | reflexivity | | reflexivity | exact H ].
       simpl. rewrite Hge1. reflexivity. }
  assert (Hlog4' : open_calls h4 = open_calls h ++
                     [call_open o1 fd1; call_fstat fd1 rs;
                      call_H5FL_CALLOC true]).
  { rewrite Hlog4, Hlog3', <- app_assoc. reflexivity. }
  specialize (Heoa file eq_refl). subst file.
  pose proof (second_o_flags_trunc (negb (Z.land R flags =? 0))) as Htr2.
  match type of H with
  | context [HDopen h4 ?o] => set (o2 := o) in *
  end.
  destruct (HDopen h4 o2) as [fd2 h5] eqn:Ho2.
  apply HDopen_spec in Ho2. destruct Ho2 as (Hlog5 & Hheap5 & Hfr5 & Hcase5).
  pose proof (open_frame_trans _ _ _ Hfr4' Hfr5) as Hfr5'.
  assert (Hlog5' : open_calls h5 = open_calls h ++
                     [call_open o1 fd1; call_fstat fd1 rs;
                      call_H5FL_CALLOC true; call_open o2 fd2]).
  { rewrite Hlog5, Hlog4', <- app_assoc. reflexivity. }
  destruct (Z.ltb_spec fd2 0) as [Hneg2 | Hfd2].
  { eapply (open_exit _ _ _ _ _ h h5 _ true fd1 fd2);
      [ exact Hlog5' | exact Hfr5' | reflexivity | | reflexivity | exact H ].
    simpl. rewrite Hge1. replace (fd2 >=? 0) with false by lia.
    reflexivity. }
  destruct Hcase5 as [ [Hm1 _] | (Hfd2v & Hnext5 & Hex5 & Hsame5 & _) ];
    [ lia | ].
  assert (Hge2 : (fd2 >=? 0) = true) by lia.
  simpl direct_fd in H.
  destruct (cuFileHandleRegister h5 fd2) as [ [st handle] h6 ] eqn:Hreg.
  apply cuFileHandleRegister_spec in Hreg.
  destruct Hreg as (Hlog6 & Hheap6 & Hfr6 & Hff6).
  pose proof (open_frame_trans _ _ _ Hfr5' Hfr6) as Hfr6'.
  assert (Hlog6' : open_calls h6 = open_calls h ++
                     [call_open o1 fd1; call_fstat fd1 rs;
                      call_H5FL_CALLOC true; call_open o2 fd2;
                      call_cuFileHandleRegister fd2 st]).
  { rewrite Hlog6, Hlog5', <- app_assoc. reflexivity. }
  destruct (negb (st =? CU_FILE_SUCCESS)).
  { eapply (open_exit _ _ _ _ _ h h6 _ true fd1 fd2);
      [ exact Hlog6' | exact Hfr6' | reflexivity | | reflexivity | exact H ].
    simpl. rewrite Hge1, Hge2. reflexivity. }
  destruct (HDmalloc h6) as [p1 h6a] eqn:Hm1.
  apply HDmalloc_spec in Hm1.
  destruct Hm1 as (Hp1 & Hheap6a & Hlog6a & Hfr6a & Hff6a).
  destruct (HDmalloc (log_open h6a (call_malloc_td p1))) as [p2 h6b] eqn:Hm2.
  apply HDmalloc_spec in Hm2.
  destruct Hm2 as (Hp2 & Hheap6b & Hlog6b & Hfr6b & Hff6b).
  simpl in Hp2, Hheap6b, Hlog6b.
  set (h7 := log_open h6b (call_malloc_threads p2)) in *.
  assert (Hlog7 : open_calls h7 = open_calls h ++
                    [call_open o1 fd1; call_fstat fd1 rs;
                     call_H5FL_CALLOC true; call_open o2 fd2;
                     call_cuFileHandleRegister fd2 st;
                     call_malloc_td p1; call_malloc_threads p2]).
  { unfold h7. simpl. rewrite Hlog6b, Hlog6a, Hlog6', <- !app_assoc.
    reflexivity. }
  assert (Hfr7 : open_frame h h7).
  { apply (open_frame_trans _ _ _ Hfr6').
    apply (open_frame_trans _ _ _ Hfr6a). exact Hfr6b. }
  assert (Hff67 : file_frame h6 h7).
  { apply (file_frame_trans _ _ _ Hff6a). exact Hff6b. }
  assert (Hheap : p1 = hd NULL (heap h) /\ p2 = hd NULL (tl (heap h))).
  { rewrite Hp1, Hp2, Hheap6a, Hheap6, Hheap5, Hheap4, Hheap3, Hheap2.
    split; reflexivity. }
  assert (Hfds7 : rev (opened_fds
                    [call_open o1 fd1; call_fstat fd1 rs;
                     call_H5FL_CALLOC true; call_open o2 fd2;
                     call_cuFileHandleRegister fd2 st;
                     call_malloc_td p1; call_malloc_threads p2])
                  = (if fd2 >=? 0 then [fd2] else []) ++
                    (if fd1 >=? 0 then [fd1] else [])).
  { simpl. rewrite Hge1, Hge2. reflexivity. }
  (* the handle as it is returned, but for [fam_to_single] *)
  match type of H with
  | context [set_device_inode ?f0 _ _] =>
      set (file1 := set_device_inode f0 (st_dev sb) (st_ino sb)) in *
  end.
  assert (Hsuccess : forall f,
             fd f = fd file1 -> direct_fd f = direct_fd file1 ->
             eoa f = eoa file1 -> eof f = eof file1 ->
             pos f = pos file1 -> op f = op file1 ->
             device f = device file1 -> inode f = inode file1 ->
             num_io_threads f = num_io_threads file1 ->
             io_block_size f = io_block_size file1 ->
             td f = td file1 -> threads f = threads file1 ->
             done_open (Some f) true fd1 fd2 h7 = (r, h') ->
             exists new_opens new_calls,
               open_result T (Some (c :: rest)) flags fapl maxaddr h r h'
                 new_opens new_calls).
  { intros f Efd Edfd Eeoa Eeof Epos Eop Edev Eino Ethr Eblk Etd Ethreads
      Hdone.
    injection Hdone as <- <-.
    destruct Hfr7 as (Hc7 & Hd7 & Ho7 & Hdev7 & Hino7).
    destruct Hff3 as (Hsf3 & Hex3 & Hnf3).
    destruct Hff4 as (Hsf4 & Hex4 & Hnf4).
    destruct Hff6 as (Hsf6 & Hex6 & Hnf6).
    destruct Hfr2 as (_ & _ & _ & Hdev2 & Hino2).
    assert (Hex4' : path_exists h4 = true) by congruence.
    assert (Hsame45 : same_file (world h4) (world h5))
      by (apply Hsame5; [ exact Hex4' | exact Htr2 ]).
    destruct Hff67 as (Hsf67 & Hex67 & Hnf67).
    assert (Hsame37 : same_file (world h3) (world h7)).
    { apply (same_file_trans _ _ _ Hsf4).
      apply (same_file_trans _ _ _ Hsame45).
      exact (same_file_trans _ _ _ Hsf6 Hsf67). }
    assert (Hsame27 : same_file (world h2) (world h7)).
    { exact (same_file_trans _ _ _ Hsf3 Hsame37). }
    eexists. exists [].
    unfold open_result, opened_as.
    split; [ exact Hlog7 | ].
    split; [ rewrite app_nil_r; exact Hc7 | ].
    split; [ exact Hdev7 | ]. split; [ exact Hino7 | ].
    split; [ exact Hd7 | ].
    split; [ intros _; split; [ congruence | reflexivity ] | ].
    split; [ reflexivity | ].
    split; [ congruence | ].
    split.
    { simpl. rewrite Hge1, Hge2, Efd, Edfd. unfold file1.
      destruct (io_threads_property fapl), (io_block_size_property fapl),
        handle; reflexivity. }
    assert (Hfdv : fd file1 = fd1).
    { unfold file1.
      destruct (io_threads_property fapl), (io_block_size_property fapl),
        handle; reflexivity. }
    assert (Hdfdv : direct_fd file1 = fd2).
    { unfold file1.
      destruct (io_threads_property fapl), (io_block_size_property fapl),
        handle; reflexivity. }
    split; [ congruence | ].
    split; [ rewrite Edfd, Hdfdv, Hfd2v; lia | ].
    split; [ lia | ].
    split; [ lia | ].
    split.
    { rewrite Eeoa. unfold file1.
      destruct (io_threads_property fapl), (io_block_size_property fapl),
        handle; reflexivity. }
    split.
    { rewrite Eeof. unfold file1. simpl eof. rewrite Hsize.
      destruct Hsame37 as [Hfs _]. rewrite Hfs. reflexivity. }
    split; [ rewrite Epos; reflexivity | ].
    split; [ rewrite Eop; reflexivity | ].
    split; [ rewrite Edev; unfold file1; simpl; congruence | ].
    split; [ rewrite Eino; unfold file1; simpl; congruence | ].
    split; [ congruence | ].
    split.
    { intros Ht. destruct Hsame27 as [Hfs _]. rewrite Hfs.
      apply Hzero2. rewrite Htr1.
      replace (Z.land T flags =? 0) with false by lia.
      discriminate. }
    split.
    { intros Ht Hex.
      apply (same_file_trans _ (world h2)); [ | exact Hsame27 ].
      apply Hsame2; [ exact Hex | ].
      rewrite Htr1. rewrite Ht. reflexivity. }
    split.
    { rewrite Ethr. unfold file1.
      destruct (io_threads_property fapl), (io_block_size_property fapl),
        handle; reflexivity. }
    split.
    { rewrite Eblk. unfold file1.
      destruct (io_threads_property fapl), (io_block_size_property fapl),
        handle; reflexivity. }
    split.
    { rewrite Etd. unfold file1.
      destruct (io_threads_property fapl), (io_block_size_property fapl),
        handle; simpl; apply Hheap. }
    split.
    { rewrite Ethreads. unfold file1.
      destruct (io_threads_property fapl), (io_block_size_property fapl),
        handle; simpl; apply Hheap. }
    split; [ exists c, rest; reflexivity | ].
    split.
    { intros ->. simpl in Hm. discriminate. }
    exact Hov. }
  destruct (negb (is_default fapl)).
  - destruct (negb (plist_object fapl)).
    + eapply (open_exit _ _ _ _ _ h h7 _ true fd1 fd2);
        [ exact Hlog7 | exact Hfr7 | reflexivity | exact Hfds7
        | reflexivity | exact H ].
    + destruct (family_to_single_property fapl) as [ [ b | ] | ].
      * apply (Hsuccess _) in H; try reflexivity. exact H.
      * eapply (open_exit _ _ _ _ _ h h7 _ true fd1 fd2);
          [ exact Hlog7 | exact Hfr7 | reflexivity | exact Hfds7
          | reflexivity | exact H ].
      * apply (Hsuccess _) in H; try reflexivity. exact H.
  - apply (Hsuccess _) in H; try reflexivity. exact H.
Qed.

(** A run whose first component is known. *)
Lemma run_fst {A B : Type} (p : A * B) (a : A) :
  fst p = a -> p = (a, snd p).
Proof.
  intros <-. apply surjective_pairing.
Qed.

(** What an open has done, in every case. *)
Lemma open_outcome R T C E name flags fapl maxaddr h r h' :
  H5FD_gds_open R T C E name flags fapl maxaddr h = (r, h') ->
  exists new_opens new_calls,
    open_result T name flags fapl maxaddr h r h' new_opens new_calls.
Proof.
  unfold H5FD_gds_open. intros H.
  destruct (cu_file_driver_opened h) eqn:Hflag; cbn [negb] in H.
  - exact (open_file_outcome R T C E name flags fapl maxaddr h r h' Hflag H).
  - destruct (cuFileDriverOpen h) as [st h1] eqn:Hd.
    apply cuFileDriverOpen_spec in Hd.
    destruct Hd as (Hlog1 & Hheap1 & Hfr1 & Hsf1 & Hex1 & Hnf1).
    destruct (st =? CU_FILE_SUCCESS); cbn [negb] in H.
    + apply open_file_outcome in H; [ | reflexivity ].
      destruct H as (no & nc & Hlog & Hcalls & Hdev & Hino & Hclosed & _
                     & Hres).
      destruct Hfr1 as (Hc1 & Hd1 & Ho1 & Hdev1 & Hino1).
      exists (call_cuFileDriverOpen st :: no), nc.
      unfold open_result.
      split.
      { rewrite Hlog. simpl open_calls. rewrite Hlog1, <- app_assoc.
        reflexivity. }
      split; [ rewrite Hcalls; simpl; rewrite Hc1; reflexivity | ].
      split; [ rewrite Hdev; exact Hdev1 | ].
      split; [ rewrite Hino; exact Hino1 | ].
      split; [ rewrite Hclosed; exact Hd1 | ].
      split; [ intros Ht; rewrite Hflag in Ht; discriminate | ].
      destruct r as [ f | ].
      * destruct Hres as (Hnc & Hopen & Hfds & Hfd & Hdfd & Hnext & Hpos
                          & Heoa & Heof & Hp & Hop & Hdv & Hin & Hex & Htr
                          & Hkeep & Hthr & Hblk & Htd & Hthreads & Hrest).
        split; [ exact Hnc | ].
        unfold opened_as. simpl in *.
        split; [ exact Hopen | ]. split; [ exact Hfds | ].
        split; [ congruence | ]. split; [ congruence | ].
        split; [ congruence | ]. split; [ exact Hpos | ].
        split; [ exact Heoa | ]. split; [ exact Heof | ].
        split; [ exact Hp | ]. split; [ exact Hop | ].
        split; [ congruence | ]. split; [ congruence | ].
        split; [ exact Hex | ]. split; [ exact Htr | ].
        split.
        { intros Ht Hexists.
          apply (same_file_trans _ (world h1)); [ exact Hsf1 | ].
          apply Hkeep; [ exact Ht | congruence ]. }
        split; [ exact Hthr | ]. split; [ exact Hblk | ].
        split; [ congruence | ]. split; [ congruence | exact Hrest ].
      * exact Hres.
    + apply (open_exit T name flags fapl maxaddr h h1
               [call_cuFileDriverOpen st] false (-1) (-1) r h');
        [ exact Hlog1 | exact Hfr1 | intros Ht; rewrite Hflag in Ht; discriminate
        | reflexivity | reflexivity | exact H ].
Qed.




(** X23.  An open that returns [NULL] has closed the descriptors it was
    handed, the direct one first, and has freed the handle if it was
    allocated; it closes and frees nothing else, so the scratch arrays
    allocated before a late failure are not freed. *)
Theorem failed_open_closes_what_it_opened
  R T C E name flags fapl maxaddr h h' :
  H5FD_gds_open R T C E name flags fapl maxaddr h = (None, h') ->
  exists new_opens new_calls,
    open_calls h' = open_calls h ++ new_opens /\
    calls (world h') = calls (world h) ++ new_calls /\
    closed_fds new_calls = rev (opened_fds new_opens) /\
    existsb is_H5FL_FREE new_calls = existsb is_allocation new_opens /\
    forallb close_or_free new_calls = true.
Proof.
  intros H. apply open_outcome in H.
  destruct H as (no & nc & Hlog & Hcalls & _ & _ & _ & _ & Hrel).
  destruct Hrel as (Hfds & Hfree & Hall).
  exists no, nc.
  split; [ exact Hlog | ]. split; [ exact Hcalls | ].
  split; [ exact Hfds | ]. split; [ exact Hfree | exact Hall ].
Qed.

Lemma failed_open_closes_what_it_opened_witness :
  let h := set_world quiet_host
             (set_script quiet_world [Normal; Normal; Normal; Normal; Normal;
                                      Error 5]) in
  let run := H5FD_gds_open ACC_RDWR ACC_TRUNC ACC_CREAT ACC_EXCL some_name 19
               (gds_fapl 3 4) MAXADDR h in
  run = (None, snd run) /\
  exists new_opens new_calls,
    open_calls (snd run) = open_calls h ++ new_opens /\
    calls (world (snd run)) = calls (world h) ++ new_calls /\
    closed_fds new_calls = rev (opened_fds new_opens) /\
    existsb is_H5FL_FREE new_calls = existsb is_allocation new_opens /\
    forallb close_or_free new_calls = true.
Proof.
  intros h run.
  assert (Hrun : run = (None, snd run))
    by (apply run_fst; vm_compute; reflexivity).
  split; [ exact Hrun | ].
  exact (failed_open_closes_what_it_opened ACC_RDWR ACC_TRUNC ACC_CREAT
           ACC_EXCL some_name 19 (gds_fapl 3 4) MAXADDR h (snd run) Hrun).
Defined.



(** X25.  An open that returns a handle has emptied the file when the flags
    ask for truncation, and the handle then starts with the physical end
    at zero; without that flag an existing file is as it was, in size
    and in content, and the physical end is its size. *)
Theorem open_truncates_only_on_request
  R T C E name flags fapl maxaddr h f h' :
  H5FD_gds_open R T C E name flags fapl maxaddr h = (Some f, h') ->
  (Z.land T flags <> 0 -> fsize (world h') = 0 /\ eof f = 0) /\
  (Z.land T flags = 0 -> path_exists h = true ->
   same_file (world h) (world h') /\ eof f = u64 (fsize (world h))).
Proof.
  intros H. apply open_outcome in H.
  destruct H as (no & nc & _ & _ & _ & _ & _ & _ & _ & Hres).
  destruct Hres as (_ & _ & _ & _ & _ & _ & _ & Heof & _ & _ & _ & _ & _
                    & Htr & Hkeep & _).
  split.
  - intros Ht. specialize (Htr Ht).
    split; [ exact Htr | ]. rewrite Heof, Htr. reflexivity.
  - intros Ht Hex. specialize (Hkeep Ht Hex).
    split; [ exact Hkeep | ].
    rewrite Heof. destruct Hkeep as [Hfs _]. rewrite Hfs. reflexivity.
Qed.

Lemma open_truncates_only_on_request_witness :
  let h := set_world quiet_host ten_byte_file_world in
  let run := H5FD_gds_open ACC_RDWR ACC_TRUNC ACC_CREAT ACC_EXCL some_name 3
               (gds_fapl 3 4) MAXADDR h in
  run = (Some (fresh_file 3 4), snd run) /\
  Z.land ACC_TRUNC 3 <> 0 /\
  fsize (world (snd run)) = 0 /\ eof (fresh_file 3 4) = 0.
Proof.
  intros h run.
  assert (Hrun : run = (Some (fresh_file 3 4), snd run))
    by (apply run_fst; vm_compute; reflexivity).
  split; [ exact Hrun | ].
  split; [ discriminate | ].
  apply (open_truncates_only_on_request ACC_RDWR ACC_TRUNC ACC_CREAT ACC_EXCL
           some_name 3 (gds_fapl 3 4) MAXADDR h (fresh_file 3 4) (snd run)
           Hrun).
  discriminate.
Defined.


